(** * Validador-COMTRADE: a shallow embedding of the matching core

    The development follows the Python sources:
    - [core/comtrade_parser.py]  ([ComtradeParser], [ComtradeStandardTemplate]),
    - [core/alias_database.py]   ([AliasDatabase]),
    - [core/validator.py]        ([SignalValidator]),
    - [core/xrio_parser.py]      ([classify_signal_function],
                                  [_extract_disturbance_report_signals],
                                  [_extract_binary_signals],
                                  [get_block_names]),
    - [models/signal_models.py]  (the dataclasses).

    Conventions.
    - A Python [str] is a [string]: the bytes of the UTF-8 text.  Case
      mapping, white space and digits are those of Python on ASCII text
      ([isascii]); bytes above 127 are left alone by [upper]/[lower], are
      never white space and never digits, whereas Python also maps, strips
      and counts characters outside ASCII.  Properties of letter case are
      therefore stated for ASCII names.
    - A Python [int] is a [Z]; a Python [float] is a binary64 [float].
      [int(s)] strips the white space of C and refuses more than 4300
      digits.
    - A call that may raise returns an [outcome]; [try]/[except] is
      [try_except].  A method of the store that writes returns the disk
      and the store as the call leaves them, together with its outcome:
      the store is updated before it is saved, and stays updated when the
      save raises.
    - The disk maps a path to the content of a file.  Paths are POSIX
      paths; directories are not recorded: [os.makedirs] creates what is
      missing and raises only on the empty path, and opening a file for
      writing raises only on a path that names no file.  Permissions,
      full disks and files standing where a directory is needed are not
      modelled.
    - The records of a store hold values of the declared types of the
      dataclasses; a JSON document that would give another type to a
      field is answered by [Untyped].
    - A [dict] is an insertion-ordered association list with unique keys
      ([Dict]), as iteration order is observable in the sources. *)

From Stdlib Require Import String Ascii List ZArith Lia Bool Arith.
From Stdlib Require Import PrimFloat DecimalString Sorted.
Import ListNotations.
Open Scope string_scope.
Open Scope bool_scope.
Open Scope nat_scope.

Set Implicit Arguments.
Set Warnings "-inexact-float,-register-all".

(* ================================================================== *)
(** * Part I: the program *)
(* ================================================================== *)

(** ** Python built-ins used by the sources *)

Module Py.

(** Exceptions that occur in the modelled code. [JSONDecodeError] and
    [UnicodeDecodeError] are subclasses of [ValueError]; they are kept
    apart because [except ValueError] and [except json.JSONDecodeError]
    catch different sets. *)
Inductive exn : Set :=
| FileNotFoundError
| ValueError
| JSONDecodeError
| IndexError
| KeyError
| TypeError
| AttributeError
| UnicodeDecodeError
| IsADirectoryError.

Definition exn_eqb (a b : exn) : bool :=
  match a, b with
  | FileNotFoundError, FileNotFoundError
  | ValueError, ValueError
  | JSONDecodeError, JSONDecodeError
  | IndexError, IndexError
  | KeyError, KeyError
  | TypeError, TypeError
  | AttributeError, AttributeError
  | UnicodeDecodeError, UnicodeDecodeError
  | IsADirectoryError, IsADirectoryError => true
  | _, _ => false
  end.

(** [isinstance(e, cls)] for the exception classes above. *)
Definition is_instance (e cls : exn) : bool :=
  exn_eqb e cls ||
  match e, cls with
  | JSONDecodeError, ValueError
  | UnicodeDecodeError, ValueError => true
  | _, _ => false
  end.

(** The result of a call.  [Untyped] marks a call that returns normally in
    Python but hands back an object holding a value outside the declared
    type of a dataclass field (dataclasses do not check their fields);
    the typed records below cannot hold such an object. *)
Inductive outcome (A : Type) : Type :=
| Returns (a : A)
| Raises (e : exn)
| Untyped.

Arguments Returns {A} a.
Arguments Raises {A} e.
Arguments Untyped {A}.

Definition bind {A B} (m : outcome A) (k : A -> outcome B) : outcome B :=
  match m with
  | Returns a => k a
  | Raises e => Raises e
  | Untyped => Untyped
  end.

Notation "x <- m ;; k" := (bind m (fun x => k))
  (at level 61, m at next level, right associativity).

(** [try: m  except (c1, c2, ...): h]. *)
Definition try_except {A} (m : outcome A) (classes : list exn)
  (h : outcome A) : outcome A :=
  match m with
  | Raises e => if existsb (is_instance e) classes then h else Raises e
  | r => r
  end.

Definition of_option {A} (e : exn) (o : option A) : outcome A :=
  match o with
  | Some a => Returns a
  | None => Raises e
  end.

(** [l[i]] for [0 <= i]. *)
Definition index {A} (l : list A) (i : nat) : outcome A :=
  of_option IndexError (nth_error l i).

(** [l[i]] for any integer [i]: a negative index counts from the end. *)
Definition index_Z {A} (l : list A) (i : Z) : outcome A :=
  if (0 <=? i)%Z then index l (Z.to_nat i)
  else if (- Z.of_nat (length l) <=? i)%Z
       then index l (Z.to_nat (Z.of_nat (length l) + i))
       else Raises IndexError.

(** [range(a, b)] *)
Definition range (a b : Z) : list Z :=
  map (fun k => (a + Z.of_nat k)%Z) (seq 0 (Z.to_nat (b - a))).

(** [[f(x) for x in l]], stopping at the first exception. *)
Fixpoint map_outcome {A B} (f : A -> outcome B) (l : list A) : outcome (list B) :=
  match l with
  | [] => Returns []
  | x :: r => y <- f x ;; ys <- map_outcome f r ;; Returns (y :: ys)
  end.

(** *** Characters *)

Definition code (c : ascii) : nat := nat_of_ascii c.

(** [str.isspace] on the ASCII range: TAB..CR, FS..US and the space. *)
Definition is_space (c : ascii) : bool :=
  ((9 <=? code c) && (code c <=? 13)) || ((28 <=? code c) && (code c <=? 32)).

Definition is_digit (c : ascii) : bool :=
  (48 <=? code c) && (code c <=? 57).

Definition digit_val (c : ascii) : Z := Z.of_nat (code c - 48).

Definition upper_char (c : ascii) : ascii :=
  if (97 <=? code c) && (code c <=? 122) then ascii_of_nat (code c - 32) else c.

Definition lower_char (c : ascii) : ascii :=
  if (65 <=? code c) && (code c <=? 90) then ascii_of_nat (code c + 32) else c.

(** *** Strings *)

Fixpoint smap (f : ascii -> ascii) (s : string) : string :=
  match s with
  | EmptyString => EmptyString
  | String c r => String (f c) (smap f r)
  end.

Fixpoint sfilter (p : ascii -> bool) (s : string) : string :=
  match s with
  | EmptyString => EmptyString
  | String c r => if p c then String c (sfilter p r) else sfilter p r
  end.

Definition upper : string -> string := smap upper_char.
Definition lower : string -> string := smap lower_char.

(** [s.isascii()]: on such text [upper], [lower] and [strip] are those of
    Python. *)
Fixpoint isascii (s : string) : bool :=
  match s with
  | EmptyString => true
  | String c r => (code c <? 128) && isascii r
  end.

Fixpoint lstrip (s : string) : string :=
  match s with
  | String c r => if is_space c then lstrip r else s
  | EmptyString => EmptyString
  end.

Fixpoint rstrip (s : string) : string :=
  match s with
  | EmptyString => EmptyString
  | String c r =>
      match rstrip r with
      | EmptyString => if is_space c then EmptyString else String c EmptyString
      | r' => String c r'
      end
  end.

(** [s.replace(a, b)] for one-character [a] and [b]. *)
Definition replace_char (a b : ascii) (s : string) : string :=
  smap (fun c => if Ascii.eqb c a then b else c) s.

(** [s.replace(a, '')] for a one-character [a]. *)
Definition remove_char (a : ascii) (s : string) : string :=
  sfilter (fun c => negb (Ascii.eqb c a)) s.

(** [s[:k]] *)
Fixpoint take (k : nat) (s : string) : string :=
  match k, s with
  | S k', String c r => String c (take k' r)
  | _, _ => EmptyString
  end.

(** [s.strip()] *)
Definition strip (s : string) : string := rstrip (lstrip s).

(** [s.split(sep)] for a one-character separator: never empty. *)
Fixpoint split (sep : ascii) (s : string) : list string :=
  match s with
  | EmptyString => [EmptyString]
  | String c r =>
      if Ascii.eqb c sep then EmptyString :: split sep r
      else match split sep r with
           | p :: ps => String c p :: ps
           | [] => [String c EmptyString]
           end
  end.

(** [s.startswith(p)] *)
Definition startswith (s p : string) : bool := String.prefix p s.

(** [s[k:]] *)
Fixpoint drop (k : nat) (s : string) : string :=
  match k, s with
  | O, _ => s
  | S k', String _ r => drop k' r
  | S _, EmptyString => EmptyString
  end.

(** [s[-k:]] for [k > 0] *)
Definition last_chars (k : nat) (s : string) : string :=
  drop (String.length s - k) s.

(** [s[:-1]] *)
Fixpoint drop_last (s : string) : string :=
  match s with
  | EmptyString => EmptyString
  | String c EmptyString => EmptyString
  | String c r => String c (drop_last r)
  end.

(** [s.endswith(p)] *)
Definition endswith (s p : string) : bool :=
  (String.length p <=? String.length s) &&
  String.eqb (drop (String.length s - String.length p) s) p.

(** [sub in s] *)
Fixpoint contains (s sub : string) : bool :=
  String.prefix sub s ||
  match s with
  | EmptyString => false
  | String _ r => contains r sub
  end.

(** [any(k in s for k in keys)] *)
Definition contains_any (s : string) (keys : list string) : bool :=
  existsb (contains s) keys.

(** [x in l] for a list of strings. *)
Definition mem (x : string) (l : list string) : bool :=
  existsb (String.eqb x) l.

(** [bool(s)] *)
Definition truthy (s : string) : bool :=
  match s with
  | EmptyString => false
  | _ => true
  end.

(** [str(n)] and [f"{n:02d}"] for [n >= 0]. *)
Definition str_nat (n : nat) : string := NilEmpty.string_of_uint (Nat.to_uint n).

Definition str_nat_02d (n : nat) : string :=
  if n <? 10 then "0" ++ str_nat n else str_nat n.

Definition str_Z (z : Z) : string :=
  match z with
  | Zneg p => "-" ++ str_nat (Pos.to_nat p)
  | _ => str_nat (Z.to_nat z)
  end.

(** *** [int(s)] in base 10
    Surrounding white space, an optional sign, then digits, single
    underscores being allowed between digits.  The white space of [int]
    is that of C ([Py_ISSPACE]: TAB..CR and the space), not that of
    [str.strip]; a literal of more than 4300 digits is refused
    ([sys.int_max_str_digits]). *)
Definition is_c_space (c : ascii) : bool :=
  ((9 <=? code c) && (code c <=? 13)) || (code c =? 32).

Fixpoint int_lstrip (s : string) : string :=
  match s with
  | String c r => if is_c_space c then int_lstrip r else s
  | EmptyString => EmptyString
  end.

Fixpoint int_rstrip (s : string) : string :=
  match s with
  | EmptyString => EmptyString
  | String c r =>
      match int_rstrip r with
      | EmptyString => if is_c_space c then EmptyString else String c EmptyString
      | r' => String c r'
      end
  end.

Fixpoint int_digits (s : string) (acc : Z) (after_digit : bool) : option Z :=
  match s with
  | EmptyString => if after_digit then Some acc else None
  | String c r =>
      if is_digit c then int_digits r (10 * acc + digit_val c)%Z true
      else if Ascii.eqb c "_" && after_digit then int_digits r acc false
      else None
  end.

Definition int_literal (s : string) : option Z :=
  let t := int_rstrip (int_lstrip s) in
  if (4300 <? Z.of_nat (String.length (sfilter is_digit t)))%Z then None
  else
    match t with
    | String "+" r => int_digits r 0%Z false
    | String "-" r => option_map Z.opp (int_digits r 0%Z false)
    | t => int_digits t 0%Z false
    end.

Definition int (s : string) : outcome Z := of_option ValueError (int_literal s).

(** *** Text files
    [f.readlines()] in universal-newlines mode: CR LF and CR read as LF,
    every line keeps its terminator, a last line may lack one. *)
Fixpoint readlines (s : string) : list string :=
  match s with
  | EmptyString => []
  | String c r =>
      if Ascii.eqb c "010" then String "010" EmptyString :: readlines r
      else if Ascii.eqb c "013" then
        match r with
        | String c2 r2 =>
            if Ascii.eqb c2 "010" then String "010" EmptyString :: readlines r2
            else String "010" EmptyString :: readlines r
        | EmptyString => [String "010" EmptyString]
        end
      else match readlines r with
           | l :: ls => String c l :: ls
           | [] => [String c EmptyString]
           end
  end.

(** A computation is _guarded_ when the only way it fails is a
    [ValueError]: what [except ValueError] absorbs. *)
Definition guarded {A} (m : outcome A) : Prop :=
  (exists a, m = Returns a) \/ m = Raises ValueError.

End Py.

Notation "x <- m ;; k" := (Py.bind m (fun x => k))
  (at level 61, m at next level, right associativity).

(** ** Python [dict]: insertion-ordered, keys unique *)

Module Dict.

Section WithValue.
Variable V : Type.

Definition t := list (string * V).

Definition empty : t := [].

(** [d.get(k)] *)
Fixpoint get (d : t) (k : string) : option V :=
  match d with
  | [] => None
  | (k', v) :: r => if String.eqb k' k then Some v else get r k
  end.

(** [k in d] *)
Definition has (d : t) (k : string) : bool :=
  match get d k with
  | Some _ => true
  | None => false
  end.

(** [d[k] = v]: a present key keeps its position, a new key goes last. *)
Fixpoint set (d : t) (k : string) (v : V) : t :=
  match d with
  | [] => [(k, v)]
  | (k', v') :: r =>
      if String.eqb k' k then (k, v) :: r else (k', v') :: set r k v
  end.

(** [del d[k]] *)
Fixpoint del (d : t) (k : string) : t :=
  match d with
  | [] => []
  | (k', v') :: r => if String.eqb k' k then r else (k', v') :: del r k
  end.

Definition keys (d : t) : list string := map fst d.
Definition values (d : t) : list V := map snd d.
Definition items (d : t) : list (string * V) := d.

End WithValue.

End Dict.

(** ** [models/signal_models.py] *)

Module Models.

Inductive SignalType : Set := ANALOG | BINARY.

Inductive ProtectionFunction : Set :=
| DISTANCE | OVERCURRENT | DIFFERENTIAL | OVERVOLTAGE | UNDERVOLTAGE
| FREQUENCY | DIRECTIONAL | BREAKER_FAILURE | RECLOSING | SYNCHROCHECK
| OVERLOAD | GENERAL | METERING | COMMUNICATION | UNKNOWN.

(** [ProtectionFunction.value] *)
Definition value (f : ProtectionFunction) : string :=
  match f with
  | DISTANCE => "Protección de distancia"
  | OVERCURRENT => "Sobrecorriente"
  | DIFFERENTIAL => "Diferencial"
  | OVERVOLTAGE => "Sobretensión"
  | UNDERVOLTAGE => "Subtensión"
  | FREQUENCY => "Frecuencia"
  | DIRECTIONAL => "Direccional"
  | BREAKER_FAILURE => "Falla de interruptor"
  | RECLOSING => "Recierre"
  | SYNCHROCHECK => "Verificación de sincronismo"
  | OVERLOAD => "Sobrecarga"
  | GENERAL => "General"
  | METERING => "Medición"
  | COMMUNICATION => "Comunicación"
  | UNKNOWN => "Desconocido"
  end.

Record DisturbanceReportSignal : Type := {
  channel : nat;
  dr_name : string;
  dr_description : string;
  trig_operation : string;
  trig_level : string;
  indication_mask : string;
  set_led : string;
  block : string
}.

Record ComtradeChannel : Type := {
  index : Z;
  name : string;
  phase : string;
  circuit_component : string;
  unit : string;
  multiplier : float;
  offset : float;
  skew : float;
  min_val : float;
  max_val : float;
  primary : float;
  secondary : float;
  ps_type : string;
  signal_type : SignalType;
  normal_state : Z
}.

(** [ComtradeChannel(signal_type=t)]: the dataclass defaults. *)
Definition ComtradeChannel_new (t : SignalType) : ComtradeChannel := {|
  index := 0%Z; name := ""; phase := ""; circuit_component := ""; unit := "";
  multiplier := 1.0%float; offset := 0.0%float; skew := 0.0%float;
  min_val := (-99999.0)%float; max_val := 99999.0%float;
  primary := 1.0%float; secondary := 1.0%float; ps_type := "P";
  signal_type := t; normal_state := 0%Z
|}.

Record ComtradeConfig : Type := {
  station_name : string;
  rec_dev_id : string;
  rev_year : Z;
  num_analog : Z;
  num_digital : Z;
  analog_channels : list ComtradeChannel;
  digital_channels : list ComtradeChannel;
  line_freq : float;
  sampling_rates : list (float * Z);
  start_timestamp : string;
  trigger_timestamp : string;
  data_format : string;
  time_multiplier : float;
  file_path : string
}.

(** [ComtradeConfig(file_path=p)] *)
Definition ComtradeConfig_new (p : string) : ComtradeConfig := {|
  station_name := ""; rec_dev_id := ""; rev_year := 1999%Z;
  num_analog := 0%Z; num_digital := 0%Z;
  analog_channels := []; digital_channels := [];
  line_freq := 60.0%float; sampling_rates := [];
  start_timestamp := ""; trigger_timestamp := "";
  data_format := "ASCII"; time_multiplier := 1.0%float; file_path := p
|}.

Record AliasEntry : Type := {
  relay_name : string;
  standard_name : string;
  relay_model : string;
  alias_signal_type : string;
  function : string;
  auto_detected : bool;
  validated : bool
}.

(** [AliasEntry.key] *)
Definition key (e : AliasEntry) : string :=
  relay_model e ++ "::" ++ relay_name e.

Record ValidationResult : Type := {
  xrio_name : string;
  result_standard_name : string;
  match_type : string;
  confidence : float;
  message : string;
  alias_entry : option AliasEntry
}.

End Models.

(** ** [core/comtrade_parser.py] *)

Module Comtrade.
Import Py Models.

(** The files the parser can see: a path is mapped to the text of the file
    (already decoded with [errors='replace']), or to [None] when
    [os.path.exists] is false. *)
Definition filesystem := string -> option string.

Section Parser.

(** [float(s)] on a [str]: the conversion of a literal to binary64 is taken
    as given; [None] stands for [ValueError], the only exception [float]
    raises on a string. *)
Variable float_literal : string -> option float.

Definition float (s : string) : outcome PrimFloat.float :=
  of_option ValueError (float_literal s).

(** [ComtradeParser]: the object state is [self._config]. *)
Record ComtradeParser : Type := {
  _config : option ComtradeConfig
}.

Definition ComtradeParser_new : ComtradeParser := {| _config := None |}.

Definition _split_cfg_line (line : string) : list string :=
  map strip (split "," line).

(** [parts[i] if len(parts) > i else default] *)
Definition field_or (parts : list string) (i : nat) (default : string)
  : outcome string :=
  if i <? length parts then Py.index parts i else Returns default.

(** The [try: ch.index = int(parts[0]) if len(parts) > 0 else default_idx
    except ValueError: ch.index = default_idx] of both channel parsers. *)
Definition channel_index (parts : list string) (default_idx : Z) : outcome Z :=
  try_except
    (if 0 <? length parts then p <- Py.index parts 0 ;; Py.int p
     else Returns default_idx)
    [ValueError]
    (Returns default_idx).

(** One turn of the [float_fields] loop: [current] is the value the
    attribute holds before the turn. *)
Definition float_field (parts : list string) (idx : nat)
  (current default : PrimFloat.float) : outcome PrimFloat.float :=
  if idx <? length parts then
    try_except (p <- Py.index parts idx ;; float p) [ValueError] (Returns default)
  else Returns current.

Definition _parse_analog_channel (line : string) (default_idx : Z)
  : outcome ComtradeChannel :=
  let ch := ComtradeChannel_new ANALOG in
  let parts := _split_cfg_line line in
  ch_index <- channel_index parts default_idx ;;
  ch_name <- field_or parts 1 ("A" ++ str_Z default_idx) ;;
  ch_phase <- field_or parts 2 "" ;;
  ch_ccbm <- field_or parts 3 "" ;;
  ch_unit <- field_or parts 4 "" ;;
  ch_multiplier <- float_field parts 5 (multiplier ch) 1.0%float ;;
  ch_offset <- float_field parts 6 (offset ch) 0.0%float ;;
  ch_skew <- float_field parts 7 (skew ch) 0.0%float ;;
  ch_min <- float_field parts 8 (min_val ch) (-99999.0)%float ;;
  ch_max <- float_field parts 9 (max_val ch) 99999.0%float ;;
  ch_primary <- float_field parts 10 (primary ch) 1.0%float ;;
  ch_secondary <- float_field parts 11 (secondary ch) 1.0%float ;;
  ch_ps <- (if 12 <? length parts
            then p <- Py.index parts 12 ;; Returns (strip p)
            else Returns "P") ;;
  Returns {|
    index := ch_index; name := ch_name; phase := ch_phase;
    circuit_component := ch_ccbm; unit := ch_unit;
    multiplier := ch_multiplier; offset := ch_offset; skew := ch_skew;
    min_val := ch_min; max_val := ch_max;
    primary := ch_primary; secondary := ch_secondary; ps_type := ch_ps;
    signal_type := signal_type ch; normal_state := normal_state ch
  |}.

Definition _parse_digital_channel (line : string) (default_idx : Z)
  : outcome ComtradeChannel :=
  let ch := ComtradeChannel_new BINARY in
  let parts := _split_cfg_line line in
  ch_index <- channel_index parts default_idx ;;
  ch_name <- field_or parts 1 ("D" ++ str_Z default_idx) ;;
  ch_phase <- field_or parts 2 "" ;;
  ch_ccbm <- field_or parts 3 "" ;;
  ch_state <- (if 4 <? length parts
               then try_except (p <- Py.index parts 4 ;; Py.int p)
                      [ValueError] (Returns 0%Z)
               else Returns (normal_state ch)) ;;
  Returns {|
    index := ch_index; name := ch_name; phase := ch_phase;
    circuit_component := ch_ccbm; unit := unit ch;
    multiplier := multiplier ch; offset := offset ch; skew := skew ch;
    min_val := min_val ch; max_val := max_val ch;
    primary := primary ch; secondary := secondary ch; ps_type := ps_type ch;
    signal_type := signal_type ch; normal_state := ch_state
  |}.

(** Line 2, [for p in parts[1:]]: one turn on the pair [(num_a, num_d)]. *)
Definition count_turn (acc : Z * Z) (p : string) : outcome (Z * Z) :=
  let p := strip p in
  if endswith (upper p) "A" then
    try_except (v <- Py.int (drop_last p) ;; Returns (v, snd acc))
      [ValueError] (Returns acc)
  else if endswith (upper p) "D" then
    try_except (v <- Py.int (drop_last p) ;; Returns (fst acc, v))
      [ValueError] (Returns acc)
  else Returns acc.

Fixpoint count_loop (ps : list string) (acc : Z * Z) : outcome (Z * Z) :=
  match ps with
  | [] => Returns acc
  | p :: r => acc' <- count_turn acc p ;; count_loop r acc'
  end.

(** Line 2 as a whole: the counts [(num_analog, num_digital)], starting
    from the values the configuration holds. *)
Definition channel_counts (parts : list string) (current : Z * Z)
  : outcome (Z * Z) :=
  if 1 <=? length parts then
    total <- Py.index parts 0 ;;
    counts <- count_loop (tl parts) (0%Z, 0%Z) ;;
    if (fst counts =? 0)%Z && (snd counts =? 0)%Z && (length parts =? 1) then
      try_except (tt <- Py.int total ;; Returns (tt, snd counts))
        [ValueError] (Returns counts)
    else Returns counts
  else Returns current.

(** [for i in range(n): if line_idx >= len(lines): break ...]: [todo]
    turns remain, [i] is the loop variable; returns the channels and the
    line index reached. *)
Fixpoint channel_loop (parse : string -> Z -> outcome ComtradeChannel)
  (lines : list string) (todo : nat) (i : Z) (line_idx : nat)
  (acc : list ComtradeChannel) : outcome (list ComtradeChannel * nat) :=
  match todo with
  | O => Returns (acc, line_idx)
  | S todo' =>
      if length lines <=? line_idx then Returns (acc, line_idx)
      else
        l <- Py.index lines line_idx ;;
        ch <- parse l (i + 1)%Z ;;
        channel_loop parse lines todo' (i + 1)%Z (line_idx + 1) (acc ++ [ch])%list
  end.

(** [for _ in range(max(num_rates, 1))] *)
Fixpoint rates_loop (lines : list string) (todo : nat) (line_idx : nat)
  (acc : list (PrimFloat.float * Z)) : outcome (list (PrimFloat.float * Z) * nat) :=
  match todo with
  | O => Returns (acc, line_idx)
  | S todo' =>
      if length lines <=? line_idx then Returns (acc, line_idx)
      else
        l <- Py.index lines line_idx ;;
        let parts := _split_cfg_line l in
        acc' <- (if 2 <=? length parts then
                   try_except
                     (p0 <- Py.index parts 0 ;;
                      rate <- float p0 ;;
                      p1 <- Py.index parts 1 ;;
                      end_sample <- Py.int p1 ;;
                      Returns (acc ++ [(rate, end_sample)])%list)
                     [ValueError] (Returns acc)
                 else Returns acc) ;;
        rates_loop lines todo' (line_idx + 1) acc'
  end.

Definition data_formats : list string := ["ASCII"; "BINARY"; "BINARY32"; "FLOAT32"].

(** The body of [parse_cfg] once the lines are read and counted. *)
Definition parse_cfg_lines (cfg_path : string) (lines : list string)
  : outcome ComtradeConfig :=
  let config := ComtradeConfig_new cfg_path in
  let line_idx := 0 in
  (* line 1 *)
  l <- Py.index lines line_idx ;;
  let parts := _split_cfg_line l in
  c_station <- field_or parts 0 "" ;;
  c_dev <- field_or parts 1 "" ;;
  c_rev <- (if 2 <? length parts
            then try_except (p <- Py.index parts 2 ;; Py.int p)
                   [ValueError] (Returns 1999%Z)
            else Returns (rev_year config)) ;;
  let line_idx := line_idx + 1 in
  (* line 2 *)
  l <- Py.index lines line_idx ;;
  let parts := _split_cfg_line l in
  counts <- channel_counts parts (num_analog config, num_digital config) ;;
  let line_idx := line_idx + 1 in
  (* channels *)
  a <- channel_loop _parse_analog_channel lines
         (Z.to_nat (fst counts)) 0%Z line_idx [] ;;
  let line_idx := snd a in
  d <- channel_loop _parse_digital_channel lines
         (Z.to_nat (snd counts)) 0%Z line_idx [] ;;
  let line_idx := snd d in
  (* line frequency *)
  f <- (if line_idx <? length lines then
          v <- try_except (l <- Py.index lines line_idx ;; float l)
                 [ValueError] (Returns 60.0%float) ;;
          Returns (v, line_idx + 1)
        else Returns (line_freq config, line_idx)) ;;
  let line_idx := snd f in
  (* number of sampling rates *)
  n <- (if line_idx <? length lines then
          v <- try_except (l <- Py.index lines line_idx ;; Py.int l)
                 [ValueError] (Returns 0%Z) ;;
          Returns (v, line_idx + 1)
        else Returns (0%Z, line_idx)) ;;
  let line_idx := snd n in
  r <- rates_loop lines (Z.to_nat (Z.max (fst n) 1)) line_idx [] ;;
  let line_idx := snd r in
  (* timestamps *)
  t1 <- (if line_idx <? length lines then
           l <- Py.index lines line_idx ;; Returns (l, line_idx + 1)
         else Returns (start_timestamp config, line_idx)) ;;
  let line_idx := snd t1 in
  t2 <- (if line_idx <? length lines then
           l <- Py.index lines line_idx ;; Returns (l, line_idx + 1)
         else Returns (trigger_timestamp config, line_idx)) ;;
  let line_idx := snd t2 in
  (* data format *)
  df <- (if line_idx <? length lines then
           l <- Py.index lines line_idx ;;
           let fmt := strip (upper l) in
           Returns (if mem fmt data_formats then fmt else "ASCII", line_idx + 1)
         else Returns (data_format config, line_idx)) ;;
  let line_idx := snd df in
  (* time multiplier *)
  tm <- (if line_idx <? length lines then
           try_except (l <- Py.index lines line_idx ;; float l)
             [ValueError] (Returns 1.0%float)
         else Returns (time_multiplier config)) ;;
  Returns {|
    station_name := c_station; rec_dev_id := c_dev; rev_year := c_rev;
    num_analog := fst counts; num_digital := snd counts;
    analog_channels := fst a; digital_channels := fst d;
    line_freq := fst f; sampling_rates := fst r;
    start_timestamp := fst t1; trigger_timestamp := fst t2;
    data_format := fst df; time_multiplier := tm;
    file_path := file_path config
  |}.

(** [ComtradeParser.parse_cfg]: the configuration, and the parser with
    [self._config] set to it. *)
Definition parse_cfg (fs : filesystem) (self : ComtradeParser)
  (cfg_path : string) : outcome (ComtradeParser * ComtradeConfig) :=
  match fs cfg_path with
  | None => Raises FileNotFoundError
  | Some text =>
      let lines := map strip (readlines text) in
      if length lines <? 2 then Raises ValueError
      else
        config <- parse_cfg_lines cfg_path lines ;;
        Returns ({| _config := Some config |}, config)
  end.

(** A record of [parse_dat_ascii]:
    [(sample_num, timestamp, analog_vals, digital_vals)]. *)
Definition dat_row : Type := Z * Z * list PrimFloat.float * list Z.

Definition analog_val (parts : list string) (i : Z) : outcome PrimFloat.float :=
  if (i <? Z.of_nat (length parts))%Z then
    try_except (p <- index_Z parts i ;; float p) [ValueError] (Returns 0.0%float)
  else Returns 0.0%float.

Definition digital_val (parts : list string) (i : Z) : outcome Z :=
  if (i <? Z.of_nat (length parts))%Z then
    try_except (p <- index_Z parts i ;; Py.int p) [ValueError] (Returns 0%Z)
  else Returns 0%Z.

(** One turn of [for line in f]: [None] is a [continue]. *)
Definition parse_dat_line (self : ComtradeParser) (line : string)
  : outcome (option dat_row) :=
  let line := strip line in
  if negb (truthy line) then Returns None
  else
    let parts := split "," line in
    if length parts <? 2 then Returns None
    else
      header <- try_except
                  (p0 <- Py.index parts 0 ;;
                   sample_num <- Py.int p0 ;;
                   p1 <- Py.index parts 1 ;;
                   timestamp <- Py.int p1 ;;
                   Returns (Some (sample_num, timestamp)))
                  [ValueError] (Returns None) ;;
      match header with
      | None => Returns None
      | Some (sample_num, timestamp) =>
          let num_a := match _config self with
                       | Some c => num_analog c
                       | None => 0%Z
                       end in
          let num_d := match _config self with
                       | Some c => num_digital c
                       | None => 0%Z
                       end in
          analog_vals <- map_outcome (analog_val parts) (range 2 (2 + num_a)) ;;
          digital_vals <- map_outcome (digital_val parts)
                            (range (2 + num_a) (2 + num_a + num_d)) ;;
          Returns (Some (sample_num, timestamp, analog_vals, digital_vals))
      end.

Fixpoint dat_loop (self : ComtradeParser) (lines : list string)
  (data : list dat_row) : outcome (list dat_row) :=
  match lines with
  | [] => Returns data
  | line :: r =>
      row <- parse_dat_line self line ;;
      match row with
      | None => dat_loop self r data
      | Some row => dat_loop self r (data ++ [row])%list
      end
  end.

(** [ComtradeParser.parse_dat_ascii] *)
Definition parse_dat_ascii (fs : filesystem) (self : ComtradeParser)
  (dat_path : string) : outcome (list dat_row) :=
  match fs dat_path with
  | None => Raises FileNotFoundError
  | Some text => dat_loop self (readlines text) []
  end.

End Parser.

(** The channel counts [parse_dat_ascii] reads from [self._config]. *)
Definition count_a (self : ComtradeParser) : Z :=
  match _config self with Some c => num_analog c | None => 0%Z end.

Definition count_d (self : ComtradeParser) : Z :=
  match _config self with Some c => num_digital c | None => 0%Z end.

Definition counts_nonneg (self : ComtradeParser) : Prop :=
  (0 <= count_a self)%Z /\ (0 <= count_d self)%Z.

(** A row that carries one value per declared channel. *)
Definition full_row (self : ComtradeParser) (row : dat_row) : Prop :=
  let '(_, _, analog_vals, digital_vals) := row in
  Z.of_nat (length analog_vals) = count_a self /\
  Z.of_nat (length digital_vals) = count_d self.

(** [ComtradeStandardTemplate]: the [name] entries of
    [STANDARD_ANALOG_SIGNALS] and [STANDARD_DIGITAL_SIGNALS], in order. *)
Definition STANDARD_ANALOG_SIGNALS : list string :=
  ["IA"; "IB"; "IC"; "IN"; "I0"; "I1"; "I2";
   "VA"; "VB"; "VC"; "VN"; "V0"; "V1"; "V2"; "P"; "Q"; "F"].

Definition STANDARD_DIGITAL_SIGNALS : list string :=
  ["TRIP"; "TRIP_A"; "TRIP_B"; "TRIP_C"; "CLOSE"; "RECLOSE";
   "21_PICKUP"; "21_Z1"; "21_Z2"; "21_Z3"; "50_PICKUP"; "51_PICKUP";
   "67_FWD"; "67_REV"; "59_PICKUP"; "27_PICKUP"; "81_PICKUP";
   "87_OPERATE"; "CB_OPEN"; "CB_CLOSE"; "ALARM"; "COMM_FAIL"].

Definition get_all_standard_signal_names : list string :=
  (STANDARD_ANALOG_SIGNALS ++ STANDARD_DIGITAL_SIGNALS)%list.

(** *** [find_cfg_dat_pair] *)

(** [s.rfind(c)] for the characters [c] that satisfy [p]: the last index,
    or -1. *)
Fixpoint rfind_from (p : ascii -> bool) (s : string) (i : Z) (last : Z) : Z :=
  match s with
  | EmptyString => last
  | String c r => rfind_from p r (i + 1)%Z (if p c then i else last)
  end.

Definition rfind (p : ascii -> bool) (s : string) : Z := rfind_from p s 0%Z (-1)%Z.

Section Paths.

(** The path separators of the platform: [/] for [posixpath], the
    backslash and [/] for [ntpath]. *)
Variable is_sep : ascii -> bool.

(** [os.path.exists] *)
Variable path_exists : string -> bool.

Definition is_dot (c : ascii) : bool := Ascii.eqb c ".".

(** [os.path.splitext]: the extension starts at the last dot of the last
    component, unless only dots come before it in that component. *)
Definition splitext (p : string) : string * string :=
  let sepIndex := rfind is_sep p in
  let dotIndex := rfind is_dot p in
  if (sepIndex <? dotIndex)%Z then
    let before := take (Z.to_nat (dotIndex - (sepIndex + 1)))
                    (drop (Z.to_nat (sepIndex + 1)) p) in
    if truthy (sfilter (fun c => negb (is_dot c)) before)
    then (take (Z.to_nat dotIndex) p, drop (Z.to_nat dotIndex) p)
    else (p, EmptyString)
  else (p, EmptyString).

(** [ComtradeParser.find_cfg_dat_pair]: [(cfg_path, dat_path)]. *)
Definition find_cfg_dat_pair (file_path : string) : outcome (string * string) :=
  let (base, ext) := splitext file_path in
  let ext_lower := lower ext in
  if String.eqb ext_lower ".cfg" then
    let cfg_path := file_path in
    let dat_path := base ++ ".dat" in
    let dat_path := if negb (path_exists dat_path) then base ++ ".DAT"
                    else dat_path in
    Returns (cfg_path, dat_path)
  else if String.eqb ext_lower ".dat" then
    let dat_path := file_path in
    let cfg_path := base ++ ".cfg" in
    let cfg_path := if negb (path_exists cfg_path) then base ++ ".CFG"
                    else cfg_path in
    Returns (cfg_path, dat_path)
  else Raises ValueError.

End Paths.

End Comtrade.

(** ** JSON documents, as [json.load] returns them *)

Module Json.
Import Py.

(** A number keeps its literal: no arithmetic is done on it. An object is
    the [dict] that [json.load] builds (keys unique, in document order). *)
Inductive json : Type :=
| JNull
| JBool (b : bool)
| JNum (literal : string)
| JStr (s : string)
| JArr (elements : list json)
| JObj (members : list (string * json)).

(** What a file opened with [encoding='utf-8'] holds. *)
Inductive file_content : Type :=
| Undecodable                 (* bytes that are not UTF-8 *)
| NotJson                     (* text that is not a JSON document *)
| Document (j : json).

(** [json.load(f)] *)
Definition load (c : file_content) : outcome json :=
  match c with
  | Undecodable => Raises UnicodeDecodeError
  | NotJson => Raises JSONDecodeError
  | Document j => Returns j
  end.

(** [raw.items()]: only a [dict] has the method. *)
Definition items (raw : json) : outcome (list (string * json)) :=
  match raw with
  | JObj members => Returns members
  | _ => Raises AttributeError
  end.

End Json.

(** ** [core/alias_database.py] *)

Module AliasDb.
Import Py Models Json.

(** The JSON files on disk, by path. *)
Definition disk := string -> option file_content.

Definition write (fs : disk) (path : string) (c : file_content) : disk :=
  fun p => if String.eqb p path then Some c else fs p.

Record AliasDatabase : Type := {
  _db_path : string;
  _entries : Dict.t AliasEntry
}.

Definition with_entries (self : AliasDatabase) (d : Dict.t AliasEntry)
  : AliasDatabase :=
  {| _db_path := _db_path self; _entries := d |}.

Definition field_names : list string :=
  ["relay_name"; "standard_name"; "relay_model"; "signal_type"; "function";
   "auto_detected"; "validated"].

(** A keyword argument for a [str] field, or the default of the field. *)
Definition str_field (kw : list (string * json)) (k default : string)
  : outcome string :=
  match Dict.get kw k with
  | None => Returns default
  | Some (JStr s) => Returns s
  | Some _ => Untyped
  end.

Definition bool_field (kw : list (string * json)) (k : string) (default : bool)
  : outcome bool :=
  match Dict.get kw k with
  | None => Returns default
  | Some (JBool b) => Returns b
  | Some _ => Untyped
  end.

(** [AliasEntry( **data )]: [TypeError] when [data] is not a mapping or has a
    key that is no field; the values themselves are not checked. *)
Definition AliasEntry_kwargs (data : json) : outcome AliasEntry :=
  match data with
  | JObj kw =>
      if forallb (fun k => mem k field_names) (Dict.keys kw) then
        f1 <- str_field kw "relay_name" "" ;;
        f2 <- str_field kw "standard_name" "" ;;
        f3 <- str_field kw "relay_model" "" ;;
        f4 <- str_field kw "signal_type" "analog" ;;
        f5 <- str_field kw "function" "" ;;
        f6 <- bool_field kw "auto_detected" false ;;
        f7 <- bool_field kw "validated" false ;;
        Returns {| relay_name := f1; standard_name := f2; relay_model := f3;
                   alias_signal_type := f4; function := f5;
                   auto_detected := f6; validated := f7 |}
      else Raises TypeError
  | _ => Raises TypeError
  end.

(** The dictionary written for one entry by [save] and [export_to_json]. *)
Definition entry_to_json (e : AliasEntry) : json :=
  JObj [("relay_name", JStr (relay_name e));
        ("standard_name", JStr (standard_name e));
        ("relay_model", JStr (relay_model e));
        ("signal_type", JStr (alias_signal_type e));
        ("function", JStr (function e));
        ("auto_detected", JBool (auto_detected e));
        ("validated", JBool (validated e))].

Definition entries_to_json (d : Dict.t AliasEntry) : json :=
  JObj (map (fun kv => (fst kv, entry_to_json (snd kv))) (Dict.items d)).

(** [for key, data in raw.items(): self._entries[key] = AliasEntry( **data )].
    An entry whose fields cannot be typed does not stop the loop: a later
    item may still raise. *)
Fixpoint load_loop (its : list (string * json)) (entries : Dict.t AliasEntry)
  : outcome (Dict.t AliasEntry) :=
  match its with
  | [] => Returns entries
  | (key, data) :: r =>
      match AliasEntry_kwargs data with
      | Returns e => load_loop r (Dict.set entries key e)
      | Raises x => Raises x
      | Untyped =>
          match load_loop r entries with
          | Raises x => Raises x
          | _ => Untyped
          end
      end
  end.

(** [AliasDatabase._load] *)
Definition _load (fs : disk) (self : AliasDatabase) : outcome AliasDatabase :=
  match fs (_db_path self) with
  | Some content =>
      try_except
        (raw <- Json.load content ;;
         its <- Json.items raw ;;
         entries <- load_loop its (_entries self) ;;
         Returns (with_entries self entries))
        [JSONDecodeError; TypeError; KeyError]
        (Returns (with_entries self (Dict.empty AliasEntry)))
  | None => Returns self
  end.

(** [AliasDatabase(db_path)] *)
Definition AliasDatabase_new (fs : disk) (db_path : string)
  : outcome AliasDatabase :=
  _load fs {| _db_path := db_path; _entries := Dict.empty AliasEntry |}.

(** *** Writing files
    The disk maps the paths of regular files to their content, and a
    path that is not mapped does not exist.  Directories are not
    recorded: a directory that has a name exists or is created by
    [os.makedirs].  What fails whatever the disk holds is modelled: the
    empty path names nothing, and a path that ends in a slash, in [.] or
    in [..] names a directory.  Paths are POSIX paths. *)

Definition is_slash (c : ascii) : bool := Ascii.eqb c "/".

(** [head.rstrip('/')] *)
Fixpoint rstrip_slash (s : string) : string :=
  match s with
  | EmptyString => EmptyString
  | String c r =>
      match rstrip_slash r with
      | EmptyString => if is_slash c then EmptyString else String c EmptyString
      | r' => String c r'
      end
  end.

(** [os.path.dirname] *)
Definition dirname (p : string) : string :=
  let i := (Comtrade.rfind is_slash p + 1)%Z in
  let head := take (Z.to_nat i) p in
  if truthy head && truthy (sfilter (fun c => negb (is_slash c)) head)
  then rstrip_slash head
  else head.

(** [os.path.basename] *)
Definition basename (p : string) : string :=
  drop (Z.to_nat (Comtrade.rfind is_slash p + 1)) p.

(** [os.makedirs(name, exist_ok=True)] *)
Definition makedirs (name : string) : outcome Datatypes.unit :=
  if truthy name then Returns tt else Raises FileNotFoundError.

(** The last component of the path is empty, [.] or [..]. *)
Definition names_directory (p : string) : bool :=
  mem (basename p) [""; "."; ".."].

(** [with open(path, 'w', encoding='utf-8') as f: json.dump(raw, f, ...)] *)
Definition dump (fs : disk) (path : string) (raw : json) : disk * outcome Datatypes.unit :=
  if negb (truthy path) then (fs, Raises FileNotFoundError)
  else if names_directory path then (fs, Raises IsADirectoryError)
  else (write fs path (Document raw), Returns tt).

(** The path names a file: it is not empty and its last component is a
    name. *)
Definition names_file (p : string) : bool :=
  truthy p && negb (names_directory p).

(** The backing file of the store can be written: its path has a
    directory part and names a file. *)
Definition can_save (self : AliasDatabase) : bool :=
  truthy (dirname (_db_path self)) && negb (names_directory (_db_path self)).

(** A method of the store runs on the disk and on the store, and leaves
    both as they are when it raises: [(disk, store, outcome)]. *)

(** [AliasDatabase.save] *)
Definition save (fs : disk) (self : AliasDatabase) : disk * outcome Datatypes.unit :=
  match makedirs (dirname (_db_path self)) with
  | Returns _ => dump fs (_db_path self) (entries_to_json (_entries self))
  | Raises e => (fs, Raises e)
  | Untyped => (fs, Untyped)
  end.

(** [AliasDatabase.add]: the disk, the store and [is_new].  The entry is
    in the store before [save] is called. *)
Definition add (fs : disk) (self : AliasDatabase) (entry : AliasEntry)
  : disk * AliasDatabase * outcome bool :=
  let k := key entry in
  let is_new := negb (Dict.has (_entries self) k) in
  let self' := with_entries self (Dict.set (_entries self) k entry) in
  let saved := save fs self' in
  (fst saved, self', _ <- snd saved ;; Returns is_new).

(** [AliasDatabase.remove] *)
Definition remove (fs : disk) (self : AliasDatabase)
  (relay_model relay_name : string) : disk * AliasDatabase * outcome bool :=
  let k := relay_model ++ "::" ++ relay_name in
  if Dict.has (_entries self) k then
    let self' := with_entries self (Dict.del (_entries self) k) in
    let saved := save fs self' in
    (fst saved, self', _ <- snd saved ;; Returns true)
  else (fs, self, Returns false).

(** [AliasDatabase.get] *)
Definition get (self : AliasDatabase) (relay_model relay_name : string)
  : option AliasEntry :=
  Dict.get (_entries self) (relay_model ++ "::" ++ relay_name).

(** [AliasDatabase.find_by_relay_name] *)
Definition find_by_relay_name (self : AliasDatabase) (relay_name : string)
  : list AliasEntry :=
  filter (fun entry => String.eqb (lower (Models.relay_name entry)) (lower relay_name))
    (Dict.values (_entries self)).

(** [AliasDatabase.find_by_standard_name] *)
Definition find_by_standard_name (self : AliasDatabase) (standard_name : string)
  : list AliasEntry :=
  filter (fun entry => String.eqb (lower (Models.standard_name entry))
                         (lower standard_name))
    (Dict.values (_entries self)).

(** [AliasDatabase.find_standard_for] *)
Definition find_standard_for (self : AliasDatabase)
  (relay_model relay_name : string) : option string :=
  match get self relay_model relay_name with
  | Some entry => Some (standard_name entry)
  | None =>
      match find_by_relay_name self relay_name with
      | m :: _ => Some (standard_name m)
      | [] => None
      end
  end.

(** [AliasDatabase.get_all] *)
Definition get_all (self : AliasDatabase) : list AliasEntry :=
  Dict.values (_entries self).

(** [AliasDatabase.count] *)
Definition count (self : AliasDatabase) : nat := length (_entries self).

(** [AliasDatabase.export_to_json] *)
Definition export_to_json (fs : disk) (self : AliasDatabase) (file_path : string)
  : disk * outcome Datatypes.unit :=
  dump fs file_path (entries_to_json (_entries self)).

(** The loop of [import_from_json], on the disk, the store and [count].
    An entry whose fields cannot be typed does not stop the loop: a later
    item may still raise. *)
Fixpoint import_loop (its : list (string * json)) (fs : disk)
  (self : AliasDatabase) (count : Z) : disk * AliasDatabase * outcome Z :=
  match its with
  | [] => (fs, self, Returns count)
  | (key, data) :: r =>
      match AliasEntry_kwargs data with
      | Returns entry =>
          let added := add fs self entry in
          match snd added with
          | Returns is_new =>
              import_loop r (fst (fst added)) (snd (fst added))
                (if is_new then (count + 1)%Z else count)
          | Raises x => (fst added, Raises x)
          | Untyped => (fst added, Untyped)
          end
      | Raises x => (fs, self, Raises x)
      | Untyped =>
          let rest := import_loop r fs self count in
          (fst rest, match snd rest with
                     | Raises x => Raises x
                     | _ => Untyped
                     end)
      end
  end.

(** [AliasDatabase.import_from_json] *)
Definition import_from_json (fs : disk) (self : AliasDatabase)
  (file_path : string) : disk * AliasDatabase * outcome Z :=
  match fs file_path with
  | None => (fs, self, Raises FileNotFoundError)
  | Some content =>
      match (raw <- Json.load content ;; Json.items raw) with
      | Returns its => import_loop its fs self 0%Z
      | Raises x => (fs, self, Raises x)
      | Untyped => (fs, self, Untyped)
      end
  end.

(** [AliasDatabase.clear] *)
Definition clear (fs : disk) (self : AliasDatabase)
  : disk * AliasDatabase * outcome Datatypes.unit :=
  let self' := with_entries self (Dict.empty AliasEntry) in
  let saved := save fs self' in
  (fst saved, self', snd saved).

(** [AliasDatabase.search] *)
Definition search (self : AliasDatabase) (query : string) : list AliasEntry :=
  let query_lower := lower query in
  filter (fun entry =>
            contains (lower (Models.relay_name entry)) query_lower
            || contains (lower (Models.standard_name entry)) query_lower
            || contains (lower (Models.relay_model entry)) query_lower
            || contains (lower (function entry)) query_lower)
    (Dict.values (_entries self)).

(** [AliasDatabase.get_by_model] *)
Definition get_by_model (self : AliasDatabase) (relay_model : string)
  : list AliasEntry :=
  filter (fun e => String.eqb (lower (Models.relay_model e)) (lower relay_model))
    (Dict.values (_entries self)).

(** [AliasDatabase.get_by_function] *)
Definition get_by_function (self : AliasDatabase) (func : string)
  : list AliasEntry :=
  filter (fun e => String.eqb (lower (function e)) (lower func))
    (Dict.values (_entries self)).

(** The invariant of a store built through [add]: every entry sits under
    its own key (and, the store being a [dict], no key occurs twice). *)
Definition store_ok (self : AliasDatabase) : Prop :=
  NoDup (Dict.keys (_entries self)) /\
  Forall (fun kv => fst kv = key (snd kv)) (_entries self).

End AliasDb.

(** ** [core/xrio_parser.py] *)

Module Xrio.
Import Py Models.

(** [FUNCTION_KEYWORDS], in the order of the dictionary. *)
Definition FUNCTION_KEYWORDS : list (ProtectionFunction * list string) :=
  [(DISTANCE, ["Z"; "DIST"; "21"; "ZONE"; "MHO"; "QUAD"; "REACH"; "IMPEDANCE"]);
   (OVERCURRENT, ["OC"; "50"; "51"; "OVERCURRENT"; "I>"; "I>>"; "IINST"; "TOC";
                  "DTOC"; "IDMT"]);
   (DIFFERENTIAL, ["DIFF"; "87"; "RESTRAIN"; "OPERATE"; "BIAS"]);
   (OVERVOLTAGE, ["OV"; "59"; "V>"; "V>>"; "OVERVOLT"]);
   (UNDERVOLTAGE, ["UV"; "27"; "V<"; "V<<"; "UNDERVOLT"]);
   (FREQUENCY, ["FREQ"; "81"; "F<"; "F>"; "ROCOF"; "DF/DT"]);
   (DIRECTIONAL, ["DIR"; "67"; "DIRECTIONAL"; "ANGLE"; "TORQUE"]);
   (BREAKER_FAILURE, ["BF"; "50BF"; "BREAKER"; "CBF"; "CB FAIL"]);
   (RECLOSING, ["RECL"; "79"; "AUTORECL"; "AR"; "RECLOSE"]);
   (SYNCHROCHECK, ["SYNC"; "25"; "SYNCHRO"; "CHECK SYNC"]);
   (METERING, ["METER"; "MEAS"; "MEASURE"; "MW"; "MVAR"; "PF"; "KWH"]);
   (COMMUNICATION, ["COMM"; "GOOSE"; "SV"; "IEC61850"; "DNP"; "MODBUS";
                    "TRIP SEND"])].

Fixpoint first_function (table : list (ProtectionFunction * list string))
  (upper_name : string) : option ProtectionFunction :=
  match table with
  | [] => None
  | (func, keywords) :: r =>
      if contains_any upper_name keywords then Some func
      else first_function r upper_name
  end.

Definition classify_signal_function (name : string) : ProtectionFunction :=
  let upper_name := replace_char "-" " " (replace_char "_" " " (upper name)) in
  match first_function FUNCTION_KEYWORDS upper_name with
  | Some func => func
  | None =>
      if contains_any upper_name ["IA"; "IB"; "IC"; "IN"; "I0"; "I1"; "I2"]
      then OVERCURRENT
      else if contains_any upper_name
                ["VA"; "VB"; "VC"; "VN"; "V0"; "V1"; "V2"; "UA"; "UB"; "UC"]
      then OVERVOLTAGE
      else UNKNOWN
  end.

(** An lxml element: [tag] is [None] for a comment or a processing
    instruction, whose tag is not a string. *)
Inductive element : Type :=
| Element (tag : option string) (attrib : list (string * string))
    (text : option string) (children : list element).

Definition tag_of (e : element) : option string :=
  match e with Element t _ _ _ => t end.
Definition attrib_of (e : element) : list (string * string) :=
  match e with Element _ a _ _ => a end.
Definition text_of (e : element) : option string :=
  match e with Element _ _ t _ => t end.
Definition children_of (e : element) : list element :=
  match e with Element _ _ _ c => c end.

(** [XRIOParser._clean_tag] *)
Definition _clean_tag (tag : option string) : string :=
  match tag with
  | None => ""
  | Some t => if contains t "}" then nth 1 (split "}" t) "" else t
  end.

(** [element.find(child_tag)] for a plain tag name: the first child with
    that very tag. *)
Definition find_child (e : element) (child_tag : string) : option element :=
  find (fun ch => match tag_of ch with
                  | Some t => String.eqb t child_tag
                  | None => false
                  end) (children_of e).

(** [text.strip()] when [text] is set and not empty. *)
Definition stripped_text (e : element) (default : string) : string :=
  match text_of e with
  | Some t => if truthy t then strip t else default
  | None => default
  end.

(** [XRIOParser._get_text] on an element that is not [None]. *)
Definition _get_text (e : element) (child_tag : string) (default : string)
  : string :=
  let child :=
    match find_child e child_tag with
    | Some ch => Some ch
    | None => find (fun ch => String.eqb (_clean_tag (tag_of ch)) child_tag)
                (children_of e)
    end in
  match child with
  | Some ch => stripped_text ch default
  | None => default
  end.

(** [self._root.iter()], each element with its [getparent()]. *)
Fixpoint iter_from (parent : option element) (e : element)
  : list (option element * element) :=
  match e with
  | Element _ _ _ cs => (parent, e) :: flat_map (iter_from (Some e)) cs
  end.

Fixpoint take_digits (s : string) : string :=
  match s with
  | String c r => if is_digit c then String c (take_digits r) else EmptyString
  | EmptyString => EmptyString
  end.

(** A match of [B\d*RBDR] (ignoring case) at the start of [s]. *)
Definition match_rbdr (s : string) : option string :=
  match s with
  | String c r =>
      if Ascii.eqb (upper_char c) "B" then
        let ds := take_digits r in
        let tail := take 4 (drop (String.length ds) r) in
        if String.eqb (upper tail) "RBDR" then Some (String c (ds ++ tail))
        else None
      else None
  | EmptyString => None
  end.

(** [re.search(r'(B\d*RBDR)', s, re.IGNORECASE)]: group 1 of the leftmost
    match. *)
Fixpoint search_rbdr (s : string) : option string :=
  match match_rbdr s with
  | Some m => Some m
  | None =>
      match s with
      | String _ r => search_rbdr r
      | EmptyString => None
      end
  end.

(** Step 1 for one element of the iteration. *)
Definition target_of (pe : option element * element) : list (element * string) :=
  let (parent, elem) := pe in
  if String.eqb (_clean_tag (tag_of elem)) "Block" &&
     match Dict.get (attrib_of elem) "Id" with
     | Some v => String.eqb v "ID_GENERAL"
     | None => false
     end
  then
    match parent with
    | Some parent =>
        let p_id := match Dict.get (attrib_of parent) "Id" with
                    | Some v => v
                    | None => ""
                    end in
        let p_name := _get_text parent "Name" "" in
        let found := if truthy p_id then search_rbdr p_id else None in
        let found := match found with
                     | Some b => Some b
                     | None => if truthy p_name then search_rbdr p_name else None
                     end in
        match found with
        | Some block_name => [(elem, block_name)]
        | None => []
        end
    | None => []
    end
  else [].

Definition target_blocks (root : element) : list (element * string) :=
  flat_map target_of (iter_from None root).

(** A value of [params_map]: [{'val': ..., 'desc': ...}]. *)
Record param : Type := { val : string; desc : string }.

Definition no_param : param := {| val := ""; desc := "" |}.

(** The enumeration lookup of step 2. *)
Definition resolve_enum (p : element) (p_val_raw : string) : string :=
  match find (fun ch => String.eqb (_clean_tag (tag_of ch)) "EnumList")
          (children_of p) with
  | Some enum_list =>
      match find (fun ev =>
                    String.eqb (_clean_tag (tag_of ev)) "EnumValue" &&
                    match Dict.get (attrib_of ev) "EnumId" with
                    | Some v => String.eqb v p_val_raw
                    | None => false
                    end) (children_of enum_list) with
      | Some ev =>
          match text_of ev with
          | Some t => if truthy t then t else p_val_raw
          | None => p_val_raw
          end
      | None => p_val_raw
      end
  | None => p_val_raw
  end.

(** Step 2, one child of the target block. *)
Definition add_param (params_map : Dict.t param) (p : element) : Dict.t param :=
  if negb (String.eqb (_clean_tag (tag_of p)) "Parameter") then params_map
  else
    let p_name_tag := _get_text p "Name" "" in
    if negb (truthy p_name_tag) then params_map
    else
      let p_desc := _get_text p "Description" "" in
      let p_val_raw := _get_text p "Value" "" in
      Dict.set params_map p_name_tag
        {| val := resolve_enum p p_val_raw; desc := p_desc |}.

Definition params_of (target_block : element) : Dict.t param :=
  fold_left add_param (children_of target_block) (Dict.empty param).

(** [params_map.get(f"{field}{pad}", no_param)], then the plain suffix when
    the value found is empty. *)
Definition correlated (params_map : Dict.t param) (field : string) (i : nat)
  : param :=
  let first := match Dict.get params_map (field ++ str_nat_02d i) with
               | Some p => p
               | None => no_param
               end in
  if negb (truthy (val first)) then
    match Dict.get params_map (field ++ str_nat i) with
    | Some p => p
    | None => first
    end
  else first.

(** Step 3, one turn of [for i in range(1, 97)]: the signal appended, if
    any. *)
Definition channel_signal (params_map : Dict.t param) (block_name : string)
  (i : nat) : list DisturbanceReportSignal :=
  let name_key := "NAME" ++ str_nat i in
  let name_key := if negb (Dict.has params_map name_key)
                  then "NAME" ++ str_nat_02d i else name_key in
  match Dict.get params_map name_key with
  | None => []
  | Some name_data =>
      [{| channel := i;
          dr_name := val name_data;
          dr_description := desc name_data;
          trig_operation := val (correlated params_map "TrigDR" i);
          trig_level := val (correlated params_map "TrigLevel" i);
          indication_mask := val (correlated params_map "IndicationMa" i);
          set_led := val (correlated params_map "SetLED" i);
          block := block_name |}]
  end.

Definition block_signals (params_map : Dict.t param) (block_name : string)
  : list DisturbanceReportSignal :=
  flat_map (channel_signal params_map block_name) (seq 1 96).

(** [XRIOParser._extract_disturbance_report_signals], on [self._root]. *)
Definition _extract_disturbance_report_signals (root : option element)
  : list DisturbanceReportSignal :=
  match root with
  | None => []
  | Some r =>
      flat_map (fun tb => block_signals (params_of (fst tb)) (snd tb))
        (target_blocks r)
  end.

(** *** Names that are no signals *)

Definition BAD_SUBSTRINGS : list string :=
  ["MANUFACTURER"; "STATION"; "DEVICE"; "PROTECTED OBJECT";
   "RESIDUAL FACTOR"; "SAMPLE RATE"; "SAMPLERATE"; "FREQUENCY";
   "DATE"; "TIME"; "VERSION"; "REVISION"; "RECORDER"; "TRIGGER";
   "HEADER"; "SETTING"; "LENGTH"; "DURATION"; "PREFAULT"; "POSTFAULT";
   "HARDWARE"; "LINE FREQ"; "IED NAME"; "SHORT NAME"; "LONG NAME"].

Definition BAD_EXACT : list string :=
  ["ID"; "NAME"; "UNIT"; "PHASE"; "TYPE"; "SERIAL"; "MODEL";
   "LOCATION"; "USER"; "DESCRIPTION"; "COMMENT"].

(** [XRIOParser._is_metadata] *)
Definition _is_metadata (name : string) : bool :=
  if negb (truthy name) then true
  else
    let upper_name := strip (replace_char "_" " " (upper name)) in
    if mem upper_name BAD_EXACT then true
    else contains_any upper_name BAD_SUBSTRINGS.

(** *** Binary signals *)

Record BinarySignal : Type := {
  bs_index : Z;
  bs_name : string;
  bs_state : Z;
  xrio_block : string;
  bs_function : ProtectionFunction;
  bs_standard_name : string;
  bs_description : string
}.

(** [el.iter()]: the element and its descendants, in document order. *)
Definition iter (e : element) : list element := map snd (iter_from None e).

(** [el.get(key, '')]; an element without attributes, as a comment or a
    processing instruction is, gives a false value as well. *)
Definition get_attr (e : element) (key : string) : string :=
  match Dict.get (attrib_of e) key with
  | Some v => v
  | None => ""
  end.

(** [a or b] on strings. *)
Definition or_str (a b : string) : string := if truthy a then a else b.

(** [$] without [re.MULTILINE]: the end of the subject, or the place
    before its final newline. *)
Definition at_end (s : string) : bool :=
  String.eqb s "" || String.eqb s (String "010" "").

(** [re.match(r'^B\d*RBDR$', s, re.IGNORECASE)] succeeds. *)
Definition match_b_rbdr (s : string) : bool :=
  match s with
  | String c r =>
      Ascii.eqb (upper_char c) "B" &&
      (let rest := drop (String.length (take_digits r)) r in
       String.eqb (upper (take 4 rest)) "RBDR" && at_end (drop 4 rest))
  | EmptyString => false
  end.

Definition is_a_or_b (c : ascii) : bool :=
  Ascii.eqb (upper_char c) "A" || Ascii.eqb (upper_char c) "B".

(** [re.match(r'^[AB]\d*R[AB]DR$', s, re.IGNORECASE)] succeeds. *)
Definition match_block_tag (s : string) : bool :=
  match s with
  | String c r =>
      is_a_or_b c &&
      match drop (String.length (take_digits r)) r with
      | String r1 (String ab (String d (String r2 rest))) =>
          Ascii.eqb (upper_char r1) "R" && is_a_or_b ab &&
          Ascii.eqb (upper_char d) "D" && Ascii.eqb (upper_char r2) "R" &&
          at_end rest
      | _ => false
      end
  | EmptyString => false
  end.

(** [XRIOParser._parse_binary_element] *)
Definition _parse_binary_element (el : element) (idx : Z) (block : string)
  : BinarySignal :=
  let name :=
    or_str (get_attr el "ShortName")
      (or_str (get_attr el "shortName")
         (or_str (get_attr el "name")
            (or_str (get_attr el "Name")
               (or_str (get_attr el "id")
                  (or_str (_get_text el "ShortName" "")
                     (or_str (_get_text el "Name" "")
                        (or_str (_get_text el "name" "")
                           (_clean_tag (tag_of el))))))))) in
  let description :=
    or_str (get_attr el "UserText")
      (or_str (get_attr el "Description")
         (or_str (get_attr el "LongName")
            (or_str (_get_text el "UserText" "")
               (or_str (_get_text el "Description" "")
                  (or_str (_get_text el "LongName" "") ""))))) in
  let state_str :=
    or_str (get_attr el "state")
      (or_str (get_attr el "normalState") (get_attr el "NormalState")) in
  let state :=
    if truthy state_str then
      match int_literal state_str with
      | Some z => z
      | None => 0%Z
      end
    else 0%Z in
  {| bs_index := idx; bs_name := name; bs_state := state;
     xrio_block := block; bs_function := classify_signal_function name;
     bs_standard_name := ""; bs_description := description |}.

(** [XRIOParser._parse_binary_from_generic] *)
Definition _parse_binary_from_generic (el : element) (idx : Z)
  (block : string) : BinarySignal :=
  let name :=
    or_str (get_attr el "name")
      (or_str (get_attr el "Name")
         (or_str (get_attr el "id") (stripped_text el ""))) in
  let name := if negb (truthy name) then _clean_tag (tag_of el) else name in
  {| bs_index := idx; bs_name := name; bs_state := 0%Z;
     xrio_block := block; bs_function := classify_signal_function name;
     bs_standard_name := ""; bs_description := "" |}.

(** The state of the extraction loop: [signals] and [idx]. *)
Definition extraction : Type := (list BinarySignal * Z)%type.

(** [if sig and sig.name and not self._is_metadata(sig.name):
       signals.append(sig); idx += 1] *)
Definition append_signal (parse : element -> Z -> string -> BinarySignal)
  (block_name : string) (st : extraction) (child : element) : extraction :=
  let sig := parse child (snd st) block_name in
  if truthy (bs_name sig) && negb (_is_metadata (bs_name sig))
  then ((fst st ++ [sig])%list, (snd st + 1)%Z)
  else st.

(** One turn of the first strategy; the flag is [found]. *)
Definition specific_tag (block_name : string) (st : extraction * bool)
  (child : element) : extraction * bool :=
  let ctag := lower (_clean_tag (tag_of child)) in
  if mem ctag ["channel"; "signal"; "binarychannel"; "binarysignal";
               "status"; "digital"]
  then (append_signal _parse_binary_element block_name (fst st) child, true)
  else st.

(** One turn of the second strategy. *)
Definition broad_tag (block_name : string) (st : extraction)
  (child : element) : extraction :=
  let ctag := _clean_tag (tag_of child) in
  if contains_any (lower ctag) ["input"; "output"; "binary"; "digital"]
  then append_signal _parse_binary_element block_name st child
  else st.

(** One turn of the fallback over the direct children. *)
Definition direct_child (block_name : string) (st : extraction)
  (child : element) : extraction :=
  let ctag := lower (_clean_tag (tag_of child)) in
  if contains_any ctag ["setting"; "param"; "header"] then st
  else append_signal _parse_binary_from_generic block_name st child.

(** One turn of the loop over all elements. *)
Definition binary_block (st : extraction) (el : element) : extraction :=
  let tag := _clean_tag (tag_of el) in
  if match_b_rbdr tag then
    let block_name := tag in
    let (st, found) :=
      fold_left (specific_tag block_name) (iter el) (st, false) in
    if found then st
    else
      let st := fold_left (broad_tag block_name) (iter el) st in
      if negb (existsb (fun s => String.eqb (xrio_block s) block_name) (fst st))
      then fold_left (direct_child block_name) (children_of el) st
      else st
  else st.

(** [XRIOParser._extract_binary_signals], on [self._root]. *)
Definition _extract_binary_signals (root : option element)
  : list BinarySignal :=
  match root with
  | None => []
  | Some r => fst (fold_left binary_block (iter r) ([], 1%Z))
  end.

(** One turn of [get_block_names]. *)
Definition add_block_name (names : list string) (el : element) : list string :=
  let tag := _clean_tag (tag_of el) in
  if match_block_tag tag then
    if negb (mem tag names) then (names ++ [tag])%list else names
  else names.

(** [XRIOParser.get_block_names], on [self._root]. *)
Definition get_block_names (root : option element) : list string :=
  match root with
  | None => []
  | Some r => fold_left add_block_name (iter r) []
  end.

(** *** Notions used to state the properties of the parser *)

(** The character map behind the subject of [classify_signal_function]. *)
Definition classify_char (c : ascii) : ascii :=
  let u := upper_char c in
  let u := if Ascii.eqb u "_" then " "%char else u in
  if Ascii.eqb u "-" then " "%char else u.

(** The character map behind the subject of [_is_metadata], before
    [strip]. *)
Definition metadata_char (c : ascii) : ascii :=
  let u := upper_char c in if Ascii.eqb u "_" then " "%char else u.

(** What the loop keeps of a signal. *)
Definition kept (sig : BinarySignal) : Prop :=
  bs_name sig <> "" /\ _is_metadata (bs_name sig) = false /\
  bs_function sig = classify_signal_function (bs_name sig).

(** The invariant of the extraction loop, for block names in [P]. *)
Definition numbered (P : string -> Prop) (st : extraction) : Prop :=
  map bs_index (fst st) = map Z.of_nat (seq 1 (length (fst st))) /\
  snd st = Z.of_nat (S (length (fst st))) /\
  Forall (fun sig => kept sig /\ P (xrio_block sig)) (fst st).

(** A parser that numbers and labels its signal as it is told. *)
Definition obedient (parse : element -> Z -> string -> BinarySignal) : Prop :=
  forall el idx blk,
    bs_index (parse el idx blk) = idx /\
    xrio_block (parse el idx blk) = blk /\
    bs_function (parse el idx blk)
    = classify_signal_function (bs_name (parse el idx blk)).

End Xrio.

(** ** [core/validator.py] *)

Module Validator.
Import Py Models AliasDb.

(** The characters removed by [re.sub(r'[_\-\s\.]+', '', n)]. *)
Definition is_separator (c : ascii) : bool :=
  Ascii.eqb c "_" || Ascii.eqb c "-" || is_space c || Ascii.eqb c ".".

Definition prefixes : list string :=
  ["REL_"; "DIG_"; "ANA_"; "BIN_"; "CH_"; "SIG_"].

(** One turn of [for prefix in prefixes]. *)
Definition strip_prefix (n prefix : string) : string :=
  if startswith n (remove_char "_" prefix)
  then drop (String.length prefix - 1) n
  else n.

(** [SignalValidator._normalize_name] *)
Definition _normalize_name (name : string) : string :=
  let n := strip (upper name) in
  let n := sfilter (fun c => negb (is_separator c)) n in
  fold_left strip_prefix prefixes n.

(** The name in upper case and without separators: [n] of
    [_normalize_name] before the prefixes are cut. *)
Definition squeeze (name : string) : string :=
  sfilter (fun c => negb (is_separator c)) (strip (upper name)).

(** [n] starts with the letters of none of the prefixes. *)
Definition starts_clean (n : string) : bool :=
  forallb (fun prefix => negb (startswith n (remove_char "_" prefix))) prefixes.

(** [SignalValidator._extract_phase] *)
Definition _extract_phase (name : string) : string :=
  let n := upper name in
  if endswith n "A" || contains n "PHA" || contains n "_A" then "A"
  else if endswith n "B" || contains n "PHB" || contains n "_B" then "B"
  else if endswith n "C" || contains n "PHC" || contains n "_C" then "C"
  else if contains (last_chars 2 n) "N" || contains n "NEUT" then "N"
  else "".

(** [SignalValidator._extract_signal_type_indicator] *)
Definition _extract_signal_type_indicator (name : string) : string :=
  let n := upper name in
  if contains_any n ["VOLT"; "V_"; "_V"; "VA"; "VB"; "VC";
                     "UA"; "UB"; "UC"; "TENSION"] then "V"
  else if contains_any n ["CURR"; "I_"; "_I"; "IA"; "IB"; "IC";
                          "AMP"; "CORR"] then "I"
  else "".

(** [SignalValidator._fuzzy_match] *)
Definition _fuzzy_match (name1 name2 : string) : bool :=
  let n1 := _normalize_name name1 in
  let n2 := _normalize_name name2 in
  if String.eqb n1 n2 then true
  else if contains n2 n1 || contains n1 n2 then true
  else
    let phase1 := _extract_phase n1 in
    let phase2 := _extract_phase n2 in
    let type1 := _extract_signal_type_indicator n1 in
    let type2 := _extract_signal_type_indicator n2 in
    if truthy phase1 && truthy phase2 && truthy type1 && truthy type2
    then String.eqb phase1 phase2 && String.eqb type1 type2
    else false.

(** The loop of [_heuristic_match] over the candidate names. *)
Fixpoint heuristic_loop (candidates : list string) (n phase sig_ind : string)
  (signal_type : string) : option string :=
  match candidates with
  | [] => None
  | std_name :: r =>
      let std_norm := _normalize_name std_name in
      if contains n std_norm || contains std_norm n then Some std_name
      else if String.eqb signal_type "analog" && truthy phase && truthy sig_ind
              && (contains (upper std_name) sig_ind
                  && contains (upper std_name) phase)
      then Some std_name
      else heuristic_loop r n phase sig_ind signal_type
  end.

(** [SignalValidator._heuristic_match] *)
Definition _heuristic_match (xrio_name signal_type : string) : option string :=
  let n := _normalize_name xrio_name in
  let phase := _extract_phase n in
  let sig_ind := _extract_signal_type_indicator n in
  let candidates := if String.eqb signal_type "analog"
                    then Comtrade.STANDARD_ANALOG_SIGNALS
                    else Comtrade.STANDARD_DIGITAL_SIGNALS in
  heuristic_loop candidates n phase sig_ind signal_type.

(** [SignalValidator]: [self._alias_db] is threaded through the calls,
    [self._standard_names] is the catalog. *)
Definition _standard_names : list string :=
  Comtrade.get_all_standard_signal_names.

(** [SignalValidator._auto_add_alias] *)
Definition _auto_add_alias (fs : disk) (db : AliasDatabase)
  (relay_name standard_name relay_model signal_type : string) (auto : bool)
  : disk * AliasDatabase * outcome Datatypes.unit :=
  let func := Xrio.classify_signal_function relay_name in
  let entry := {| Models.relay_name := relay_name;
                  Models.standard_name := standard_name;
                  Models.relay_model := relay_model;
                  alias_signal_type := signal_type;
                  function := value func;
                  auto_detected := auto;
                  validated := negb auto |} in
  let added := add fs db entry in
  (fst added, _ <- snd added ;; Returns tt).

(** The test of tier 1: [xrio_name.upper() in [n.upper() for n in ...]]. *)
Definition exact_match (xrio_name : string) : bool :=
  mem (upper xrio_name) (map upper _standard_names).

(** The test of tier 2: [alias_name], when it is set and not empty. *)
Definition alias_hit (db : AliasDatabase) (relay_model xrio_name : string)
  : option string :=
  match find_standard_for db relay_model xrio_name with
  | Some a => if truthy a then Some a else None
  | None => None
  end.

(** The test of tier 3: the first channel of the kind that matches. *)
Definition config_hit (comtrade_config : option ComtradeConfig)
  (xrio_name signal_type : string) : option ComtradeChannel :=
  match comtrade_config with
  | Some c =>
      let channels := if String.eqb signal_type "analog"
                      then analog_channels c else digital_channels c in
      find (fun ch => _fuzzy_match xrio_name (name ch)) channels
  | None => None
  end.

(** [SignalValidator._validate_signal]: the disk and the alias store after
    the call, and the result or the exception of the call. *)
Definition _validate_signal (fs : disk) (db : AliasDatabase)
  (xrio_name relay_model signal_type : string)
  (comtrade_config : option ComtradeConfig)
  : disk * AliasDatabase * outcome ValidationResult :=
  (* 1 *)
  if exact_match xrio_name then
    let added :=
      _auto_add_alias fs db xrio_name xrio_name relay_model signal_type true in
    (fst added,
     _ <- snd added ;;
     Returns {| xrio_name := xrio_name; result_standard_name := xrio_name;
                match_type := "exact"; confidence := 1.0%float;
                message := "Coincidencia exacta con estándar";
                alias_entry := None |})
  else
  (* 2 *)
  match alias_hit db relay_model xrio_name with
  | Some alias_name =>
      (fs, db,
       Returns
         {| xrio_name := xrio_name; result_standard_name := alias_name;
            match_type := "alias"; confidence := 0.95%float;
            message := "Mapeado por alias: " ++ xrio_name ++ " → " ++ alias_name;
            alias_entry := None |})
  | None =>
  (* 3 *)
  match config_hit comtrade_config xrio_name signal_type with
  | Some ch =>
      let added :=
        _auto_add_alias fs db xrio_name (name ch) relay_model signal_type true in
      (fst added,
       _ <- snd added ;;
       Returns {| xrio_name := xrio_name; result_standard_name := name ch;
                  match_type := "fuzzy"; confidence := 0.7%float;
                  message := "Coincidencia aproximada con COMTRADE: " ++ name ch;
                  alias_entry := None |})
  | None =>
  (* 4 *)
  match _heuristic_match xrio_name signal_type with
  | Some best_match =>
      (fs, db,
       Returns
         {| xrio_name := xrio_name; result_standard_name := best_match;
            match_type := "fuzzy"; confidence := 0.5%float;
            message := "Posible coincidencia heurística: " ++ best_match;
            alias_entry := None |})
  | None =>
  (* 5 *)
      (fs, db,
       Returns
         {| xrio_name := xrio_name; result_standard_name := "";
            match_type := "new"; confidence := 0.0%float;
            message := "Sin coincidencia. Requiere mapeo manual.";
            alias_entry := None |})
  end end end.

(** The part of [XRIOData] that [validate] reads: the relay model and the
    names of the analog and of the binary signals. *)
Record XRIOData : Type := {
  relay_model_of : string;
  analog_signals : list string;
  binary_signals : list string
}.

(** One of the two loops of [validate]: it stops at the first signal
    whose validation raises, with the store as that call left it. *)
Fixpoint validate_loop (fs : disk) (db : AliasDatabase) (names : list string)
  (relay_model signal_type : string) (cfg : option ComtradeConfig)
  (results : list ValidationResult)
  : disk * AliasDatabase * outcome (list ValidationResult) :=
  match names with
  | [] => (fs, db, Returns results)
  | nm :: r =>
      let out := _validate_signal fs db nm relay_model signal_type cfg in
      match snd out with
      | Returns res =>
          validate_loop (fst (fst out)) (snd (fst out)) r relay_model
            signal_type cfg (results ++ [res])%list
      | Raises e => (fst out, Raises e)
      | Untyped => (fst out, Untyped)
      end
  end.

(** [SignalValidator.validate] *)
Definition validate (fs : disk) (db : AliasDatabase) (xrio_data : XRIOData)
  (comtrade_config : option ComtradeConfig)
  : disk * AliasDatabase * outcome (list ValidationResult) :=
  let relay_model := if truthy (relay_model_of xrio_data)
                     then relay_model_of xrio_data else "UNKNOWN" in
  let analog :=
    validate_loop fs db (analog_signals xrio_data) relay_model "analog"
      comtrade_config [] in
  match snd analog with
  | Returns rs1 =>
      validate_loop (fst (fst analog)) (snd (fst analog))
        (binary_signals xrio_data) relay_model "binary" comtrade_config rs1
  | Raises e => (fst analog, Raises e)
  | Untyped => (fst analog, Untyped)
  end.

(** The [summary] dictionary of [auto_validate_and_update]: the integer
    entries [exact], [alias], [fuzzy], [new], [total] and the list
    [results]. *)
Record Summary : Type := {
  n_exact : Z;
  n_alias : Z;
  n_fuzzy : Z;
  n_new : Z;
  n_total : Z;
  results : list ValidationResult
}.

(** One turn of [for r in results]: [summary['total'] += 1], then
    [summary[r.match_type] += 1] when the match type is a key of the
    dictionary; on the key [results] the addition of 1 to a list raises
    [TypeError]. *)
Definition count_result (s : Summary) (r : ValidationResult) : outcome Summary :=
  let t := (n_total s + 1)%Z in
  let mt := match_type r in
  if String.eqb mt "exact" then
    Returns {| n_exact := (n_exact s + 1)%Z; n_alias := n_alias s;
               n_fuzzy := n_fuzzy s; n_new := n_new s; n_total := t;
               results := results s |}
  else if String.eqb mt "alias" then
    Returns {| n_exact := n_exact s; n_alias := (n_alias s + 1)%Z;
               n_fuzzy := n_fuzzy s; n_new := n_new s; n_total := t;
               results := results s |}
  else if String.eqb mt "fuzzy" then
    Returns {| n_exact := n_exact s; n_alias := n_alias s;
               n_fuzzy := (n_fuzzy s + 1)%Z; n_new := n_new s; n_total := t;
               results := results s |}
  else if String.eqb mt "new" then
    Returns {| n_exact := n_exact s; n_alias := n_alias s;
               n_fuzzy := n_fuzzy s; n_new := (n_new s + 1)%Z; n_total := t;
               results := results s |}
  else if String.eqb mt "total" then
    Returns {| n_exact := n_exact s; n_alias := n_alias s;
               n_fuzzy := n_fuzzy s; n_new := n_new s; n_total := (t + 1)%Z;
               results := results s |}
  else if String.eqb mt "results" then Raises TypeError
  else
    Returns {| n_exact := n_exact s; n_alias := n_alias s;
               n_fuzzy := n_fuzzy s; n_new := n_new s; n_total := t;
               results := results s |}.

(** The four counters add up to [total]. *)
Definition counted (s : Summary) : Prop :=
  (n_total s = n_exact s + n_alias s + n_fuzzy s + n_new s)%Z.

Fixpoint count_loop (rs : list ValidationResult) (s : Summary) : outcome Summary :=
  match rs with
  | [] => Returns s
  | r :: rest => s' <- count_result s r ;; count_loop rest s'
  end.

(** [SignalValidator.auto_validate_and_update] *)
Definition auto_validate_and_update (fs : disk) (db : AliasDatabase)
  (xrio_data : XRIOData) (comtrade_config : option ComtradeConfig)
  : disk * AliasDatabase * outcome Summary :=
  let validated := validate fs db xrio_data comtrade_config in
  (fst validated,
   rs <- snd validated ;;
   count_loop rs {| n_exact := 0%Z; n_alias := 0%Z; n_fuzzy := 0%Z;
                    n_new := 0%Z; n_total := 0%Z; results := rs |}).

(** The five forms of a result, for a loaded configuration [cfg]. *)
Definition result_shape (cfg : option ComtradeConfig) (r : ValidationResult)
  : Prop :=
  (match_type r = "exact" /\ confidence r = 1.0%float /\
   result_standard_name r = xrio_name r /\
   exact_match (xrio_name r) = true) \/
  (match_type r = "alias" /\ confidence r = 0.95%float /\
   result_standard_name r <> "") \/
  (match_type r = "fuzzy" /\ confidence r = 0.7%float /\
   exists c ch,
     cfg = Some c /\
     In ch (analog_channels c ++ digital_channels c)%list /\
     result_standard_name r = name ch /\
     _fuzzy_match (xrio_name r) (name ch) = true) \/
  (match_type r = "fuzzy" /\ confidence r = 0.5%float /\
   In (result_standard_name r) _standard_names) \/
  (match_type r = "new" /\ confidence r = 0.0%float /\
   result_standard_name r = "").

End Validator.

(** ** Concrete inputs used by the statements of Part II *)

Module Samples.
Import Models Json AliasDb.

Definition nl : string := String "010" EmptyString.

Definition text_of_lines (ls : list string) : string := String.concat nl ls.

(** A well-formed configuration: one analog and one digital channel. *)
Definition plain_cfg : string :=
  text_of_lines
    ["STATION,DEV,1999"; "2,1A,1D"; "1,IA,A,,A"; "1,TRIP,,,0"; "60"; "1";
     "1000,100"; "01/01/2020,00:00:00.000000"; "01/01/2020,00:00:00.100000";
     "ASCII"; "1"].

(** A configuration with garbage in the numeric fields. *)
Definition garbage_cfg : string :=
  text_of_lines ["S,D,xx"; "?,1A,0D"; "?,IA,A,,A,zz,zz,,,,,,"; "fifty"].

(** A configuration whose second line declares a negative analog count. *)
Definition negative_count_cfg : string :=
  text_of_lines ["S,D,1999"; "1,-5A,1D"].

Definition files : Comtrade.filesystem :=
  fun p =>
    if String.eqb p "plain.cfg" then Some plain_cfg
    else if String.eqb p "plain.dat" then Some (text_of_lines ["1,0,1.0"; "2,1000"])
    else if String.eqb p "garbage.cfg" then Some garbage_cfg
    else if String.eqb p "neg.cfg" then Some negative_count_cfg
    else if String.eqb p "neg.dat" then Some "1,2"
    else None.

(** [float] on the literals of the samples. *)
Definition float_table (s : string) : option float :=
  if String.eqb s "60" then Some 60.0%float
  else if String.eqb s "1" then Some 1.0%float
  else if String.eqb s "1.0" then Some 1.0%float
  else if String.eqb s "1000" then Some 1000.0%float
  else None.

Definition entry (relay_model relay_name standard_name : string) : AliasEntry :=
  {| Models.relay_name := relay_name; Models.standard_name := standard_name;
     Models.relay_model := relay_model; alias_signal_type := "analog";
     function := ""; auto_detected := false; validated := true |}.

Definition empty_db : AliasDatabase :=
  {| _db_path := "data/alias_database.json";
     _entries := Dict.empty AliasEntry |}.

(** An empty store whose path has no directory part. *)
Definition bare_db : AliasDatabase :=
  {| _db_path := "alias_database.json"; _entries := Dict.empty AliasEntry |}.

Definition no_files : disk := fun _ => None.

(** A backing file that holds a JSON array. *)
Definition array_disk : disk :=
  fun p => if String.eqb p "alias_database.json"
           then Some (Document (JArr [])) else None.

(** A backing file edited by hand: the key of its record is not
    [relay_model::relay_name]. *)
Definition edited_disk : disk :=
  fun p => if String.eqb p "data/alias_database.json"
           then Some (Document
                  (JObj [("k", entry_to_json (entry "M" "a" "IA"))]))
           else None.

Definition edited_db : AliasDatabase :=
  {| _db_path := "data/alias_database.json";
     _entries := [("k", entry "M" "a" "IA")] |}.


(** The store after [add] of one entry. *)
Definition one_entry_db : AliasDatabase :=
  snd (fst (add no_files empty_db (entry "M" "ia" "IA"))).

(** Two entries of one model whose names differ by case only. *)
Definition two_cases_db : AliasDatabase :=
  snd (fst (add no_files one_entry_db (entry "M" "IA" "IB"))).

(** Paths: [/] separates, and only [rec/fault.DAT] exists. *)
Definition slash (c : ascii) : bool := Ascii.eqb c "/".

Definition only_upper_dat (p : string) : bool := String.eqb p "rec/fault.DAT".

(** A loaded configuration with one analog channel, [IL1_MAG]. *)
Definition il1_config : ComtradeConfig := {|
  station_name := "S"; rec_dev_id := "D"; rev_year := 1999%Z;
  num_analog := 1%Z; num_digital := 0%Z;
  analog_channels :=
    [{| index := 1%Z; name := "IL1_MAG"; phase := "";
        circuit_component := ""; unit := "A";
        multiplier := 1.0%float; offset := 0.0%float; skew := 0.0%float;
        min_val := (-99999.0)%float; max_val := 99999.0%float;
        primary := 1.0%float; secondary := 1.0%float; ps_type := "P";
        signal_type := ANALOG; normal_state := 0%Z |}];
  digital_channels := [];
  line_freq := 60.0%float; sampling_rates := [];
  start_timestamp := ""; trigger_timestamp := "";
  data_format := "ASCII"; time_multiplier := 1.0%float; file_path := "il1.cfg"
|}.

(** An extracted inventory without relay model. *)
Definition inventory : Validator.XRIOData :=
  {| Validator.relay_model_of := "";
     Validator.analog_signals := ["IA"; "IL1"; "XYZ123"];
     Validator.binary_signals := ["TRIP"; "Q0_OPEN"] |}.

(** A disturbance-report block [B1RBDR] with three named channels. *)
Definition leaf (tag text : string) : Xrio.element :=
  Xrio.Element (Some tag) [] (Some text) [].

Definition parameter (name value : string) : Xrio.element :=
  Xrio.Element (Some "Parameter") [] None
    [leaf "Name" name; leaf "Value" value; leaf "Description" "channel"].

Definition general_block : Xrio.element :=
  Xrio.Element (Some "Block") [("Id", "ID_GENERAL")] None
    [parameter "NAME1" "TRIP"; parameter "NAME02" "CLOSE";
     parameter "TrigDR01" "On"; parameter "NAME10" ""].

Definition report_document : Xrio.element :=
  Xrio.Element (Some "XRIO") [] None
    [Xrio.Element (Some "Block") [("Id", "ID_B1RBDR1")] None
       [leaf "Name" "B1RBDR: 1"; general_block]].

(** A document with two binary blocks and one analog block: the first
    binary block holds channel elements, the second only a generic
    element and a comment. *)
Definition binary_document : Xrio.element :=
  Xrio.Element (Some "XRIO") [] None
    [Xrio.Element (Some "{urn:x}B1RBDR") [] None
       [Xrio.Element (Some "Channel") [("name", "TRIP_A")] None [];
        Xrio.Element (Some "Channel") [("Name", "Station")] None [];
        Xrio.Element (Some "Status") [("id", "51_PICKUP"); ("state", "1")]
          None []];
     Xrio.Element (Some "b2rbdr") [] None
       [Xrio.Element (Some "Item") [] (Some " CB_OPEN ") [];
        Xrio.Element None [] (Some "note") []];
     Xrio.Element (Some "A1RADR") [] None [];
     Xrio.Element (Some "B1RBDR") [] None []].

End Samples.

(* ================================================================== *)
(** * Part II: properties *)
(* ================================================================== *)

(** ** Facts on the built-ins *)

Module PyFacts.
Import Py.

Lemma index_returns A (l : list A) (i : nat) :
  i < length l -> exists x, index l i = Returns x.
Proof.
  intros H. unfold index.
  destruct (nth_error l i) as [x|] eqn:E.
  - exists x. reflexivity.
  - apply nth_error_None in E. lia.
Qed.

Lemma int_returns_or_ValueError (s : string) :
  (exists v, int s = Returns v) \/ int s = Raises ValueError.
Proof.
  unfold int. destruct (int_literal s) as [v|]; simpl; eauto.
Qed.

Lemma guarded_returns A (a : A) : guarded (Returns a).
Proof. left. eauto. Qed.

Lemma guarded_int (s : string) : guarded (int s).
Proof. apply int_returns_or_ValueError. Qed.

Lemma guarded_bind A B (m : outcome A) (k : A -> outcome B) :
  guarded m -> (forall a, guarded (k a)) -> guarded (bind m k).
Proof.
  intros [[a ->] | ->] Hk; simpl.
  - apply Hk.
  - right. reflexivity.
Qed.

Lemma guarded_index A (l : list A) (i : nat) :
  i < length l -> guarded (index l i).
Proof. intros H. left. apply index_returns, H. Qed.

(** [try: m except ValueError: h] returns as soon as [h] does. *)
Lemma try_except_returns A (m : outcome A) (d : A) :
  guarded m -> exists a, try_except m [ValueError] (Returns d) = Returns a.
Proof.
  intros [[a ->] | ->]; simpl; eauto.
Qed.

Lemma range_length (a b : Z) : length (range a b) = Z.to_nat (b - a).
Proof. unfold range. rewrite length_map, length_seq. reflexivity. Qed.

Lemma map_outcome_length A B (f : A -> outcome B) (l : list A) (r : list B) :
  map_outcome f l = Returns r -> length r = length l.
Proof.
  revert r. induction l as [|x l IH]; simpl; intros r H.
  - inversion H. reflexivity.
  - destruct (f x) as [y| |]; simpl in H; try discriminate.
    destruct (map_outcome f l) as [ys| |]; simpl in H; try discriminate.
    inversion H. simpl. f_equal. apply IH. reflexivity.
Qed.

Lemma map_outcome_returns A B (f : A -> outcome B) (l : list A) :
  (forall x, In x l -> exists y, f x = Returns y) ->
  exists r, map_outcome f l = Returns r.
Proof.
  induction l as [|x l IH]; simpl; intros H.
  - eauto.
  - destruct (H x) as [y Hy]; auto. rewrite Hy. simpl.
    destruct IH as [r Hr]; auto. rewrite Hr. simpl. eauto.
Qed.

Lemma In_range (a b i : Z) : In i (range a b) <-> (a <= i < b)%Z.
Proof.
  unfold range. rewrite in_map_iff. split.
  - intros [k [<- Hk]]. apply in_seq in Hk. lia.
  - intros H. exists (Z.to_nat (i - a)). split; [lia|]. apply in_seq. lia.
Qed.

End PyFacts.

(** ** The configuration parser *)

Module ComtradeFacts.
Import Py Models Comtrade PyFacts.

Section WithFloat.
Variable fl : string -> option PrimFloat.float.

Lemma guarded_float (s : string) : guarded (float fl s).
Proof. unfold float. destruct (fl s); simpl; [left|right]; eauto. Qed.

Lemma field_or_returns parts i d : exists s, field_or parts i d = Returns s.
Proof.
  unfold field_or. destruct (Nat.ltb_spec i (length parts)); eauto.
  apply index_returns; assumption.
Qed.

Lemma guarded_at A parts i (k : string -> outcome A) :
  i < length parts -> (forall p, guarded (k p)) ->
  guarded (p <- Py.index parts i ;; k p).
Proof. intros H Hk. apply guarded_bind; [apply guarded_index, H | exact Hk]. Qed.

Lemma channel_index_returns parts d : exists v, channel_index parts d = Returns v.
Proof.
  unfold channel_index. apply try_except_returns.
  destruct (Nat.ltb_spec 0 (length parts)).
  - apply guarded_at; [assumption | apply guarded_int].
  - apply guarded_returns.
Qed.

Lemma float_field_returns parts idx cur d :
  exists v, float_field fl parts idx cur d = Returns v.
Proof.
  unfold float_field. destruct (Nat.ltb_spec idx (length parts)); eauto.
  apply try_except_returns, guarded_at; [assumption | apply guarded_float].
Qed.

(** Rewrites a call that is known to return, and moves on. *)
Ltac returns_by L :=
  let v := fresh "v" in
  let E := fresh "E" in
  destruct L as [v E]; rewrite E; cbn [bind].

Lemma _parse_analog_channel_returns line d :
  exists ch, _parse_analog_channel fl line d = Returns ch.
Proof.
  unfold _parse_analog_channel.
  set (parts := _split_cfg_line line).
  returns_by (channel_index_returns parts d).
  do 4 (match goal with
        | |- context [field_or ?p ?i ?x] => returns_by (field_or_returns p i x)
        end).
  do 7 (match goal with
        | |- context [float_field fl ?p ?i ?c ?x] =>
            returns_by (float_field_returns p i c x)
        end).
  destruct (Nat.ltb_spec 12 (length parts)).
  - returns_by (index_returns parts H). eauto.
  - cbn [bind]. eauto.
Qed.

Lemma _parse_digital_channel_returns line d :
  exists ch, _parse_digital_channel line d = Returns ch.
Proof.
  unfold _parse_digital_channel.
  set (parts := _split_cfg_line line).
  returns_by (channel_index_returns parts d).
  do 3 (match goal with
        | |- context [field_or ?p ?i ?x] => returns_by (field_or_returns p i x)
        end).
  destruct (Nat.ltb_spec 4 (length parts)).
  - assert (G : guarded (p <- Py.index parts 4 ;; Py.int p))
      by (apply guarded_at; [assumption | apply guarded_int]).
    returns_by (try_except_returns 0%Z G). eauto.
  - cbn [bind]. eauto.
Qed.

Lemma count_turn_returns acc p : exists r, count_turn acc p = Returns r.
Proof.
  unfold count_turn.
  destruct (endswith (upper (strip p)) "A").
  - apply try_except_returns, guarded_bind;
      [apply guarded_int | intros; apply guarded_returns].
  - destruct (endswith (upper (strip p)) "D"); eauto.
    apply try_except_returns, guarded_bind;
      [apply guarded_int | intros; apply guarded_returns].
Qed.

Lemma count_loop_returns ps acc : exists r, count_loop ps acc = Returns r.
Proof.
  revert acc. induction ps as [|p ps IH]; intros acc; simpl; eauto.
  returns_by (count_turn_returns acc p). apply IH.
Qed.

Lemma channel_counts_returns parts cur :
  exists r, channel_counts parts cur = Returns r.
Proof.
  unfold channel_counts. destruct (Nat.leb_spec 1 (length parts)); eauto.
  returns_by (@index_returns _ parts 0 ltac:(lia)).
  returns_by (count_loop_returns (tl parts) (0%Z, 0%Z)).
  destruct ((fst v0 =? 0)%Z && (snd v0 =? 0)%Z && (length parts =? 1)); eauto.
  apply try_except_returns, guarded_bind;
    [apply guarded_int | intros; apply guarded_returns].
Qed.

Lemma channel_loop_returns parse lines todo i line_idx acc :
  (forall l d, exists ch, parse l d = Returns ch) ->
  exists r, channel_loop parse lines todo i line_idx acc = Returns r.
Proof.
  intros Hp. revert i line_idx acc.
  induction todo as [|todo IH]; intros i line_idx acc; simpl; eauto.
  destruct (Nat.leb_spec (length lines) line_idx); eauto.
  returns_by (index_returns lines H).
  returns_by (Hp v (i + 1)%Z). apply IH.
Qed.

Lemma rates_loop_returns lines todo line_idx acc :
  exists r, rates_loop fl lines todo line_idx acc = Returns r.
Proof.
  revert line_idx acc.
  induction todo as [|todo IH]; intros line_idx acc; cbn [rates_loop]; eauto.
  destruct (Nat.leb_spec (length lines) line_idx); eauto.
  returns_by (index_returns lines H).
  set (parts := _split_cfg_line v).
  destruct (Nat.leb_spec 2 (length parts)).
  - match goal with
    | |- context [try_except ?m _ (Returns ?d)] =>
        assert (G : guarded m)
    end.
    { apply guarded_at; [lia|]. intros p0.
      apply guarded_bind; [apply guarded_float|]. intros rate.
      apply guarded_at; [lia|]. intros p1.
      apply guarded_bind; [apply guarded_int|]. intros e.
      apply guarded_returns. }
    returns_by (try_except_returns acc G). apply IH.
  - cbn [bind]. apply IH.
Qed.

Lemma parse_cfg_lines_returns path lines :
  2 <= length lines -> exists cfg, parse_cfg_lines fl path lines = Returns cfg.
Proof.
  intros Hlen. unfold parse_cfg_lines.
  returns_by (@index_returns _ lines 0 ltac:(lia)).
  do 2 (match goal with
        | |- context [field_or ?p ?i ?x] => returns_by (field_or_returns p i x)
        end).
  match goal with
  | |- context [bind (if 2 <? length ?p then _ else _) _] => set (parts := p)
  end.
  assert (R : exists r,
    (if 2 <? length parts
     then try_except (p <- Py.index parts 2 ;; Py.int p) [ValueError]
            (Returns 1999%Z)
     else Returns (rev_year (ComtradeConfig_new path))) = Returns r).
  { destruct (Nat.ltb_spec 2 (length parts)); eauto.
    apply try_except_returns, guarded_at; [assumption | apply guarded_int]. }
  returns_by R.
  returns_by (@index_returns _ lines (0 + 1) ltac:(simpl; lia)).
  match goal with
  | |- context [channel_counts ?p ?c] => returns_by (channel_counts_returns p c)
  end.
  match goal with
  | |- context [channel_loop ?p ?l ?t ?i ?x ?a] =>
      returns_by (@channel_loop_returns p l t i x a
                    (_parse_analog_channel_returns))
  end.
  match goal with
  | |- context [channel_loop ?p ?l ?t ?i ?x ?a] =>
      returns_by (@channel_loop_returns p l t i x a
                    (_parse_digital_channel_returns))
  end.
  (* line frequency *)
  match goal with
  | |- context [bind (if ?c then ?m else ?e) _] =>
      assert (F : exists r, (if c then m else e) = Returns r)
  end.
  { destruct (Nat.ltb_spec (snd v6) (length lines)); eauto.
    match goal with
    | |- context [try_except ?m _ (Returns ?d)] =>
        assert (G : guarded m)
          by (apply guarded_at; [assumption | apply guarded_float]);
        returns_by (try_except_returns d G)
    end. eauto. }
  returns_by F.
  (* number of rates *)
  match goal with
  | |- context [bind (if ?c then ?m else ?e) _] =>
      assert (N : exists r, (if c then m else e) = Returns r)
  end.
  { destruct (Nat.ltb_spec (snd v7) (length lines)); eauto.
    match goal with
    | |- context [try_except ?m _ (Returns ?d)] =>
        assert (G : guarded m)
          by (apply guarded_at; [assumption | apply guarded_int]);
        returns_by (try_except_returns d G)
    end. eauto. }
  returns_by N.
  match goal with
  | |- context [rates_loop fl ?l ?t ?x ?a] =>
      returns_by (rates_loop_returns l t x a)
  end.
  (* timestamps and data format *)
  do 3 (match goal with
        | |- context [bind (if ?c then ?m else ?e) _] =>
            let T := fresh "T" in
            assert (T : exists r, (if c then m else e) = Returns r);
            [ match c with
              | ?i <? _ => destruct (Nat.ltb_spec i (length lines)); eauto
              end;
              match goal with
              | H : _ < length lines |- _ =>
                  returns_by (index_returns lines H); eauto
              end
            | returns_by T ]
        end).
  (* time multiplier *)
  match goal with
  | |- context [bind (if ?c then ?m else ?e) _] =>
      assert (M : exists r, (if c then m else e) = Returns r)
  end.
  { destruct (Nat.ltb_spec (snd v12) (length lines)); eauto.
    apply try_except_returns, guarded_at; [assumption | apply guarded_float]. }
  returns_by M. eauto.
Qed.

(** Garbage in a numeric field gives the default of the field. *)
Lemma float_field_default parts idx p cur d :
  nth_error parts idx = Some p -> fl p = None ->
  float_field fl parts idx cur d = Returns d.
Proof.
  intros Hp Hf. unfold float_field.
  assert (L : idx < length parts) by (apply nth_error_Some; congruence).
  apply Nat.ltb_lt in L. rewrite L.
  unfold Py.index. rewrite Hp. simpl. unfold float. rewrite Hf. reflexivity.
Qed.

(** C1. For a configuration file that exists, [parse_cfg] raises the
    malformed-input error ([ValueError]) exactly when the text has fewer
    than two lines; on a text of two lines or more it returns a
    [ComtradeConfig] (and records it in the parser), whatever the fields
    hold and whatever [float] makes of them. *)
Theorem parse_cfg_malformed_iff_short :
  forall (fs : filesystem) (self : ComtradeParser) (path text : string),
    fs path = Some text ->
    (parse_cfg fl fs self path = Raises ValueError
     <-> length (readlines text) < 2) /\
    (2 <= length (readlines text) ->
     exists cfg,
       parse_cfg fl fs self path = Returns ({| _config := Some cfg |}, cfg)).
Proof.
  intros fs self path text Hfile.
  assert (Long : 2 <= length (readlines text) ->
                 exists cfg, parse_cfg fl fs self path
                             = Returns ({| _config := Some cfg |}, cfg)).
  { intros H. unfold parse_cfg. rewrite Hfile.
    assert (L : 2 <= length (map strip (readlines text)))
      by (rewrite length_map; exact H).
    destruct (Nat.ltb_spec (length (map strip (readlines text))) 2); [lia|].
    destruct (@parse_cfg_lines_returns path _ L) as [cfg E].
    rewrite E. simpl. eauto. }
  split; [split|exact Long].
  - intros R. destruct (Nat.lt_ge_cases (length (readlines text)) 2) as [|G];
      [assumption|].
    destruct (Long G) as [cfg E]. rewrite E in R. discriminate.
  - intros H. unfold parse_cfg. rewrite Hfile, length_map.
    apply Nat.ltb_lt in H. rewrite H. reflexivity.
Qed.

(** *** [parse_dat_ascii] under counts that are not negative *)

Lemma index_Z_guarded A (l : list A) (i : Z) :
  (0 <= i < Z.of_nat (length l))%Z -> guarded (index_Z l i).
Proof.
  intros H. unfold index_Z. destruct (Z.leb_spec 0 i); [|lia].
  apply guarded_index. lia.
Qed.

Lemma analog_val_returns parts i :
  (0 <= i)%Z -> exists v, analog_val fl parts i = Returns v.
Proof.
  intros H. unfold analog_val.
  destruct (Z.ltb_spec i (Z.of_nat (length parts))); eauto.
  apply try_except_returns, guarded_bind;
    [apply index_Z_guarded; lia | intros; apply guarded_float].
Qed.

Lemma digital_val_returns parts i :
  (0 <= i)%Z -> exists v, digital_val parts i = Returns v.
Proof.
  intros H. unfold digital_val.
  destruct (Z.ltb_spec i (Z.of_nat (length parts))); eauto.
  apply try_except_returns, guarded_bind;
    [apply index_Z_guarded; lia | intros; apply guarded_int].
Qed.

(** Past the end of a short row the value is the padding. *)
Lemma analog_val_padding parts i :
  (Z.of_nat (length parts) <= i)%Z -> analog_val fl parts i = Returns 0.0%float.
Proof.
  intros H. unfold analog_val.
  destruct (Z.ltb_spec i (Z.of_nat (length parts))); [lia | reflexivity].
Qed.

Lemma digital_val_padding parts i :
  (Z.of_nat (length parts) <= i)%Z -> digital_val parts i = Returns 0%Z.
Proof.
  intros H. unfold digital_val.
  destruct (Z.ltb_spec i (Z.of_nat (length parts))); [lia | reflexivity].
Qed.

Lemma parse_dat_line_full self line :
  counts_nonneg self ->
  exists r, parse_dat_line fl self line = Returns r /\
            match r with Some row => full_row self row | None => True end.
Proof.
  intros Hc. unfold parse_dat_line.
  destruct (negb (truthy (strip line))); [exists None; auto|].
  set (parts := split "," (strip line)).
  destruct (Nat.ltb_spec (length parts) 2); [exists None; auto|].
  match goal with
  | |- context [try_except ?m _ (Returns ?d)] => assert (G : guarded m)
  end.
  { apply guarded_at; [lia|]. intros p0.
    apply guarded_bind; [apply guarded_int|]. intros n.
    apply guarded_at; [lia|]. intros p1.
    apply guarded_bind; [apply guarded_int|]. intros t.
    apply guarded_returns. }
  returns_by (try_except_returns (@None (Z * Z)) G).
  destruct v as [[sample_num timestamp]|]; [|exists None; auto].
  fold (count_a self). fold (count_d self).
  assert (Ha : (0 <= count_a self)%Z /\ (0 <= count_d self)%Z) by exact Hc.
  destruct (@map_outcome_returns _ _ (analog_val fl parts)
              (range 2 (2 + count_a self))) as [av Eav].
  { intros x Hx. apply In_range in Hx. apply analog_val_returns. lia. }
  destruct (@map_outcome_returns _ _ (digital_val parts)
              (range (2 + count_a self) (2 + count_a self + count_d self)))
    as [dv Edv].
  { intros x Hx. apply In_range in Hx. apply digital_val_returns. lia. }
  rewrite Eav. cbn [bind]. rewrite Edv. cbn [bind].
  eexists. split; [reflexivity|]. simpl.
  apply map_outcome_length in Eav, Edv.
  rewrite range_length in Eav, Edv. lia.
Qed.

Lemma dat_loop_full self lines data :
  counts_nonneg self -> Forall (full_row self) data ->
  exists rows, dat_loop fl self lines data = Returns rows /\
               Forall (full_row self) rows.
Proof.
  intros Hc. revert data.
  induction lines as [|line lines IH]; intros data Hd; simpl; eauto.
  destruct (@parse_dat_line_full self line Hc) as [r [E Hr]]. rewrite E. cbn [bind].
  destruct r as [row|]; apply IH; auto.
  apply Forall_app. split; auto.
Qed.

(** With counts that are not negative, [parse_dat_ascii] returns on every
    data file and every row is full: short rows are padded. *)
Lemma parse_dat_ascii_full fs self path text :
  fs path = Some text -> counts_nonneg self ->
  exists rows, parse_dat_ascii fl fs self path = Returns rows /\
               Forall (full_row self) rows.
Proof.
  intros Hf Hc. unfold parse_dat_ascii. rewrite Hf.
  apply dat_loop_full; auto.
Qed.

End WithFloat.

Lemma parse_cfg_malformed_iff_short_witness :
  (parse_cfg Samples.float_table Samples.files ComtradeParser_new "plain.cfg"
   = Raises ValueError
   <-> length (readlines Samples.plain_cfg) < 2) /\
  (exists cfg,
     parse_cfg Samples.float_table Samples.files ComtradeParser_new "plain.cfg"
     = Returns ({| _config := Some cfg |}, cfg)).
Proof.
  destruct (@parse_cfg_malformed_iff_short Samples.float_table Samples.files
              ComtradeParser_new "plain.cfg" Samples.plain_cfg eq_refl)
    as [H1 H2].
  split; [exact H1 | apply H2; vm_compute; lia].
Defined.

(** What the plain sample parses to: counts, channels and the sampling rate. *)
Example parse_cfg_plain :
  exists self cfg,
    parse_cfg Samples.float_table Samples.files ComtradeParser_new "plain.cfg"
    = Returns (self, cfg) /\
    num_analog cfg = 1%Z /\ num_digital cfg = 1%Z /\
    map name (analog_channels cfg) = ["IA"] /\
    map name (digital_channels cfg) = ["TRIP"] /\
    sampling_rates cfg = [(1000.0%float, 100%Z)] /\
    data_format cfg = "ASCII".
Proof. do 2 eexists. vm_compute. repeat split. Qed.

(** Garbage in the fields: every one of them takes its default. *)
Example parse_cfg_garbage_defaults :
  exists self cfg ch,
    parse_cfg Samples.float_table Samples.files ComtradeParser_new "garbage.cfg"
    = Returns (self, cfg) /\
    rev_year cfg = 1999%Z /\ line_freq cfg = 60.0%float /\
    sampling_rates cfg = [] /\ data_format cfg = "ASCII" /\
    analog_channels cfg = [ch] /\
    index ch = 1%Z /\ multiplier ch = 1.0%float /\ offset ch = 0.0%float /\
    min_val ch = (-99999.0)%float /\ max_val ch = 99999.0%float /\
    ps_type ch = "".
Proof. do 3 eexists. vm_compute. repeat split. Qed.

(** After the plain configuration (one analog, one digital channel) the
    rows of the data file are full: the missing fields are padded with
    [0.0] and [0]. *)
Example parse_dat_ascii_padding :
  exists self cfg,
    parse_cfg Samples.float_table Samples.files ComtradeParser_new "plain.cfg"
    = Returns (self, cfg) /\
    parse_dat_ascii Samples.float_table Samples.files self "plain.dat"
    = Returns [(1%Z, 0%Z, [1.0%float], [0%Z]);
               (2%Z, 1000%Z, [0.0%float], [0%Z])].
Proof. do 2 eexists. split; vm_compute; reflexivity. Qed.

(** C8, at the failing input. The configuration text [S,D,1999 / 1,-5A,1D]
    parses (C1) to a configuration with [num_analog = -5] and
    [num_digital = 1]; on the data line [1,2] the digital loop then runs
    over [range(-3, -2)], the guard [i < len(parts)] holds for [i = -3],
    and [parts[-3]] raises [IndexError] on a list of two fields: the
    exception leaves [parse_dat_ascii], which only catches [ValueError]. *)
Theorem parse_dat_ascii_negative_count_raises :
  forall fl : string -> option PrimFloat.float,
  exists self cfg,
    parse_cfg fl Samples.files ComtradeParser_new "neg.cfg"
    = Returns (self, cfg) /\
    num_analog cfg = (-5)%Z /\ num_digital cfg = 1%Z /\
    parse_dat_ascii fl Samples.files self "neg.dat" = Raises IndexError.
Proof.
  intros fl. do 2 eexists. split; [vm_compute; reflexivity|].
  repeat split.
Qed.

End ComtradeFacts.

(** ** Dictionaries *)

Module DictFacts.

Section WithValue.
Variable V : Type.
Implicit Types (d : Dict.t V) (k : string) (v : V).

Lemma get_set_same d k v : Dict.get (Dict.set d k v) k = Some v.
Proof.
  induction d as [|[k' v'] d IH]; simpl.
  - rewrite String.eqb_refl. reflexivity.
  - destruct (String.eqb k' k) eqn:E; simpl.
    + rewrite String.eqb_refl. reflexivity.
    + rewrite E. exact IH.
Qed.

Lemma get_set_other d k k' v :
  k <> k' -> Dict.get (Dict.set d k v) k' = Dict.get d k'.
Proof.
  intros N. induction d as [|[k0 v0] d IH]; simpl.
  - apply String.eqb_neq in N. rewrite N. reflexivity.
  - destruct (String.eqb k0 k) eqn:E; simpl.
    + apply String.eqb_eq in E. subst k0.
      apply String.eqb_neq in N. rewrite N. reflexivity.
    + rewrite IH. reflexivity.
Qed.

Lemma has_iff_In_keys d k : Dict.has d k = true <-> In k (Dict.keys d).
Proof.
  unfold Dict.has. induction d as [|[k' v'] d IH]; simpl.
  - split; [discriminate | tauto].
  - destruct (String.eqb k' k) eqn:E.
    + apply String.eqb_eq in E. tauto.
    + apply String.eqb_neq in E. rewrite IH. tauto.
Qed.

Lemma get_In d k v : Dict.get d k = Some v -> In (k, v) d.
Proof.
  induction d as [|[k' v'] d IH]; simpl; [discriminate|].
  destruct (String.eqb k' k) eqn:E.
  - apply String.eqb_eq in E. intros H. inversion H. subst. auto.
  - auto.
Qed.


(** Writing back the value a key already holds changes nothing. *)
Lemma set_same d k v : Dict.get d k = Some v -> Dict.set d k v = d.
Proof.
  induction d as [|[k' v'] d IH]; simpl; [discriminate|].
  destruct (String.eqb k' k) eqn:E.
  - apply String.eqb_eq in E. intros H. inversion H. subst. reflexivity.
  - intros H. rewrite IH; auto.
Qed.

Lemma keys_set d k v :
  Dict.keys (Dict.set d k v)
  = if Dict.has d k then Dict.keys d else (Dict.keys d ++ [k])%list.
Proof.
  unfold Dict.has. induction d as [|[k' v'] d IH]; simpl; [reflexivity|].
  destruct (String.eqb k' k) eqn:E; simpl.
  - apply String.eqb_eq in E. subst. reflexivity.
  - rewrite IH. destruct (Dict.get d k); reflexivity.
Qed.

Lemma NoDup_set d k v :
  NoDup (Dict.keys d) -> NoDup (Dict.keys (Dict.set d k v)).
Proof.
  intros ND. rewrite keys_set. destruct (Dict.has d k) eqn:E; [assumption|].
  apply NoDup_app; [assumption | repeat constructor; simpl; tauto |].
  intros x Hx [<-|[]]. apply has_iff_In_keys in Hx. congruence.
Qed.

Lemma In_set d k v k' v' :
  In (k', v') (Dict.set d k v) -> (k' = k /\ v' = v) \/ In (k', v') d.
Proof.
  induction d as [|[k0 v0] d IH]; simpl.
  - intros [H|[]]. inversion H. auto.
  - destruct (String.eqb k0 k) eqn:E; simpl.
    + intros [H|H]; [inversion H; auto | auto].
    + intros [H|H]; [auto | destruct (IH H); auto].
Qed.

End WithValue.

End DictFacts.

(** ** The alias store *)

Module AliasFacts.
Import Py Models Json AliasDb DictFacts.

Lemma with_entries_same (self : AliasDatabase) :
  with_entries self (_entries self) = self.
Proof. destruct self. reflexivity. Qed.

Lemma write_read (fs : disk) path c : write fs path c path = Some c.
Proof. unfold write. rewrite String.eqb_refl. reflexivity. Qed.

(** *** Loading the backing file *)

(** Text that is not JSON gives the empty store. *)
Lemma _load_not_json fs path :
  fs path = Some NotJson ->
  AliasDatabase_new fs path
  = Returns {| _db_path := path; _entries := Dict.empty AliasEntry |}.
Proof.
  intros H. unfold AliasDatabase_new, _load. simpl. rewrite H. reflexivity.
Qed.

(** A record that is not a mapping, or names an unknown field, gives the
    empty store, also after records that were read. *)
Lemma load_loop_type_error its key data entries :
  AliasEntry_kwargs data = Raises TypeError ->
  In (key, data) its ->
  (forall k d e, In (k, d) its -> AliasEntry_kwargs d = Raises e -> e = TypeError) ->
  load_loop its entries = Raises TypeError.
Proof.
  intros Hd. revert entries.
  induction its as [|[k d] its IH]; intros entries Hin Hall; [destruct Hin|].
  simpl. destruct (AliasEntry_kwargs d) as [e|x|] eqn:E.
  - destruct Hin as [Hin|Hin]; [inversion Hin; subst; congruence|].
    apply IH; auto. intros; eapply Hall; eauto. right; eauto.
  - f_equal. eapply Hall; [left; reflexivity | exact E].
  - destruct Hin as [Hin|Hin]; [inversion Hin; subst; congruence|].
    rewrite IH; auto. intros; eapply Hall; eauto. right; eauto.
Qed.

Lemma AliasEntry_kwargs_raises data e :
  AliasEntry_kwargs data = Raises e -> e = TypeError.
Proof.
  unfold AliasEntry_kwargs. destruct data as [| | | | |kw]; try congruence.
  destruct (forallb _ _); [|congruence].
  unfold str_field, bool_field.
  repeat match goal with
         | |- context [Dict.get kw ?k] =>
             destruct (Dict.get kw k) as [[]|]; cbn [bind]; try discriminate
         end.
Qed.

Lemma _load_bad_record fs path its key data :
  fs path = Some (Document (JObj its)) ->
  In (key, data) its -> AliasEntry_kwargs data = Raises TypeError ->
  AliasDatabase_new fs path
  = Returns {| _db_path := path; _entries := Dict.empty AliasEntry |}.
Proof.
  intros Hf Hin Hd. unfold AliasDatabase_new, _load. simpl. rewrite Hf. simpl.
  rewrite (@load_loop_type_error its key data); auto.
  intros k d e _ H. eapply AliasEntry_kwargs_raises; eauto.
Qed.

(** C5, at the failing input. The backing file exists and holds the JSON
    array [[]]: [json.load] returns a list, [raw.items()] raises
    [AttributeError], which is none of [JSONDecodeError], [TypeError],
    [KeyError]; the exception leaves [_load] and the constructor instead
    of giving the empty store. *)
Theorem _load_array_raises :
  Samples.array_disk "alias_database.json" = Some (Document (JArr [])) /\
  AliasDatabase_new Samples.array_disk "alias_database.json"
  = Raises AttributeError.
Proof. split; reflexivity. Qed.

(** A record under a key of any shape, with fields missing, is read as
    an entry: here the defaults of the dataclass under the key [garbage]. *)
Lemma _load_unkeyed_record fs path :
  fs path = Some (Document (JObj [("garbage", JObj [])])) ->
  AliasDatabase_new fs path
  = Returns {| _db_path := path;
               _entries := [("garbage",
                             {| relay_name := ""; standard_name := "";
                                relay_model := "";
                                alias_signal_type := "analog";
                                function := ""; auto_detected := false;
                                validated := false |})] |}.
Proof.
  intros H. unfold AliasDatabase_new, _load. simpl. rewrite H. reflexivity.
Qed.

(** The same happens for every document that is not an object. *)
Lemma _load_non_object_raises fs path j :
  fs path = Some (Document j) ->
  (forall its, j <> JObj its) ->
  AliasDatabase_new fs path = Raises AttributeError.
Proof.
  intros Hf Hj. unfold AliasDatabase_new, _load. simpl. rewrite Hf.
  destruct j; try reflexivity. exfalso. eapply Hj. reflexivity.
Qed.

(** A file that is not UTF-8 text escapes as well. *)
Lemma _load_undecodable_raises fs path :
  fs path = Some Undecodable ->
  AliasDatabase_new fs path = Raises UnicodeDecodeError.
Proof.
  intros Hf. unfold AliasDatabase_new, _load. simpl. rewrite Hf. reflexivity.
Qed.

(** *** The invariant of the store *)

Lemma store_ok_empty path :
  store_ok {| _db_path := path; _entries := Dict.empty AliasEntry |}.
Proof. split; constructor. Qed.

Lemma store_ok_add fs self entry :
  store_ok self -> store_ok (snd (fst (add fs self entry))).
Proof.
  intros [ND KE]. unfold add, store_ok. cbn [fst snd with_entries _entries].
  split.
  - apply NoDup_set, ND.
  - apply Forall_forall. intros [k e] Hin. simpl.
    apply In_set in Hin. destruct Hin as [[-> ->]|Hin]; [reflexivity|].
    rewrite Forall_forall in KE. apply (KE (k, e) Hin).
Qed.


(** *** Saving *)

Lemma dirname_empty : dirname "" = "".
Proof. reflexivity. Qed.

Lemma dump_file fs path raw :
  names_file path = true ->
  dump fs path raw = (write fs path (Document raw), Returns tt).
Proof.
  unfold names_file, dump. intros H. apply andb_true_iff in H.
  destruct H as [T N]. rewrite T. apply negb_true_iff in N. rewrite N.
  reflexivity.
Qed.

Lemma can_save_names_file self :
  can_save self = true -> names_file (_db_path self) = true.
Proof.
  unfold can_save, names_file. intros H. apply andb_true_iff in H.
  destruct H as [D N]. rewrite N.
  destruct (_db_path self); [discriminate D | reflexivity].
Qed.

(** A store that can be saved is written to its backing file. *)
Lemma save_writes fs self :
  can_save self = true ->
  save fs self
  = (write fs (_db_path self) (Document (entries_to_json (_entries self))),
     Returns tt).
Proof.
  intros H. unfold save, makedirs.
  pose proof (can_save_names_file self H) as F.
  unfold can_save in H. apply andb_true_iff in H. destruct H as [D _].
  rewrite D. apply dump_file, F.
Qed.

(** A store whose path has no directory part is not: [os.makedirs('')]
    raises, and the disk is left as it was. *)
Lemma save_bare fs self :
  dirname (_db_path self) = "" ->
  save fs self = (fs, Raises FileNotFoundError).
Proof. intros H. unfold save. rewrite H. reflexivity. Qed.

Lemma can_save_with_entries self d :
  can_save (with_entries self d) = can_save self.
Proof. reflexivity. Qed.

Lemma add_saved fs self e :
  can_save self = true ->
  add fs self e
  = (write fs (_db_path self)
       (Document (entries_to_json (Dict.set (_entries self) (key e) e))),
     with_entries self (Dict.set (_entries self) (key e) e),
     Returns (negb (Dict.has (_entries self) (key e)))).
Proof.
  intros H. unfold add. rewrite save_writes by exact H. reflexivity.
Qed.

(** *** Export, then import *)

(** [AliasEntry( **data )] reads back what [export_to_json] wrote. *)
Lemma AliasEntry_kwargs_to_json e :
  AliasEntry_kwargs (entry_to_json e) = Returns e.
Proof. destruct e. reflexivity. Qed.

(** Adding an entry the store already holds under its key: nothing is
    new, the store is the same and is saved again. *)
Lemma add_present fs self e :
  can_save self = true ->
  Dict.get (_entries self) (key e) = Some e ->
  add fs self e
  = (write fs (_db_path self) (Document (entries_to_json (_entries self))),
     self, Returns false).
Proof.
  intros Hs H. rewrite add_saved by exact Hs. unfold Dict.has. rewrite H.
  rewrite set_same, with_entries_same by exact H. reflexivity.
Qed.





(** *** Exact keys and the fallback by name *)

Lemma filter_hit A (f : A -> bool) (l : list A) (x : A) :
  In x l -> f x = true -> exists m rest, filter f l = m :: rest.
Proof.
  induction l as [|y l IH]; simpl; intros Hin Hf; [destruct Hin|].
  destruct (f y) eqn:E; [eauto|].
  destruct Hin as [->|Hin]; [congruence | auto].
Qed.

Lemma append_inj_r (a b c : string) : (a ++ b = a ++ c)%string -> b = c.
Proof.
  induction a as [|x a IH]; simpl; intros H; [exact H|].
  inversion H. auto.
Qed.

Lemma length_lower s : String.length (lower s) = String.length s.
Proof. unfold lower. induction s as [|c s IH]; simpl; congruence. Qed.

Lemma append_inj_length (a a' b b' : string) :
  String.length a = String.length a' ->
  (a ++ b = a' ++ b')%string -> a = a' /\ b = b'.
Proof.
  revert a'. induction a as [|x a IH]; intros [|x' a'] L E;
    try discriminate L.
  - auto.
  - cbn [append] in E. inversion E. subst x'.
    destruct (IH a') as [-> ->]; auto.
Qed.

(** Two spellings of a model and a name that differ, be it by case
    only, give different keys. *)
Lemma key_of_other_spelling (m n m' n' : string) :
  lower m' = lower m ->
  m' <> m \/ n' <> n ->
  (m' ++ "::" ++ n')%string <> (m ++ "::" ++ n)%string.
Proof.
  intros Hl Hne E. apply append_inj_length in E.
  - destruct E as [Em En]. cbn [append] in En. inversion En.
    destruct Hne; contradiction.
  - rewrite <- (length_lower m'), Hl. apply length_lower.
Qed.

(** The exact key is case sensitive: an entry added under one spelling is
    not found under another spelling of its name. *)
Lemma get_add_other_spelling fs self e n' :
  n' <> relay_name e ->
  get (snd (fst (add fs self e))) (relay_model e) n'
  = get self (relay_model e) n'.
Proof.
  intros N. unfold get, add. cbn [fst snd with_entries _entries].
  apply get_set_other.
  unfold key. intros H. apply append_inj_r in H. simpl in H.
  inversion H. congruence.
Qed.

Lemma get_del_other_key (d : Dict.t AliasEntry) k k' :
  k <> k' -> Dict.get (Dict.del d k) k' = Dict.get d k'.
Proof.
  intros N. induction d as [|[k0 v0] d IH]; [reflexivity|].
  cbn [Dict.del Dict.get].
  destruct (String.eqb_spec k0 k) as [->|Hk].
  - apply String.eqb_neq in N. rewrite N. reflexivity.
  - cbn [Dict.get]. rewrite IH. reflexivity.
Qed.

(** C10, as amended. The exact-key operations compare the key text as it
    is, in the model and in the name; the fallback compares names up to
    case.  For an entry stored under its model and name, and another
    spelling of the two that differs from them by case: adding the entry
    to any store does not change what [get] finds under the other
    spelling; [remove] under the other spelling leaves the entry where
    it is; [find_standard_for] under the other spelling returns the
    standard name of the entry stored under exactly that spelling when
    there is one, and otherwise that of the first entry, in the order of
    the store, whose name equals the spelling up to case. *)
Theorem find_standard_for_case_fallback :
  forall (fs : disk) (self : AliasDatabase) (e : AliasEntry)
         (m' n' : string),
    get self (relay_model e) (relay_name e) = Some e ->
    lower m' = lower (relay_model e) ->
    lower n' = lower (relay_name e) ->
    m' <> relay_model e \/ n' <> relay_name e ->
    (forall fs0 db0,
       get (snd (fst (add fs0 db0 e))) m' n' = get db0 m' n') /\
    get (snd (fst (remove fs self m' n'))) (relay_model e) (relay_name e)
    = Some e /\
    (forall e',
       get self m' n' = Some e' ->
       find_standard_for self m' n' = Some (standard_name e')) /\
    (get self m' n' = None ->
     snd (remove fs self m' n') = Returns false /\
     exists m rest,
       find_by_relay_name self n' = m :: rest /\
       lower (relay_name m) = lower n' /\
       find_standard_for self m' n' = Some (standard_name m)).
Proof.
  intros fs self e m' n' Hget Hm Hn Hne.
  pose proof (@key_of_other_spelling (relay_model e) (relay_name e) m' n'
                Hm Hne) as K.
  split; [|split; [|split]].
  - intros fs0 db0. unfold get, add. cbn [fst snd with_entries _entries].
    apply get_set_other. unfold key. intros E. apply K. symmetry. exact E.
  - unfold remove. destruct (Dict.has (_entries self) (m' ++ "::" ++ n'));
      cbn [fst snd]; [|exact Hget].
    unfold get in *. cbn [with_entries _entries].
    rewrite get_del_other_key by exact K. exact Hget.
  - intros e' H. unfold find_standard_for. rewrite H. reflexivity.
  - intros Hmiss. split.
    + unfold remove, Dict.has. unfold get in Hmiss. rewrite Hmiss. reflexivity.
    + unfold find_standard_for. rewrite Hmiss.
      destruct (@filter_hit _
                  (fun entry => String.eqb (lower (relay_name entry)) (lower n'))
                  (Dict.values (_entries self)) e) as [m [rest Hf]].
      * unfold Dict.values. unfold get in Hget. apply get_In in Hget.
        apply (in_map snd) in Hget. exact Hget.
      * rewrite Hn. apply String.eqb_refl.
      * exists m, rest. unfold find_by_relay_name. rewrite Hf.
        repeat split.
        assert (Hin : In m (m :: rest)) by (left; reflexivity).
        rewrite <- Hf in Hin. apply filter_In in Hin.
        apply String.eqb_eq, Hin.
Qed.

Lemma find_standard_for_case_fallback_witness :
  (forall fs0 db0,
     get (snd (fst (add fs0 db0 (Samples.entry "M" "ia" "IA")))) "m" "IA"
     = get db0 "m" "IA") /\
  get (snd (fst (remove Samples.no_files Samples.one_entry_db "m" "IA")))
    "M" "ia"
  = Some (Samples.entry "M" "ia" "IA") /\
  (forall e',
     get Samples.one_entry_db "m" "IA" = Some e' ->
     find_standard_for Samples.one_entry_db "m" "IA"
     = Some (standard_name e')) /\
  (get Samples.one_entry_db "m" "IA" = None ->
   snd (remove Samples.no_files Samples.one_entry_db "m" "IA")
   = Returns false /\
   exists m rest,
     find_by_relay_name Samples.one_entry_db "IA" = m :: rest /\
     lower (relay_name m) = lower "IA" /\
     find_standard_for Samples.one_entry_db "m" "IA"
     = Some (standard_name m)).
Proof.
  apply (@find_standard_for_case_fallback Samples.no_files
           Samples.one_entry_db (Samples.entry "M" "ia" "IA") "m" "IA").
  - reflexivity.
  - reflexivity.
  - reflexivity.
  - left. simpl. discriminate.
Defined.

(** C10, as stated, fails when the other spelling is itself stored under
    the model: with [M::ia -> IA] and [M::IA -> IB] in the store, the call
    for the stored entry [ia] under the spelling [IA] hits the exact
    branch and returns [IB], not the standard name [IA] of the first
    match up to case. *)
Lemma find_standard_for_case_counterexample :
  get Samples.two_cases_db "M" "ia" = Some (Samples.entry "M" "ia" "IA") /\
  "IA" <> "ia" /\ lower "IA" = lower "ia" /\
  get Samples.two_cases_db "M" "IA" = Some (Samples.entry "M" "IA" "IB") /\
  find_standard_for Samples.two_cases_db "M" "IA" = Some "IB" /\
  option_map standard_name (hd_error (find_by_relay_name Samples.two_cases_db "IA"))
  = Some "IA".
Proof. repeat split. discriminate. Qed.

End AliasFacts.

(** ** The validator *)

Module ValidatorFacts.
Import Py Models AliasDb Validator DictFacts.

(** *** Normalization *)

Lemma sfilter_drop (p : ascii -> bool) (k : nat) (s : string) :
  sfilter p s = "" -> sfilter p (drop k s) = "".
Proof.
  revert s. induction k as [|k IH]; intros s H; [exact H|].
  destruct s as [|c s]; simpl; [reflexivity|].
  apply IH. simpl in H. destruct (p c); [discriminate | exact H].
Qed.

Lemma sfilter_complement (p : ascii -> bool) (s : string) :
  sfilter p (sfilter (fun c => negb (p c)) s) = "".
Proof.
  induction s as [|c s IH]; simpl; [reflexivity|].
  destruct (p c) eqn:E; simpl; [exact IH|]. rewrite E. exact IH.
Qed.

Lemma strip_prefix_keeps_clean n prefix :
  sfilter is_separator n = "" -> sfilter is_separator (strip_prefix n prefix) = "".
Proof.
  intros H. unfold strip_prefix.
  destruct (startswith n (remove_char "_" prefix)); [|exact H].
  apply sfilter_drop, H.
Qed.

Lemma fold_strip_prefix_keeps_clean ps n :
  sfilter is_separator n = "" ->
  sfilter is_separator (fold_left strip_prefix ps n) = "".
Proof.
  revert n. induction ps as [|p ps IH]; intros n H; simpl; [exact H|].
  apply IH, strip_prefix_keeps_clean, H.
Qed.

(** White space is a separator, so [strip] removes nothing that the
    removal of the separators would leave. *)
Lemma sfilter_lstrip (p : ascii -> bool) (s : string) :
  (forall c, is_space c = true -> p c = false) ->
  sfilter p (lstrip s) = sfilter p s.
Proof.
  intros H. induction s as [|c s IH]; [reflexivity|]. cbn [lstrip].
  destruct (is_space c) eqn:E; [|reflexivity].
  cbn [sfilter]. rewrite (H c E). exact IH.
Qed.

Lemma sfilter_rstrip (p : ascii -> bool) (s : string) :
  (forall c, is_space c = true -> p c = false) ->
  sfilter p (rstrip s) = sfilter p s.
Proof.
  intros H. induction s as [|c s IH]; [reflexivity|]. cbn [rstrip sfilter].
  destruct (rstrip s) as [|c' r'] eqn:R.
  - cbn [sfilter] in IH. rewrite <- IH.
    destruct (is_space c) eqn:E.
    + rewrite (H c E). reflexivity.
    + cbn [sfilter]. destruct (p c); reflexivity.
  - cbn [sfilter]. cbn [sfilter] in IH. rewrite IH. reflexivity.
Qed.

Lemma sfilter_append (p : ascii -> bool) (a b : string) :
  sfilter p (a ++ b) = (sfilter p a ++ sfilter p b)%string.
Proof.
  induction a as [|c a IH]; [reflexivity|]. cbn [append sfilter].
  destruct (p c); cbn [append]; rewrite IH; reflexivity.
Qed.

Lemma upper_append (a b : string) :
  upper (a ++ b) = (upper a ++ upper b)%string.
Proof.
  unfold upper. induction a as [|c a IH]; [reflexivity|].
  cbn [append smap]. rewrite IH. reflexivity.
Qed.

Lemma squeeze_upper name :
  squeeze name = sfilter (fun c => negb (is_separator c)) (upper name).
Proof.
  assert (H : forall c, is_space c = true -> negb (is_separator c) = false).
  { intros c E. unfold is_separator. rewrite E.
    rewrite !orb_true_r. reflexivity. }
  unfold squeeze, strip. rewrite sfilter_rstrip, sfilter_lstrip by exact H.
  reflexivity.
Qed.

Lemma squeeze_append (a x : string) :
  squeeze (a ++ x) = (squeeze a ++ squeeze x)%string.
Proof. rewrite !squeeze_upper, upper_append. apply sfilter_append. Qed.

Lemma _normalize_name_squeeze name :
  _normalize_name name = fold_left strip_prefix prefixes (squeeze name).
Proof. reflexivity. Qed.

(** A prefix whose letters the name does not start with cuts nothing. *)
Lemma strip_prefix_miss n prefix :
  startswith n (remove_char "_" prefix) = false -> strip_prefix n prefix = n.
Proof. unfold strip_prefix. intros ->. reflexivity. Qed.

Lemma fold_strip_prefix_miss ps n :
  forallb (fun prefix => negb (startswith n (remove_char "_" prefix))) ps = true ->
  fold_left strip_prefix ps n = n.
Proof.
  induction ps as [|q ps IH]; [reflexivity|]. cbn [forallb fold_left].
  intros H. apply andb_true_iff in H. destruct H as [Hq Hps].
  apply negb_true_iff in Hq. rewrite (strip_prefix_miss _ _ Hq). exact (IH Hps).
Qed.

Lemma forallb_skipn A (f : A -> bool) (k : nat) (l : list A) :
  forallb f l = true -> forallb f (skipn k l) = true.
Proof.
  revert l. induction k as [|k IH]; intros [|x l]; cbn [skipn forallb]; auto.
  intros H. apply andb_true_iff in H. apply IH, H.
Qed.

(** A name that begins with a prefix: its letters are cut, the prefixes
    before it in the list cut nothing, those after it are tried on what
    is left. *)
Lemma _normalize_name_prefixed (i : nat) (prefix x : string) :
  nth_error prefixes i = Some prefix ->
  _normalize_name (prefix ++ x)
  = fold_left strip_prefix (skipn (S i) prefixes) (squeeze x).
Proof.
  intros H. rewrite _normalize_name_squeeze, squeeze_append.
  unfold prefixes in *.
  do 6 (destruct i as [|i];
        [inversion H; subst prefix; destruct (squeeze x); reflexivity|]).
  destruct i; discriminate H.
Qed.

(** C6, as amended. A name that begins with one of the six prefixes
    normalizes to its remainder in upper case without separators, cut by
    the prefixes that come later in the list; when that remainder starts
    with the letters of no prefix, the prefixed name and the remainder
    normalize to the same string, the remainder in upper case without
    separators: so do [REL_IL1_MAG] and [IL1MAG].  For each prefix,
    [len(prefix) - 1] is the number of its letters, and cutting that
    many characters from a name that starts with those letters leaves
    exactly what follows them; no separator character is left in a
    normalized name. *)
Theorem normalize_prefix_canonical :
  (forall (i : nat) (prefix x : string),
     nth_error prefixes i = Some prefix ->
     _normalize_name (prefix ++ x)
     = fold_left strip_prefix (skipn (S i) prefixes) (squeeze x)) /\
  (forall prefix x : string,
     In prefix prefixes ->
     starts_clean (squeeze x) = true ->
     _normalize_name (prefix ++ x) = _normalize_name x /\
     _normalize_name x = squeeze x) /\
  (_normalize_name "REL_IL1_MAG" = _normalize_name "IL1MAG" /\
   _normalize_name "REL_IL1_MAG" = "IL1MAG") /\
  Forall (fun prefix =>
            String.length prefix - 1 = String.length (remove_char "_" prefix) /\
            forall rest : string,
              strip_prefix (remove_char "_" prefix ++ rest) prefix = rest)
    prefixes /\
  forall name : string, sfilter is_separator (_normalize_name name) = "".
Proof.
  split; [exact _normalize_name_prefixed|]. split; [|split; [|split]].
  - intros prefix x Hin Hc. apply In_nth_error in Hin. destruct Hin as [i Hi].
    assert (Hx : _normalize_name x = squeeze x).
    { rewrite _normalize_name_squeeze. apply fold_strip_prefix_miss, Hc. }
    split; [|exact Hx].
    rewrite (@_normalize_name_prefixed i prefix x Hi), Hx.
    apply fold_strip_prefix_miss, forallb_skipn, Hc.
  - split; reflexivity.
  - unfold prefixes.
    repeat (constructor;
            [split; [reflexivity | intros rest; destruct rest; reflexivity]|]).
    constructor.
  - intros name. unfold _normalize_name.
    apply fold_strip_prefix_keeps_clean, sfilter_complement.
Qed.

(** C6, as stated, fails where the remainder itself begins with the
    letters of a prefix: [SIG_REL1] normalizes to [REL1], which is not
    the normal form [1] of [REL1]; and the letters are cut from a name
    that carries no vendor prefix at all, [RELAY] giving [AY]. *)
Lemma normalize_prefix_counterexample :
  _normalize_name ("SIG_" ++ "REL1") = "REL1" /\
  _normalize_name "REL1" = "1" /\
  _normalize_name ("SIG_" ++ "REL1") <> _normalize_name "REL1" /\
  _normalize_name "RELAY" = "AY".
Proof.
  split; [reflexivity|]. split; [reflexivity|]. split; [|reflexivity].
  vm_compute. discriminate.
Qed.

(** *** The cascade *)

(** Two binary64 values that [eqb] tells apart are different. *)
Lemma float_neq (a b : float) :
  PrimFloat.eqb a a = true -> PrimFloat.eqb a b = false -> a <> b.
Proof. intros Ha Hab E. rewrite <- E in Hab. congruence. Qed.

Ltac float_clash :=
  match goal with
  | H : ?a = ?b :> float |- _ =>
      exfalso; revert H; apply float_neq; vm_compute; reflexivity
  end.


(** Recording an alias in a store that can be saved. *)
Lemma _auto_add_alias_saved fs db n std m ty auto :
  can_save db = true ->
  snd (_auto_add_alias fs db n std m ty auto) = Returns tt.
Proof.
  intros H. unfold _auto_add_alias. rewrite AliasFacts.add_saved by exact H.
  reflexivity.
Qed.



(** C3, as amended. A tier-1 resolution in a store that can be saved
    writes, under the key [(relay_model, name)], an entry that maps the
    name to itself, with the auto-detected flag set and the validated
    flag clear ([validated = not auto]); the store is saved to its
    backing file, and the result is returned. *)
Theorem exact_match_records_alias :
  forall (fs : disk) (db : AliasDatabase)
         (xrio_name relay_model signal_type : string)
         (cfg : option ComtradeConfig),
    exact_match xrio_name = true ->
    can_save db = true ->
    let out := _validate_signal fs db xrio_name relay_model signal_type cfg in
    (exists r, snd out = Returns r /\ match_type r = "exact") /\
    get (snd (fst out)) relay_model xrio_name
    = Some {| relay_name := xrio_name; standard_name := xrio_name;
              Models.relay_model := relay_model;
              alias_signal_type := signal_type;
              function := value (Xrio.classify_signal_function xrio_name);
              auto_detected := true; validated := false |} /\
    fst (fst out) (_db_path db)
    = Some (Json.Document (entries_to_json (_entries (snd (fst out))))).
Proof.
  intros fs db xrio_name relay_model signal_type cfg H Hs out. subst out.
  unfold _validate_signal. rewrite H. cbn [fst snd].
  rewrite _auto_add_alias_saved by exact Hs.
  unfold _auto_add_alias. rewrite AliasFacts.add_saved by exact Hs.
  cbn [fst snd bind]. split; [|split].
  - eexists. split; reflexivity.
  - unfold get, key. cbn [with_entries _entries Models.relay_model
                            Models.relay_name].
    apply get_set_same.
  - cbn [with_entries _entries]. apply AliasFacts.write_read.
Qed.

Lemma exact_match_records_alias_witness :
  (exists r,
     snd (_validate_signal Samples.no_files Samples.empty_db
            "IA" "M" "analog" None) = Returns r /\
     match_type r = "exact") /\
  get (snd (fst (_validate_signal Samples.no_files Samples.empty_db
                   "IA" "M" "analog" None))) "M" "IA"
  = Some {| relay_name := "IA"; standard_name := "IA";
            Models.relay_model := "M"; alias_signal_type := "analog";
            function := value (Xrio.classify_signal_function "IA");
            auto_detected := true; validated := false |} /\
  fst (fst (_validate_signal Samples.no_files Samples.empty_db
              "IA" "M" "analog" None)) (_db_path Samples.empty_db)
  = Some (Json.Document
            (entries_to_json
               (_entries (snd (fst (_validate_signal Samples.no_files
                                      Samples.empty_db "IA" "M" "analog"
                                      None)))))).
Proof.
  apply (@exact_match_records_alias Samples.no_files Samples.empty_db
           "IA" "M" "analog" None).
  - reflexivity.
  - reflexivity.
Defined.

(** C3, as stated, fails: the tier-1 resolution of [IA] returns its
    result, and the entry it leaves under [(M, IA)] is auto-detected and
    is not validated. *)
Lemma exact_match_validated_counterexample :
  exact_match "IA" = true /\
  (exists r,
     snd (_validate_signal Samples.no_files Samples.empty_db
            "IA" "M" "analog" None) = Returns r /\
     match_type r = "exact") /\
  exists e,
    get (snd (fst (_validate_signal Samples.no_files Samples.empty_db
                     "IA" "M" "analog" None))) "M" "IA" = Some e /\
    auto_detected e = true /\ validated e = false.
Proof.
  split; [reflexivity|]. split.
  - eexists. split; reflexivity.
  - eexists. repeat split.
Qed.

(** C4. A resolution at tier 4 or 5 (no exact match, no alias, no match
    in a loaded configuration) returns, and leaves the alias store and
    its backing file as they were; seen from the result: confidence 0.5
    with match type [fuzzy], or match type [new], implies an unchanged
    store.  In particular a name that nothing recognizes, without
    configuration and without alias, gives [new] with confidence 0.0 and
    no mutation. *)
Theorem lower_tiers_leave_store :
  forall (fs : disk) (db : AliasDatabase)
         (xrio_name relay_model signal_type : string)
         (cfg : option ComtradeConfig),
    let out := _validate_signal fs db xrio_name relay_model signal_type cfg in
    (exact_match xrio_name = false ->
     alias_hit db relay_model xrio_name = None ->
     config_hit cfg xrio_name signal_type = None ->
     fst out = (fs, db) /\ exists r, snd out = Returns r) /\
    (forall r,
       snd out = Returns r ->
       (match_type r = "fuzzy" /\ confidence r = 0.5%float) \/
       match_type r = "new" ->
       fst out = (fs, db)) /\
    (exact_match xrio_name = false ->
     find_standard_for db relay_model xrio_name = None ->
     cfg = None ->
     _heuristic_match xrio_name signal_type = None ->
     exists r,
       snd out = Returns r /\
       match_type r = "new" /\ confidence r = 0.0%float /\
       fst out = (fs, db)).
Proof.
  intros fs db xrio_name relay_model signal_type cfg out. subst out.
  unfold _validate_signal. split; [|split].
  - intros -> -> ->.
    destruct (_heuristic_match xrio_name signal_type); cbn [fst snd];
      (split; [reflexivity | eexists; reflexivity]).
  - intros r.
    destruct (exact_match xrio_name); cbn [fst snd].
    { destruct (snd (_auto_add_alias _ _ _ _ _ _ _)); cbn [bind];
        intros E; inversion E; subst r; cbn.
      intros [[H _]|H]; discriminate. }
    destruct (alias_hit db relay_model xrio_name); cbn [fst snd].
    { intros E; inversion E; subst r; cbn.
      intros [[H _]|H]; discriminate. }
    destruct (config_hit cfg xrio_name signal_type); cbn [fst snd].
    { destruct (snd (_auto_add_alias _ _ _ _ _ _ _)); cbn [bind];
        intros E; inversion E; subst r; cbn.
      intros [[_ H]|H]; [float_clash | discriminate]. }
    destruct (_heuristic_match xrio_name signal_type); reflexivity.
  - intros -> Ha -> ->. unfold alias_hit. rewrite Ha. cbn.
    eexists. split; [reflexivity|]. auto.
Qed.

Lemma lower_tiers_leave_store_witness :
  exists r,
    snd (_validate_signal Samples.no_files Samples.two_cases_db
           "XYZ123" "M" "analog" None) = Returns r /\
    match_type r = "new" /\ confidence r = 0.0%float /\
    fst (_validate_signal Samples.no_files Samples.two_cases_db
           "XYZ123" "M" "analog" None)
    = (Samples.no_files, Samples.two_cases_db).
Proof.
  apply (proj2 (proj2 (@lower_tiers_leave_store Samples.no_files
                         Samples.two_cases_db "XYZ123" "M" "analog" None)));
    reflexivity.
Defined.

End ValidatorFacts.

(** ** Disturbance-report extraction *)

Module XrioFacts.
Import Py Models Xrio DictFacts.

(** The test of step 3: a [NAME<n>] key, plain or zero-padded. *)
Lemma channel_signal_named params_map block_name i :
  channel_signal params_map block_name i <> [] <->
  Dict.has params_map ("NAME" ++ str_nat i) = true \/
  Dict.has params_map ("NAME" ++ str_nat_02d i) = true.
Proof.
  unfold channel_signal, Dict.has.
  destruct (Dict.get params_map ("NAME" ++ str_nat i)) as [p|] eqn:E1;
    cbv beta iota zeta delta [negb].
  - rewrite E1. split; [auto | discriminate].
  - destruct (Dict.get params_map ("NAME" ++ str_nat_02d i)) as [p|] eqn:E2.
    + split; [auto | discriminate].
    + split; [congruence | intros [H|H]; discriminate].
Qed.

Lemma channel_signal_channel params_map block_name i sig :
  In sig (channel_signal params_map block_name i) ->
  channel sig = i /\ block sig = block_name.
Proof.
  unfold channel_signal.
  destruct (Dict.get params_map _) as [p|]; simpl; [|tauto].
  intros [<-|[]]. auto.
Qed.

(** The target blocks are the [Block] elements with [Id="ID_GENERAL"]
    whose parent names a [B<digits>RBDR] block, in its [Id] or else in its
    [Name]; the block name is the text matched. *)
Lemma target_blocks_are_general_blocks root target_block block_name :
  In (target_block, block_name) (target_blocks root) ->
  _clean_tag (tag_of target_block) = "Block" /\
  Dict.get (attrib_of target_block) "Id" = Some "ID_GENERAL" /\
  exists parent,
    In (Some parent, target_block) (iter_from None root) /\
    (search_rbdr (match Dict.get (attrib_of parent) "Id" with
                  | Some v => v
                  | None => ""
                  end) = Some block_name \/
     search_rbdr (_get_text parent "Name" "") = Some block_name).
Proof.
  unfold target_blocks. intros H. apply in_flat_map in H.
  destruct H as [[parent elem] [Hit Hin]]. unfold target_of in Hin.
  destruct (String.eqb (_clean_tag (tag_of elem)) "Block") eqn:Et;
    cbn [andb] in Hin; [|contradiction].
  destruct (Dict.get (attrib_of elem) "Id") as [v|] eqn:Ei; [|contradiction].
  destruct (String.eqb v "ID_GENERAL") eqn:Ev; [|contradiction].
  destruct parent as [parent|]; [|contradiction].
  apply String.eqb_eq in Et, Ev. subst v.
  set (p_id := match Dict.get (attrib_of parent) "Id" with
               | Some v => v
               | None => ""
               end) in *.
  assert (Hfound :
    forall found, In (target_block, block_name)
                    (match found with
                     | Some b => [(elem, b)]
                     | None => []
                     end) ->
                  target_block = elem /\ found = Some block_name).
  { intros [b|] Hb; simpl in Hb; [|contradiction].
    destruct Hb as [Hb|[]]. inversion Hb. auto. }
  apply Hfound in Hin. destruct Hin as [-> Hf].
  repeat split; auto. exists parent. split; [exact Hit|].
  destruct (truthy p_id).
  - destruct (search_rbdr p_id) as [b|] eqn:Es;
      [left; fold p_id; rewrite Es; exact Hf|].
    destruct (truthy (_get_text parent "Name" "")); [right; exact Hf|].
    discriminate.
  - destruct (truthy (_get_text parent "Name" "")); [right; exact Hf|].
    discriminate.
Qed.

(** C9. For a target block (an [ID_GENERAL] block whose parent matches
    [B<digits>RBDR]) and a channel index [n] of 1..96, the extraction
    emits a signal of that block for channel [n] exactly when the
    parameter map of the block has the key [NAME<n>], plain or
    zero-padded; every signal emitted for the block is in the result of
    the extraction and carries a channel of 1..96. *)
Theorem disturbance_channel_iff_name :
  forall (root target_block : element) (block_name : string) (n : nat),
    In (target_block, block_name) (target_blocks root) ->
    1 <= n <= 96 ->
    let params_map := params_of target_block in
    ((exists sig,
        In sig (block_signals params_map block_name) /\ channel sig = n)
     <-> (Dict.has params_map ("NAME" ++ str_nat n) = true \/
          Dict.has params_map ("NAME" ++ str_nat_02d n) = true)) /\
    (forall sig,
       In sig (block_signals params_map block_name) ->
       In sig (_extract_disturbance_report_signals (Some root)) /\
       1 <= channel sig <= 96 /\ block sig = block_name).
Proof.
  intros root target_block block_name n Htb Hn params_map. split.
  - rewrite <- (channel_signal_named params_map block_name n).
    unfold block_signals. split.
    + intros [sig [Hin Hc]]. apply in_flat_map in Hin.
      destruct Hin as [i [_ Hi]].
      destruct (channel_signal_channel _ _ _ _ Hi) as [Hch _].
      assert (i = n) by congruence. subst i.
      intros E. rewrite <- Hc in E. rewrite E in Hi. destruct Hi.
    + intros Hne.
      destruct (channel_signal params_map block_name n) as [|sig l] eqn:E;
        [congruence|].
      exists sig. split.
      * apply in_flat_map. exists n. split; [apply in_seq; lia|].
        rewrite E. left. reflexivity.
      * eapply channel_signal_channel. rewrite E. left. reflexivity.
  - intros sig Hin. split; [|split].
    + simpl. apply in_flat_map. exists (target_block, block_name).
      split; [exact Htb | exact Hin].
    + unfold block_signals in Hin. apply in_flat_map in Hin.
      destruct Hin as [i [Hi Hs]]. apply in_seq in Hi.
      apply channel_signal_channel in Hs. lia.
    + unfold block_signals in Hin. apply in_flat_map in Hin.
      destruct Hin as [i [_ Hs]]. apply channel_signal_channel in Hs. tauto.
Qed.

Lemma disturbance_channel_iff_name_witness :
  ((exists sig,
      In sig (block_signals (params_of Samples.general_block) "B1RBDR") /\
      channel sig = 2)
   <-> (Dict.has (params_of Samples.general_block) ("NAME" ++ str_nat 2) = true \/
        Dict.has (params_of Samples.general_block) ("NAME" ++ str_nat_02d 2)
        = true)) /\
  (forall sig,
     In sig (block_signals (params_of Samples.general_block) "B1RBDR") ->
     In sig (_extract_disturbance_report_signals (Some Samples.report_document)) /\
     1 <= channel sig <= 96 /\ block sig = "B1RBDR").
Proof.
  apply (@disturbance_channel_iff_name Samples.report_document
           Samples.general_block "B1RBDR" 2).
  - vm_compute. left. reflexivity.
  - lia.
Defined.

(** The sample document: channels 1, 2 and 10 are emitted, channel 2 from
    the zero-padded key, channel 10 with an empty name. *)
Example report_document_signals :
  map (fun sig => (channel sig, dr_name sig, trig_operation sig, block sig))
    (_extract_disturbance_report_signals (Some Samples.report_document))
  = [(1, "TRIP", "On", "B1RBDR"); (2, "CLOSE", "", "B1RBDR");
     (10, "", "", "B1RBDR")].
Proof. reflexivity. Qed.

End XrioFacts.

(** ** The alias store: further properties *)

Module AliasExtra.
Import Py Models Json AliasDb DictFacts AliasFacts.

Section DictMore.
Variable V : Type.
Implicit Types (d : Dict.t V) (k : string) (v : V).

Lemma length_set d k v :
  length (Dict.set d k v) = if Dict.has d k then length d else S (length d).
Proof.
  unfold Dict.has. induction d as [|[k' v'] d IH]; simpl; [reflexivity|].
  destruct (String.eqb k' k); simpl; [reflexivity|].
  rewrite IH. destruct (Dict.get d k); reflexivity.
Qed.

Lemma set_absent d k v :
  ~ In k (Dict.keys d) -> Dict.set d k v = (d ++ [(k, v)])%list.
Proof.
  induction d as [|[k' v'] d IH]; simpl; intros H; [reflexivity|].
  destruct (String.eqb k' k) eqn:E.
  - apply String.eqb_eq in E. tauto.
  - rewrite IH; tauto.
Qed.

Lemma get_del_same d k :
  NoDup (Dict.keys d) -> Dict.get (Dict.del d k) k = None.
Proof.
  induction d as [|[k' v'] d IH]; simpl; intros ND; [reflexivity|].
  inversion ND as [|? ? Hn ND']; subst.
  destruct (String.eqb k' k) eqn:E; simpl.
  - apply String.eqb_eq in E. subst k'.
    destruct (Dict.get d k) as [v|] eqn:G; [|reflexivity].
    exfalso. apply Hn. apply get_In in G. apply (in_map fst) in G. exact G.
  - rewrite E. auto.
Qed.

Lemma get_del_other d k k' :
  k <> k' -> Dict.get (Dict.del d k) k' = Dict.get d k'.
Proof.
  intros N. induction d as [|[k0 v0] d IH]; simpl; [reflexivity|].
  destruct (String.eqb k0 k) eqn:E; simpl.
  - apply String.eqb_eq in E. subst k0.
    apply String.eqb_neq in N. rewrite N. reflexivity.
  - rewrite IH. reflexivity.
Qed.

Lemma length_del d k :
  length (Dict.del d k) = if Dict.has d k then pred (length d) else length d.
Proof.
  unfold Dict.has. induction d as [|[k' v'] d IH]; simpl; [reflexivity|].
  destruct (String.eqb k' k); simpl; [reflexivity|].
  rewrite IH. destruct (Dict.get d k) eqn:G; [|reflexivity].
  destruct d; [discriminate | reflexivity].
Qed.

Lemma In_del d k kv : In kv (Dict.del d k) -> In kv d.
Proof.
  induction d as [|[k' v'] d IH]; simpl; [tauto|].
  destruct (String.eqb k' k); simpl; [tauto|]. intros [H|H]; auto.
Qed.

Lemma keys_del_incl d k : incl (Dict.keys (Dict.del d k)) (Dict.keys d).
Proof.
  intros x Hx. apply in_map_iff in Hx. destruct Hx as [kv [<- H]].
  apply in_map. eapply In_del. exact H.
Qed.

Lemma NoDup_del d k : NoDup (Dict.keys d) -> NoDup (Dict.keys (Dict.del d k)).
Proof.
  induction d as [|[k' v'] d IH]; simpl; intros ND; [constructor|].
  inversion ND as [|? ? Hn ND']; subst.
  destruct (String.eqb k' k); simpl; [assumption|].
  constructor; [|auto]. intros H. apply Hn. eapply keys_del_incl. exact H.
Qed.

End DictMore.

(** X1. Insert, then look up: after [add(entry)], [get] under the key of
    the entry returns that entry (the last write wins), and [get] under
    any other key returns what it returned before. *)
Theorem get_after_add :
  forall (fs : disk) (self : AliasDatabase) (entry : AliasEntry)
         (relay_model relay_name : string),
    get (snd (fst (add fs self entry))) relay_model relay_name
    = if String.eqb (key entry) (relay_model ++ "::" ++ relay_name)
      then Some entry
      else get self relay_model relay_name.
Proof.
  intros fs self entry m n. unfold get, add, with_entries.
  cbn [fst snd _entries].
  destruct (String.eqb (key entry) (m ++ "::" ++ n)) eqn:E.
  - apply String.eqb_eq in E. rewrite <- E. apply get_set_same.
  - apply String.eqb_neq in E. apply get_set_other. exact E.
Qed.

(** X2. In a store that can be saved, [add] returns; it reports a new
    key exactly when [get] found nothing under the key of the entry, and
    then the count grows by one; adding the same entry again reports
    [False] and leaves the store as the first call left it. *)
Theorem add_twice :
  forall (fs : disk) (self : AliasDatabase) (entry : AliasEntry),
    can_save self = true ->
    let first := add fs self entry in
    let second := add (fst (fst first)) (snd (fst first)) entry in
    exists is_new,
      snd first = Returns is_new /\
      (is_new = true
       <-> get self (Models.relay_model entry) (Models.relay_name entry) = None) /\
      count (snd (fst first))
      = (if is_new then S (count self) else count self) /\
      snd second = Returns false /\
      snd (fst second) = snd (fst first).
Proof.
  intros fs self entry Hs first second. subst first second.
  rewrite (@add_saved fs self entry Hs). cbn [fst snd].
  rewrite add_present.
  - exists (negb (Dict.has (_entries self) (key entry))).
    split; [reflexivity|]. cbn [fst snd].
    unfold get, count, Dict.has, with_entries. cbn [_entries].
    rewrite length_set. unfold Dict.has, key.
    destruct (Dict.get (_entries self) _); cbn [negb]; repeat split;
      intros; congruence.
  - exact Hs.
  - cbn [with_entries _entries]. apply get_set_same.
Qed.

Lemma add_twice_witness :
  exists is_new,
    snd (add Samples.no_files Samples.one_entry_db (Samples.entry "M" "IA" "IB"))
    = Returns is_new /\
    (is_new = true <-> get Samples.one_entry_db "M" "IA" = None) /\
    count (snd (fst (add Samples.no_files Samples.one_entry_db
                       (Samples.entry "M" "IA" "IB"))))
    = (if is_new then S (count Samples.one_entry_db)
       else count Samples.one_entry_db) /\
    snd (add (fst (fst (add Samples.no_files Samples.one_entry_db
                          (Samples.entry "M" "IA" "IB"))))
           (snd (fst (add Samples.no_files Samples.one_entry_db
                        (Samples.entry "M" "IA" "IB"))))
           (Samples.entry "M" "IA" "IB"))
    = Returns false /\
    snd (fst (add (fst (fst (add Samples.no_files Samples.one_entry_db
                               (Samples.entry "M" "IA" "IB"))))
                (snd (fst (add Samples.no_files Samples.one_entry_db
                             (Samples.entry "M" "IA" "IB"))))
                (Samples.entry "M" "IA" "IB")))
    = snd (fst (add Samples.no_files Samples.one_entry_db
                  (Samples.entry "M" "IA" "IB"))).
Proof.
  apply (@add_twice Samples.no_files Samples.one_entry_db
           (Samples.entry "M" "IA" "IB")).
  reflexivity.
Defined.

(** X3. In a store that can be saved, [remove] returns [True] exactly
    when the key was present; then the key is gone, the count drops by
    one and the store is saved.  Other keys are untouched, and removing
    an absent key changes neither the store nor the disk. *)
Theorem remove_spec :
  forall (fs : disk) (self : AliasDatabase) (relay_model relay_name : string),
    NoDup (Dict.keys (_entries self)) ->
    can_save self = true ->
    let out := remove fs self relay_model relay_name in
    exists removed,
      snd out = Returns removed /\
      (removed = true <-> get self relay_model relay_name <> None) /\
      get (snd (fst out)) relay_model relay_name = None /\
      (forall m n,
         (relay_model ++ "::" ++ relay_name <> m ++ "::" ++ n)%string ->
         get (snd (fst out)) m n = get self m n) /\
      count (snd (fst out))
      = (if removed then pred (count self) else count self) /\
      (removed = true ->
       fst (fst out) (_db_path self)
       = Some (Document (entries_to_json (_entries (snd (fst out)))))) /\
      (removed = false -> fst out = (fs, self)).
Proof.
  intros fs self m n ND Hs out. subst out.
  unfold remove, get, count, Dict.has.
  destruct (Dict.get (_entries self) (m ++ "::" ++ n)) as [e|] eqn:G.
  - rewrite save_writes by exact Hs. cbn [fst snd bind].
    exists true. unfold with_entries. cbn [_entries _db_path].
    split; [reflexivity|]. repeat split; try congruence.
    + apply get_del_same, ND.
    + intros m' n' N. apply get_del_other, N.
    + rewrite length_del. unfold Dict.has. rewrite G. reflexivity.
    + intros _. apply write_read.
  - exists false. cbn [fst snd]. split; [reflexivity|].
    repeat split; try congruence; tauto.
Qed.

Lemma remove_spec_witness :
  exists removed,
    snd (remove Samples.no_files Samples.two_cases_db "M" "ia")
    = Returns removed /\
    (removed = true <-> get Samples.two_cases_db "M" "ia" <> None) /\
    get (snd (fst (remove Samples.no_files Samples.two_cases_db "M" "ia")))
      "M" "ia" = None /\
    (forall m n,
       ("M" ++ "::" ++ "ia" <> m ++ "::" ++ n)%string ->
       get (snd (fst (remove Samples.no_files Samples.two_cases_db "M" "ia"))) m n
       = get Samples.two_cases_db m n) /\
    count (snd (fst (remove Samples.no_files Samples.two_cases_db "M" "ia")))
    = (if removed then pred (count Samples.two_cases_db)
       else count Samples.two_cases_db) /\
    (removed = true ->
     fst (fst (remove Samples.no_files Samples.two_cases_db "M" "ia"))
       (_db_path Samples.two_cases_db)
     = Some (Document
               (entries_to_json
                  (_entries (snd (fst (remove Samples.no_files
                                         Samples.two_cases_db "M" "ia"))))))) /\
    (removed = false ->
     fst (remove Samples.no_files Samples.two_cases_db "M" "ia")
     = (Samples.no_files, Samples.two_cases_db)).
Proof.
  apply (@remove_spec Samples.no_files Samples.two_cases_db "M" "ia").
  - simpl. repeat constructor; simpl; intuition discriminate.
  - reflexivity.
Defined.

Lemma store_ok_remove fs self m n :
  store_ok self -> store_ok (snd (fst (remove fs self m n))).
Proof.
  intros [ND KE]. unfold remove.
  destruct (Dict.has (_entries self) (m ++ "::" ++ n)); [|split; assumption].
  unfold store_ok, with_entries. cbn [fst snd _entries]. split.
  - apply NoDup_del, ND.
  - rewrite Forall_forall in *. intros kv H. apply KE. eapply In_del. exact H.
Qed.

Lemma import_loop_store_ok its :
  forall fs self n,
    store_ok self -> store_ok (snd (fst (import_loop its fs self n))).
Proof.
  induction its as [|[k data] its IH]; intros fs self n Hok;
    cbn [import_loop]; [exact Hok|].
  destruct (AliasEntry_kwargs data) as [e|x|]; [|exact Hok|].
  - pose proof (@store_ok_add fs self e Hok) as A.
    destruct (snd (add fs self e)); cbn [fst snd]; [apply IH|..]; exact A.
  - cbn [fst snd]. apply IH, Hok.
Qed.

(** X4. The invariant of the store (no key twice, every entry under its
    own key [relay_model::relay_name]) holds for the empty store and is
    kept by [add], [remove], [clear] and by every import that returns. *)
Theorem store_ok_preserved :
  forall (fs : disk) (self : AliasDatabase),
    store_ok self ->
    (forall entry, store_ok (snd (fst (add fs self entry)))) /\
    (forall relay_model relay_name,
       store_ok (snd (fst (remove fs self relay_model relay_name)))) /\
    store_ok (snd (fst (clear fs self))) /\
    (forall file_path n,
       snd (import_from_json fs self file_path) = Returns n ->
       store_ok (snd (fst (import_from_json fs self file_path)))).
Proof.
  intros fs self Hok. split; [|split; [|split]].
  - intros entry. apply store_ok_add, Hok.
  - intros m n. apply store_ok_remove, Hok.
  - split; constructor.
  - intros file_path n _. unfold import_from_json.
    destruct (fs file_path) as [content|]; [|exact Hok].
    destruct (raw <- Json.load content ;; Json.items raw) as [its| |];
      [|exact Hok..].
    apply import_loop_store_ok, Hok.
Qed.

Lemma store_ok_preserved_witness :
  (forall entry,
     store_ok (snd (fst (add Samples.no_files Samples.two_cases_db entry)))) /\
  (forall relay_model relay_name,
     store_ok (snd (fst (remove Samples.no_files Samples.two_cases_db
                           relay_model relay_name)))) /\
  store_ok (snd (fst (clear Samples.no_files Samples.two_cases_db))) /\
  (forall file_path n,
     snd (import_from_json Samples.no_files Samples.two_cases_db file_path)
     = Returns n ->
     store_ok (snd (fst (import_from_json Samples.no_files
                           Samples.two_cases_db file_path)))).
Proof.
  apply (@store_ok_preserved Samples.no_files Samples.two_cases_db).
  split.
  - simpl. repeat constructor; simpl; intuition discriminate.
  - simpl. repeat constructor.
Defined.

(** *** The backing file *)

Lemma keys_app (d1 d2 : Dict.t AliasEntry) :
  Dict.keys (d1 ++ d2)%list = (Dict.keys d1 ++ Dict.keys d2)%list.
Proof. apply map_app. Qed.

Lemma load_loop_append rest acc :
  NoDup (Dict.keys (acc ++ rest)%list) ->
  load_loop (map (fun kv => (fst kv, entry_to_json (snd kv))) rest) acc
  = Returns (acc ++ rest)%list.
Proof.
  revert acc. induction rest as [|[k e] rest IH]; intros acc ND;
    cbn [load_loop map fst snd].
  - rewrite app_nil_r. reflexivity.
  - rewrite AliasEntry_kwargs_to_json.
    assert (Hk : ~ In k (Dict.keys acc)).
    { rewrite keys_app in ND. simpl in ND. apply NoDup_remove_2 in ND.
      intros H. apply ND. apply in_or_app. left. exact H. }
    rewrite (@set_absent _ acc k e Hk).
    rewrite IH; rewrite <- app_assoc; [reflexivity | exact ND].
Qed.

(** X5. What [save] writes, [_load] reads back: for a store that can be
    saved, [save] returns, and constructing a store on the backing file
    gives the saved store, entries and order included; in particular
    after every [add] the file on disk reloads to the store in memory. *)
Theorem save_load_roundtrip :
  forall (fs : disk) (self : AliasDatabase),
    NoDup (Dict.keys (_entries self)) ->
    can_save self = true ->
    snd (save fs self) = Returns tt /\
    AliasDatabase_new (fst (save fs self)) (_db_path self) = Returns self /\
    (forall entry,
       snd (add fs self entry)
       = Returns (negb (Dict.has (_entries self) (key entry))) /\
       AliasDatabase_new (fst (fst (add fs self entry))) (_db_path self)
       = Returns (snd (fst (add fs self entry)))).
Proof.
  assert (R : forall fs self,
             NoDup (Dict.keys (_entries self)) ->
             can_save self = true ->
             AliasDatabase_new (fst (save fs self)) (_db_path self)
             = Returns self).
  { intros fs [path entries] ND Hs. rewrite save_writes by exact Hs.
    unfold AliasDatabase_new, _load.
    cbn [fst _db_path _entries]. rewrite write_read.
    unfold Json.load, Json.items, entries_to_json, Dict.items.
    cbn [bind]. rewrite (load_loop_append entries (Dict.empty AliasEntry) ND).
    reflexivity. }
  intros fs self ND Hs. split; [|split].
  - rewrite save_writes by exact Hs. reflexivity.
  - apply R; assumption.
  - intros entry. split; [rewrite add_saved by exact Hs; reflexivity|].
    unfold add. cbn [fst snd].
    apply (R fs (with_entries self (Dict.set (_entries self) (key entry) entry))).
    + apply NoDup_set, ND.
    + exact Hs.
Qed.

Lemma save_load_roundtrip_witness :
  snd (save Samples.no_files Samples.two_cases_db) = Returns tt /\
  AliasDatabase_new (fst (save Samples.no_files Samples.two_cases_db))
    (_db_path Samples.two_cases_db) = Returns Samples.two_cases_db /\
  (forall entry,
     snd (add Samples.no_files Samples.two_cases_db entry)
     = Returns (negb (Dict.has (_entries Samples.two_cases_db) (key entry))) /\
     AliasDatabase_new
       (fst (fst (add Samples.no_files Samples.two_cases_db entry)))
       (_db_path Samples.two_cases_db)
     = Returns (snd (fst (add Samples.no_files Samples.two_cases_db entry)))).
Proof.
  apply (@save_load_roundtrip Samples.no_files Samples.two_cases_db).
  - simpl. repeat constructor; simpl; intuition discriminate.
  - reflexivity.
Defined.

(** *** Import *)

(** What [add] returns, when it returns. *)
Lemma add_returns fs self e b :
  snd (add fs self e) = Returns b ->
  b = negb (Dict.has (_entries self) (key e)).
Proof.
  unfold add. cbn [snd].
  destruct (snd (save fs _)); cbn [bind]; intros H; inversion H. reflexivity.
Qed.

Lemma import_loop_count its :
  forall fs self n n',
    snd (import_loop its fs self n) = Returns n' ->
    (n' - n
     = Z.of_nat (count (snd (fst (import_loop its fs self n))))
       - Z.of_nat (count self))%Z /\
    incl (Dict.keys (_entries self))
      (Dict.keys (_entries (snd (fst (import_loop its fs self n))))) /\
    (0 <= n' - n <= Z.of_nat (length its))%Z.
Proof.
  induction its as [|[k data] its IH]; intros fs self n n';
    cbn [import_loop].
  - cbn [fst snd]. intros H. inversion H. subst.
    repeat split; try lia. apply incl_refl.
  - destruct (AliasEntry_kwargs data) as [e|x|]; [|discriminate|].
    + destruct (snd (add fs self e)) as [is_new| |] eqn:A; try discriminate.
      apply add_returns in A. intros H. apply IH in H.
      destruct H as [Hc [Hi Hb]].
      remember (snd (fst (import_loop its (fst (fst (add fs self e)))
                            (snd (fst (add fs self e)))
                            (if is_new then (n + 1)%Z else n)))) as self'.
      unfold add in Hc, Hi. cbn [fst snd] in Hc, Hi.
      unfold with_entries, count in *. cbn [_entries] in Hc, Hi.
      rewrite length_set in Hc. rewrite keys_set in Hi.
      subst is_new.
      destruct (Dict.has (_entries self) (key e)); cbn [negb] in *;
        cbn [length]; repeat split; try lia; try assumption.
      intros x Hx. apply Hi. apply in_or_app. left. exact Hx.
    + cbn [fst snd].
      destruct (snd (import_loop its fs self n)); discriminate.
Qed.

(** X6. When [import_from_json] returns, the count it returns is the
    number of keys the import added: the size of the store after, minus
    the size before.  It is at most the number of records of the file,
    and no key of the store is lost. *)
Theorem import_count_is_growth :
  forall (fs : disk) (self : AliasDatabase) (file_path : string) (n : Z),
    snd (import_from_json fs self file_path) = Returns n ->
    let self' := snd (fst (import_from_json fs self file_path)) in
    n = (Z.of_nat (count self') - Z.of_nat (count self))%Z /\
    (0 <= n)%Z /\
    incl (Dict.keys (_entries self)) (Dict.keys (_entries self')) /\
    (forall its, fs file_path = Some (Document (JObj its)) ->
                 (n <= Z.of_nat (length its))%Z).
Proof.
  intros fs self file_path n H self'. subst self'.
  unfold import_from_json in *.
  destruct (fs file_path) as [content|] eqn:F; [|discriminate].
  destruct (raw <- Json.load content ;; Json.items raw) as [its| |] eqn:L;
    try discriminate.
  apply import_loop_count in H.
  destruct H as [Hc [Hi Hb]]. repeat split; try lia; try assumption.
  intros its' E. inversion E. subst content. simpl in L. inversion L.
  subst. lia.
Qed.

Lemma import_count_is_growth_witness :
  snd (import_from_json
         (fst (export_to_json Samples.edited_disk Samples.edited_db
                 "export.json"))
         Samples.edited_db "export.json") = Returns 1%Z /\
  1%Z
  = (Z.of_nat
       (count (snd (fst (import_from_json
                           (fst (export_to_json Samples.edited_disk
                                   Samples.edited_db "export.json"))
                           Samples.edited_db "export.json"))))
     - Z.of_nat (count Samples.edited_db))%Z /\
  (0 <= 1)%Z /\
  incl (Dict.keys (_entries Samples.edited_db))
    (Dict.keys
       (_entries (snd (fst (import_from_json
                              (fst (export_to_json Samples.edited_disk
                                      Samples.edited_db "export.json"))
                              Samples.edited_db "export.json"))))).
Proof.
  split; [reflexivity|].
  destruct (@import_count_is_growth
              (fst (export_to_json Samples.edited_disk Samples.edited_db
                      "export.json"))
              Samples.edited_db "export.json" 1%Z eq_refl)
    as [H1 [H2 [H3 _]]].
  repeat split; assumption.
Defined.




End AliasExtra.

(** ** Case mapping *)

Module PyExtra.
Import Py.

Lemma upper_char_idem c : upper_char (upper_char c) = upper_char c.
Proof. destruct c as [[] [] [] [] [] [] [] []]; reflexivity. Qed.

Lemma lower_upper_char c : lower_char (upper_char c) = lower_char c.
Proof. destruct c as [[] [] [] [] [] [] [] []]; reflexivity. Qed.

Lemma upper_lower_char c : upper_char (lower_char c) = upper_char c.
Proof. destruct c as [[] [] [] [] [] [] [] []]; reflexivity. Qed.

Lemma lower_char_idem c : lower_char (lower_char c) = lower_char c.
Proof. destruct c as [[] [] [] [] [] [] [] []]; reflexivity. Qed.

Lemma smap_smap f g s : smap f (smap g s) = smap (fun c => f (g c)) s.
Proof. induction s as [|c s IH]; simpl; congruence. Qed.

Lemma smap_ext f g s : (forall c, f c = g c) -> smap f s = smap g s.
Proof. intros H. induction s as [|c s IH]; simpl; congruence. Qed.

Lemma upper_idem s : upper (upper s) = upper s.
Proof. unfold upper. rewrite smap_smap. apply smap_ext, upper_char_idem. Qed.

Lemma lower_upper s : lower (upper s) = lower s.
Proof. unfold upper, lower. rewrite smap_smap. apply smap_ext, lower_upper_char. Qed.

Lemma upper_lower s : upper (lower s) = upper s.
Proof. unfold upper, lower. rewrite smap_smap. apply smap_ext, upper_lower_char. Qed.

Lemma lower_idem s : lower (lower s) = lower s.
Proof. unfold lower. rewrite smap_smap. apply smap_ext, lower_char_idem. Qed.

Lemma prefix_empty s : String.prefix "" s = true.
Proof. destruct s; reflexivity. Qed.

Lemma contains_empty s : contains s "" = true.
Proof. destruct s; reflexivity. Qed.

Lemma contains_char a r c :
  contains (String a r) (String c "")
  = Ascii.eqb a c || contains r (String c "").
Proof.
  cbn [contains String.prefix].
  destruct (Ascii.eqb_spec a c) as [->|N].
  - destruct (ascii_dec c c) as [_|N]; [|congruence].
    rewrite prefix_empty. reflexivity.
  - destruct (ascii_dec c a) as [E|_]; [congruence|]. reflexivity.
Qed.

Lemma contains_char_empty c : contains "" (String c "") = false.
Proof. reflexivity. Qed.

Lemma contains_app_char a c b :
  contains (a ++ String c b) (String c "") = true.
Proof.
  induction a as [|x a IH]; cbn [append]; rewrite contains_char.
  - rewrite Ascii.eqb_refl. reflexivity.
  - rewrite IH. apply orb_true_r.
Qed.

End PyExtra.

Module AliasSearch.
Import Py Models AliasDb PyExtra.

(** X8. The empty query of [search] returns every entry of the store,
    in the order of the store; whatever the query, the result is a
    sub-list of the entries; and for a query in ASCII the result does not
    depend on the letter case of the query. *)
Theorem search_case_and_empty :
  forall (self : AliasDatabase) (query : string),
    search self "" = get_all self /\
    incl (search self query) (get_all self) /\
    (isascii query = true ->
     search self (upper query) = search self query /\
     search self (lower query) = search self query).
Proof.
  intros self query. unfold search, get_all. split; [|split].
  - cbn [lower smap]. apply forallb_filter_id. apply forallb_forall.
    intros e _. rewrite contains_empty. reflexivity.
  - apply incl_filter.
  - intros _. split.
    + rewrite lower_upper. reflexivity.
    + rewrite lower_idem. reflexivity.
Qed.

Lemma search_case_and_empty_witness :
  search Samples.two_cases_db "" = get_all Samples.two_cases_db /\
  incl (search Samples.two_cases_db "ia") (get_all Samples.two_cases_db) /\
  search Samples.two_cases_db (upper "ia") = search Samples.two_cases_db "ia" /\
  search Samples.two_cases_db (lower "ia") = search Samples.two_cases_db "ia".
Proof.
  destruct (@search_case_and_empty Samples.two_cases_db "ia") as [H1 [H2 H3]].
  split; [exact H1|]. split; [exact H2|]. apply H3. reflexivity.
Defined.

End AliasSearch.

(** ** The validator: further properties *)

Module ValidatorExtra.
Import Py Models AliasDb Validator DictFacts AliasFacts PyExtra.

(** X9. [_fuzzy_match] is reflexive and symmetric: a name matches itself,
    and two names match in one order exactly when they match in the
    other. *)
Theorem fuzzy_match_refl_sym :
  forall name1 name2 : string,
    _fuzzy_match name1 name1 = true /\
    _fuzzy_match name1 name2 = _fuzzy_match name2 name1.
Proof.
  intros name1 name2. unfold _fuzzy_match. split.
  - rewrite String.eqb_refl. reflexivity.
  - rewrite (String.eqb_sym (_normalize_name name2)).
    destruct (String.eqb (_normalize_name name1) (_normalize_name name2));
      [reflexivity|].
    rewrite (orb_comm (contains (_normalize_name name1) (_normalize_name name2))).
    destruct (contains (_normalize_name name2) (_normalize_name name1)
              || contains (_normalize_name name1) (_normalize_name name2));
      [reflexivity|].
    rewrite (String.eqb_sym (_extract_phase (_normalize_name name2))).
    rewrite (String.eqb_sym
               (_extract_signal_type_indicator (_normalize_name name2))).
    destruct (truthy (_extract_phase (_normalize_name name1)));
      destruct (truthy (_extract_phase (_normalize_name name2)));
      destruct (truthy (_extract_signal_type_indicator (_normalize_name name1)));
      destruct (truthy (_extract_signal_type_indicator (_normalize_name name2)));
      reflexivity.
Qed.

Lemma _normalize_name_lower name : _normalize_name (lower name) = _normalize_name name.
Proof. unfold _normalize_name. rewrite upper_lower. reflexivity. Qed.

Lemma _normalize_name_upper name : _normalize_name (upper name) = _normalize_name name.
Proof. unfold _normalize_name. rewrite upper_idem. reflexivity. Qed.

(** X10. On names in ASCII the name tests of the cascade do not depend
    on letter case: normalization, the fuzzy test, the heuristic test and
    the exact test give the same answer on a name and on its lower-case
    or upper-case form. *)
Theorem name_tests_ignore_case :
  forall name other signal_type : string,
    isascii name = true ->
    isascii other = true ->
    _normalize_name (lower name) = _normalize_name name /\
    _normalize_name (upper name) = _normalize_name name /\
    _fuzzy_match (lower name) (upper other) = _fuzzy_match name other /\
    _heuristic_match (lower name) signal_type
    = _heuristic_match name signal_type /\
    exact_match (lower name) = exact_match name.
Proof.
  intros name other signal_type _ _. repeat split.
  - apply _normalize_name_lower.
  - apply _normalize_name_upper.
  - unfold _fuzzy_match.
    rewrite _normalize_name_lower, _normalize_name_upper. reflexivity.
  - unfold _heuristic_match. rewrite _normalize_name_lower. reflexivity.
  - unfold exact_match. rewrite upper_lower. reflexivity.
Qed.

Lemma name_tests_ignore_case_witness :
  _normalize_name (lower "Rel_IL1_Mag") = _normalize_name "Rel_IL1_Mag" /\
  _normalize_name (upper "Rel_IL1_Mag") = _normalize_name "Rel_IL1_Mag" /\
  _fuzzy_match (lower "Rel_IL1_Mag") (upper "il1")
  = _fuzzy_match "Rel_IL1_Mag" "il1" /\
  _heuristic_match (lower "Rel_IL1_Mag") "analog"
  = _heuristic_match "Rel_IL1_Mag" "analog" /\
  exact_match (lower "Rel_IL1_Mag") = exact_match "Rel_IL1_Mag".
Proof.
  apply (@name_tests_ignore_case "Rel_IL1_Mag" "il1" "analog"); reflexivity.
Defined.

(** *** One result per signal *)

(** The cases of [_validate_signal]: the five tiers, the two that save
    split by the outcome of [save]. *)
Ltac by_tier nm m ty cfg db :=
  unfold _validate_signal;
  destruct (exact_match nm) eqn:?;
  [ cbn [fst snd]; destruct (snd (_auto_add_alias _ _ _ _ _ _ _)); cbn [bind]
  | destruct (alias_hit db m nm) eqn:?;
    [ cbn [fst snd]
    | destruct (config_hit cfg nm ty) eqn:?;
      [ cbn [fst snd];
        destruct (snd (_auto_add_alias _ _ _ _ _ _ _)); cbn [bind]
      | destruct (_heuristic_match nm ty) eqn:?; cbn [fst snd] ] ] ].

Lemma _validate_signal_name fs db nm m ty cfg r :
  snd (_validate_signal fs db nm m ty cfg) = Returns r ->
  xrio_name r = nm /\
  In (match_type r) ["exact"; "alias"; "fuzzy"; "new"].
Proof.
  by_tier nm m ty cfg db; intros E; inversion E; subst r; cbn; tauto.
Qed.

(** What holds of each result of a signal holds of the results of the
    loop, in the order of the names. *)
Lemma validate_loop_results (Q : string -> ValidationResult -> Prop) m ty cfg
  names :
  (forall fs db nm r,
     snd (_validate_signal fs db nm m ty cfg) = Returns r -> Q nm r) ->
  forall fs db rs rs',
    snd (validate_loop fs db names m ty cfg rs) = Returns rs' ->
    exists new, rs' = (rs ++ new)%list /\ Forall2 Q names new.
Proof.
  intros HQ. induction names as [|nm names IH]; intros fs db rs rs';
    cbn [validate_loop].
  - cbn [snd]. intros H. inversion H. exists []. rewrite app_nil_r. auto.
  - destruct (snd (_validate_signal fs db nm m ty cfg)) as [r| |] eqn:E;
      cbn [snd]; try discriminate.
    intros H. apply IH in H. destruct H as [new [-> F]].
    exists (r :: new). split.
    + rewrite <- app_assoc. reflexivity.
    + constructor; [eapply HQ; exact E | exact F].
Qed.

Lemma validate_results (Q : string -> ValidationResult -> Prop) cfg :
  (forall fs db nm m ty r,
     snd (_validate_signal fs db nm m ty cfg) = Returns r -> Q nm r) ->
  forall fs db xrio_data rs,
    snd (validate fs db xrio_data cfg) = Returns rs ->
    Forall2 Q (analog_signals xrio_data ++ binary_signals xrio_data)%list rs.
Proof.
  intros HQ fs db xrio_data rs. unfold validate.
  set (m := if truthy (relay_model_of xrio_data)
            then relay_model_of xrio_data else "UNKNOWN").
  destruct (snd (validate_loop fs db (analog_signals xrio_data) m "analog"
                   cfg [])) as [rs1| |] eqn:A; cbn [snd]; try discriminate.
  intros B.
  apply (@validate_loop_results Q m "analog" cfg (analog_signals xrio_data)
           (fun fs db nm r => @HQ fs db nm m "analog" r)) in A.
  apply (@validate_loop_results Q m "binary" cfg (binary_signals xrio_data)
           (fun fs db nm r => @HQ fs db nm m "binary" r)) in B.
  destruct A as [new1 [-> F1]]. destruct B as [new2 [-> F2]].
  cbn [app]. apply Forall2_app; assumption.
Qed.

Lemma Forall2_names (names : list string) (rs : list ValidationResult) :
  Forall2 (fun nm r => xrio_name r = nm /\
                       In (match_type r) ["exact"; "alias"; "fuzzy"; "new"])
    names rs ->
  map xrio_name rs = names /\
  length rs = length names /\
  Forall (fun r => In (match_type r) ["exact"; "alias"; "fuzzy"; "new"]) rs.
Proof.
  induction 1 as [|nm r names rs [Hn Hm] _ [IH1 [IH2 IH3]]]; cbn [map length].
  - repeat split. constructor.
  - repeat split; [congruence | congruence | constructor; assumption].
Qed.

Lemma validate_names fs db xrio_data cfg rs :
  snd (validate fs db xrio_data cfg) = Returns rs ->
  map xrio_name rs
  = (analog_signals xrio_data ++ binary_signals xrio_data)%list /\
  length rs
  = length (analog_signals xrio_data ++ binary_signals xrio_data)%list /\
  Forall (fun r => In (match_type r) ["exact"; "alias"; "fuzzy"; "new"]) rs.
Proof.
  intros H. apply Forall2_names.
  apply (@validate_results _ cfg
           (fun fs db nm m ty r => @_validate_signal_name fs db nm m ty cfg r)
           fs db xrio_data rs H).
Qed.

(** In a store that can be saved every signal is validated, and the
    store can still be saved afterwards: its path does not change. *)
Lemma _validate_signal_returns fs db nm m ty cfg :
  can_save db = true ->
  (exists r, snd (_validate_signal fs db nm m ty cfg) = Returns r) /\
  can_save (snd (fst (_validate_signal fs db nm m ty cfg))) = true.
Proof.
  intros H. unfold _validate_signal.
  destruct (exact_match nm);
    [|destruct (alias_hit db m nm);
      [|destruct (config_hit cfg nm ty);
        [|destruct (_heuristic_match nm ty)]]];
    cbn [fst snd];
    rewrite ?ValidatorFacts._auto_add_alias_saved by exact H; cbn [bind];
    (split; [eexists; reflexivity|]); try exact H;
    unfold _auto_add_alias; cbn [fst snd];
    rewrite AliasFacts.add_saved by exact H; cbn [fst snd]; exact H.
Qed.

Lemma validate_loop_returns m ty cfg names : forall fs db rs,
  can_save db = true ->
  (exists rs', snd (validate_loop fs db names m ty cfg rs) = Returns rs') /\
  can_save (snd (fst (validate_loop fs db names m ty cfg rs))) = true.
Proof.
  induction names as [|nm names IH]; intros fs db rs H; cbn [validate_loop].
  - cbn [fst snd]. split; [eexists; reflexivity | exact H].
  - destruct (@_validate_signal_returns fs db nm m ty cfg H) as [[r E] S].
    rewrite E. apply IH. exact S.
Qed.

Lemma validate_returns fs db xrio_data cfg :
  can_save db = true ->
  exists rs, snd (validate fs db xrio_data cfg) = Returns rs.
Proof.
  intros H. unfold validate.
  set (m := if truthy (relay_model_of xrio_data)
            then relay_model_of xrio_data else "UNKNOWN").
  destruct (@validate_loop_returns m "analog" cfg (analog_signals xrio_data)
              fs db [] H) as [[rs1 E] S].
  rewrite E.
  apply (@validate_loop_returns m "binary" cfg (binary_signals xrio_data)).
  exact S.
Qed.

(** X11. [validate] returns whenever the alias store can be saved, and
    when it returns, it returns one result per signal, the analog signals
    first and then the binary ones, each in the order of the inventory:
    the names of the results are the names of the signals. *)
Theorem validate_one_result_per_signal :
  forall (fs : disk) (db : AliasDatabase) (xrio_data : XRIOData)
         (cfg : option ComtradeConfig),
    (can_save db = true ->
     exists rs, snd (validate fs db xrio_data cfg) = Returns rs) /\
    (forall rs : list ValidationResult,
       snd (validate fs db xrio_data cfg) = Returns rs ->
       map xrio_name rs
       = (analog_signals xrio_data ++ binary_signals xrio_data)%list /\
       length rs
       = length (analog_signals xrio_data)
         + length (binary_signals xrio_data)).
Proof.
  intros fs db xrio_data cfg. split; [apply validate_returns|].
  intros rs H.
  destruct (validate_names _ _ _ _ H) as [N [L _]].
  split; [exact N|]. rewrite L. apply length_app.
Qed.

Lemma validate_one_result_per_signal_witness :
  exists rs,
    snd (validate Samples.no_files Samples.empty_db Samples.inventory
           (Some Samples.il1_config)) = Returns rs /\
    map xrio_name rs
    = (analog_signals Samples.inventory ++ binary_signals Samples.inventory)%list /\
    length rs
    = length (analog_signals Samples.inventory)
      + length (binary_signals Samples.inventory).
Proof.
  destruct (@validate_one_result_per_signal Samples.no_files Samples.empty_db
              Samples.inventory (Some Samples.il1_config)) as [R P].
  destruct (R eq_refl) as [rs E].
  exists rs. split; [exact E | exact (P rs E)].
Defined.

(** *** The summary *)

Lemma count_loop_counted rs : forall s,
  Forall (fun r => In (match_type r) ["exact"; "alias"; "fuzzy"; "new"]) rs ->
  counted s ->
  exists s', count_loop rs s = Returns s' /\ counted s' /\
             n_total s' = (n_total s + Z.of_nat (length rs))%Z /\
             results s' = results s.
Proof.
  induction rs as [|r rs IH]; intros s H C; cbn [count_loop].
  - exists s. repeat split; [exact C | cbn [length]; lia].
  - inversion H as [|? ? Hr Hrs]; subst.
    assert (S1 : exists s1, count_result s r = Returns s1 /\ counted s1 /\
                            n_total s1 = (n_total s + 1)%Z /\
                            results s1 = results s).
    { unfold count_result, counted in *.
      destruct Hr as [E|[E|[E|[E|[]]]]]; rewrite <- E; cbn;
        eexists; (split; [reflexivity|]); cbn; repeat split; lia. }
    destruct S1 as [s1 [E1 [C1 [T1 R1]]]]. rewrite E1. cbn [bind].
    destruct (IH s1 Hrs C1) as [s' [E' [C' [T' R']]]].
    exists s'. repeat split; try assumption; [|congruence].
    cbn [length]. lia.
Qed.

(** X12. [auto_validate_and_update] returns whenever [validate] does,
    hence whenever the alias store can be saved: the counting loop adds
    no failure.  Its summary carries the results of [validate], [total]
    is the number of signals of the inventory, and
    [exact + alias + fuzzy + new = total]; the store and the disk are
    those that [validate] left. *)
Theorem summary_counts_add_up :
  forall (fs : disk) (db : AliasDatabase) (xrio_data : XRIOData)
         (cfg : option ComtradeConfig),
    (can_save db = true ->
     exists summary,
       snd (auto_validate_and_update fs db xrio_data cfg) = Returns summary) /\
    (forall rs : list ValidationResult,
       snd (validate fs db xrio_data cfg) = Returns rs ->
       exists summary,
         snd (auto_validate_and_update fs db xrio_data cfg) = Returns summary /\
         fst (auto_validate_and_update fs db xrio_data cfg)
         = fst (validate fs db xrio_data cfg) /\
         results summary = rs /\
         n_total summary
         = Z.of_nat (length (analog_signals xrio_data)
                     + length (binary_signals xrio_data)) /\
         (n_exact summary + n_alias summary + n_fuzzy summary + n_new summary
          = n_total summary)%Z).
Proof.
  intros fs db xrio_data cfg.
  assert (P : forall rs : list ValidationResult,
             snd (validate fs db xrio_data cfg) = Returns rs ->
             exists summary,
               snd (auto_validate_and_update fs db xrio_data cfg)
               = Returns summary /\
               fst (auto_validate_and_update fs db xrio_data cfg)
               = fst (validate fs db xrio_data cfg) /\
               results summary = rs /\
               n_total summary
               = Z.of_nat (length (analog_signals xrio_data)
                           + length (binary_signals xrio_data)) /\
               (n_exact summary + n_alias summary + n_fuzzy summary
                + n_new summary = n_total summary)%Z).
  { intros rs H.
    destruct (validate_names _ _ _ _ H) as [_ [L T]].
    unfold auto_validate_and_update. cbn [fst snd]. rewrite H. cbn [bind].
    destruct (@count_loop_counted rs
                {| n_exact := 0%Z; n_alias := 0%Z; n_fuzzy := 0%Z;
                   n_new := 0%Z; n_total := 0%Z; results := rs |} T eq_refl)
      as [s' [E [C [Tot R]]]].
    rewrite E. exists s'. repeat split.
    - exact R.
    - rewrite Tot, L, length_app. reflexivity.
    - unfold counted in C. lia. }
  split; [|exact P].
  intros H. destruct (@validate_returns fs db xrio_data cfg H) as [rs E].
  destruct (P rs E) as [summary [S _]]. exists summary. exact S.
Qed.

Lemma summary_counts_add_up_witness :
  exists rs summary,
    snd (validate Samples.no_files Samples.empty_db Samples.inventory
           (Some Samples.il1_config)) = Returns rs /\
    snd (auto_validate_and_update Samples.no_files Samples.empty_db
           Samples.inventory (Some Samples.il1_config)) = Returns summary /\
    fst (auto_validate_and_update Samples.no_files Samples.empty_db
           Samples.inventory (Some Samples.il1_config))
    = fst (validate Samples.no_files Samples.empty_db Samples.inventory
             (Some Samples.il1_config)) /\
    results summary = rs /\
    n_total summary
    = Z.of_nat (length (analog_signals Samples.inventory)
                + length (binary_signals Samples.inventory)) /\
    (n_exact summary + n_alias summary + n_fuzzy summary + n_new summary
     = n_total summary)%Z.
Proof.
  destruct (@validate_returns Samples.no_files Samples.empty_db
              Samples.inventory (Some Samples.il1_config) eq_refl) as [rs E].
  exists rs.
  destruct (proj2 (@summary_counts_add_up Samples.no_files Samples.empty_db
                     Samples.inventory (Some Samples.il1_config)) rs E)
    as [summary H].
  exists summary. split; [exact E | exact H].
Defined.

(** *** What validation writes *)

(** X13. The learning loop, in a store that can be saved: when a signal
    resolves against the loaded configuration (tier 3: match type
    [fuzzy], confidence 0.7) on a channel whose name is not empty,
    validating the same signal again, with or without a configuration,
    resolves it from the alias store (match type [alias], confidence
    0.95) to that channel name, and the second validation changes
    nothing. *)
Theorem fuzzy_match_is_learned :
  forall (fs : disk) (db : AliasDatabase)
         (xrio_name relay_model signal_type : string)
         (cfg cfg' : option ComtradeConfig) (ch : ComtradeChannel),
    exact_match xrio_name = false ->
    alias_hit db relay_model xrio_name = None ->
    config_hit cfg xrio_name signal_type = Some ch ->
    truthy (name ch) = true ->
    can_save db = true ->
    let first := _validate_signal fs db xrio_name relay_model signal_type cfg in
    let second := _validate_signal (fst (fst first)) (snd (fst first))
                    xrio_name relay_model signal_type cfg' in
    exists r1 r2,
      snd first = Returns r1 /\
      match_type r1 = "fuzzy" /\
      confidence r1 = 0.7%float /\
      result_standard_name r1 = name ch /\
      snd second = Returns r2 /\
      match_type r2 = "alias" /\
      confidence r2 = 0.95%float /\
      result_standard_name r2 = name ch /\
      fst second = fst first.
Proof.
  intros fs db nm m ty cfg cfg' ch He Ha Hc Ht Hs first second.
  assert (F : first
              = (fst (_auto_add_alias fs db nm (name ch) m ty true),
                 Returns
                   {| xrio_name := nm; result_standard_name := name ch;
                      match_type := "fuzzy"; confidence := 0.7%float;
                      message := "Coincidencia aproximada con COMTRADE: "
                                 ++ name ch;
                      alias_entry := None |})).
  { subst first. unfold _validate_signal. rewrite He, Ha, Hc.
    rewrite ValidatorFacts._auto_add_alias_saved by exact Hs. reflexivity. }
  assert (A : alias_hit (snd (fst (_auto_add_alias fs db nm (name ch) m ty true)))
                m nm
              = Some (name ch)).
  { unfold alias_hit, find_standard_for, get, _auto_add_alias, add, with_entries.
    cbn [fst snd _entries]. unfold key.
    cbn [Models.relay_model Models.relay_name]. rewrite get_set_same.
    cbn [Models.standard_name]. rewrite Ht. reflexivity. }
  subst second. rewrite F. cbn [fst snd].
  unfold _validate_signal. rewrite He, A. cbn [fst snd].
  destruct (fst (_auto_add_alias fs db nm (name ch) m ty true)) as [fs1 db1].
  do 2 eexists. repeat split; reflexivity.
Qed.

Lemma fuzzy_match_is_learned_witness :
  exists r1 r2,
    snd (_validate_signal Samples.no_files Samples.empty_db
           "IL1" "REL670" "analog" (Some Samples.il1_config)) = Returns r1 /\
    match_type r1 = "fuzzy" /\
    confidence r1 = 0.7%float /\
    result_standard_name r1 = "IL1_MAG" /\
    snd (_validate_signal
           (fst (fst (_validate_signal Samples.no_files Samples.empty_db
                        "IL1" "REL670" "analog" (Some Samples.il1_config))))
           (snd (fst (_validate_signal Samples.no_files Samples.empty_db
                        "IL1" "REL670" "analog" (Some Samples.il1_config))))
           "IL1" "REL670" "analog" None) = Returns r2 /\
    match_type r2 = "alias" /\
    confidence r2 = 0.95%float /\
    result_standard_name r2 = "IL1_MAG" /\
    fst (_validate_signal
           (fst (fst (_validate_signal Samples.no_files Samples.empty_db
                        "IL1" "REL670" "analog" (Some Samples.il1_config))))
           (snd (fst (_validate_signal Samples.no_files Samples.empty_db
                        "IL1" "REL670" "analog" (Some Samples.il1_config))))
           "IL1" "REL670" "analog" None)
    = fst (_validate_signal Samples.no_files Samples.empty_db
             "IL1" "REL670" "analog" (Some Samples.il1_config)).
Proof.
  apply (@fuzzy_match_is_learned Samples.no_files Samples.empty_db
           "IL1" "REL670" "analog" (Some Samples.il1_config) None
           (hd (ComtradeChannel_new ANALOG)
              (analog_channels Samples.il1_config)));
    reflexivity.
Defined.

(** An entry as validation writes it for the signal [nm] of model [m]. *)
Lemma _validate_signal_writes fs db nm m ty cfg :
  store_ok db ->
  store_ok (snd (fst (_validate_signal fs db nm m ty cfg))) /\
  incl (Dict.keys (_entries db))
    (Dict.keys (_entries (snd (fst (_validate_signal fs db nm m ty cfg))))) /\
  (forall k e,
     In (k, e) (_entries (snd (fst (_validate_signal fs db nm m ty cfg)))) ->
     In (k, e) (_entries db) \/
     (relay_name e = nm /\ relay_model e = m /\
      auto_detected e = true /\ validated e = false)).
Proof.
  intros Hok.
  assert (W : forall std,
    store_ok (snd (fst (_auto_add_alias fs db nm std m ty true))) /\
    incl (Dict.keys (_entries db))
      (Dict.keys (_entries (snd (fst (_auto_add_alias fs db nm std m ty true))))) /\
    (forall k e,
       In (k, e) (_entries (snd (fst (_auto_add_alias fs db nm std m ty true)))) ->
       In (k, e) (_entries db) \/
       (relay_name e = nm /\ relay_model e = m /\
        auto_detected e = true /\ validated e = false))).
  { intros std. unfold _auto_add_alias. cbn [fst].
    split; [apply store_ok_add, Hok|].
    unfold add, with_entries. cbn [fst snd _entries]. split.
    - rewrite keys_set. destruct (Dict.has _ _); [apply incl_refl|].
      apply incl_appl, incl_refl.
    - intros k e H. apply In_set in H. destruct H as [[_ ->]|H]; [right|left].
      + repeat split.
      + exact H. }
  unfold _validate_signal.
  destruct (exact_match nm); [cbn [fst]; apply W|].
  destruct (alias_hit db m nm);
    [cbn [fst snd]; repeat split; [apply Hok | apply Hok | apply incl_refl | auto]|].
  destruct (config_hit cfg nm ty); [cbn [fst]; apply W|].
  destruct (_heuristic_match nm ty);
    cbn [fst snd]; repeat split;
    try apply Hok; try apply incl_refl; auto.
Qed.

Lemma validate_loop_writes names : forall fs db m ty cfg rs,
  store_ok db ->
  store_ok (snd (fst (validate_loop fs db names m ty cfg rs))) /\
  incl (Dict.keys (_entries db))
    (Dict.keys (_entries (snd (fst (validate_loop fs db names m ty cfg rs))))) /\
  (forall k e,
     In (k, e) (_entries (snd (fst (validate_loop fs db names m ty cfg rs)))) ->
     In (k, e) (_entries db) \/
     (In (relay_name e) names /\ relay_model e = m /\
      auto_detected e = true /\ validated e = false)).
Proof.
  induction names as [|nm names IH]; intros fs db m ty cfg rs Hok;
    cbn [validate_loop].
  - cbn [fst snd]. repeat split; try apply Hok; try apply incl_refl; auto.
  - pose proof (@_validate_signal_writes fs db nm m ty cfg Hok) as [O1 [I1 E1]].
    assert (Stop : store_ok (snd (fst (_validate_signal fs db nm m ty cfg))) /\
                   incl (Dict.keys (_entries db))
                     (Dict.keys (_entries (snd (fst (_validate_signal fs db nm
                                                       m ty cfg))))) /\
                   (forall k e,
                      In (k, e) (_entries (snd (fst (_validate_signal fs db nm
                                                       m ty cfg)))) ->
                      In (k, e) (_entries db) \/
                      (In (relay_name e) (nm :: names) /\ relay_model e = m /\
                       auto_detected e = true /\ validated e = false))).
    { split; [exact O1|]. split; [exact I1|]. intros k e H.
      apply E1 in H. destruct H as [H|[Hn Hr]]; [left; exact H|].
      right. split; [left; symmetry; exact Hn | exact Hr]. }
    destruct (snd (_validate_signal fs db nm m ty cfg)) as [res| |];
      cbn [fst snd]; try exact Stop.
    destruct (IH (fst (fst (_validate_signal fs db nm m ty cfg)))
                (snd (fst (_validate_signal fs db nm m ty cfg)))
                m ty cfg (rs ++ [res])%list O1) as [O2 [I2 E2]].
    split; [exact O2|]. split; [eapply incl_tran; eassumption|].
    intros k e H. apply E2 in H. destruct H as [H|[Hn Hr]].
    + apply E1 in H. destruct H as [H|[Hn Hr]]; [left; exact H|].
      right. split; [left; symmetry; exact Hn | exact Hr].
    + right. split; [right; exact Hn | exact Hr].
Qed.

(** X14. Validation only adds to the alias store.  If the store satisfies
    its invariant before [validate], it satisfies it after; no key is
    lost; and every entry of the store after the run either was there
    before, unchanged, or was written by the run: then it is
    auto-detected, not validated, carries the name of a signal of the
    inventory and the relay model of the run ([UNKNOWN] when the
    extracted model is empty).  This holds of the store as the run left
    it, also when the run stopped on an exception. *)
Theorem validate_only_adds_auto_entries :
  forall (fs : disk) (db : AliasDatabase) (xrio_data : XRIOData)
         (cfg : option ComtradeConfig),
    store_ok db ->
    let db' := snd (fst (validate fs db xrio_data cfg)) in
    store_ok db' /\
    incl (Dict.keys (_entries db)) (Dict.keys (_entries db')) /\
    (forall k e,
       In (k, e) (_entries db') ->
       In (k, e) (_entries db) \/
       (In (relay_name e)
          (analog_signals xrio_data ++ binary_signals xrio_data)%list /\
        relay_model e = (if truthy (relay_model_of xrio_data)
                         then relay_model_of xrio_data else "UNKNOWN") /\
        auto_detected e = true /\ validated e = false)).
Proof.
  intros fs db xrio_data cfg Hok db'. subst db'. unfold validate.
  set (m := if truthy (relay_model_of xrio_data)
            then relay_model_of xrio_data else "UNKNOWN").
  pose proof (@validate_loop_writes (analog_signals xrio_data) fs db m
                "analog" cfg [] Hok) as [O1 [I1 E1]].
  assert (Stop :
    store_ok (snd (fst (validate_loop fs db (analog_signals xrio_data) m
                          "analog" cfg []))) /\
    incl (Dict.keys (_entries db))
      (Dict.keys (_entries (snd (fst (validate_loop fs db
                                        (analog_signals xrio_data) m
                                        "analog" cfg []))))) /\
    (forall k e,
       In (k, e) (_entries (snd (fst (validate_loop fs db
                                        (analog_signals xrio_data) m
                                        "analog" cfg [])))) ->
       In (k, e) (_entries db) \/
       (In (relay_name e)
          (analog_signals xrio_data ++ binary_signals xrio_data)%list /\
        relay_model e = m /\
        auto_detected e = true /\ validated e = false))).
  { split; [exact O1|]. split; [exact I1|]. intros k e H.
    apply E1 in H. destruct H as [H|[Hn Hr]]; [left; exact H|].
    right. split; [apply in_or_app; left; exact Hn | exact Hr]. }
  destruct (snd (validate_loop fs db (analog_signals xrio_data) m "analog"
                   cfg [])) as [rs1| |];
    cbn [fst snd]; try exact Stop.
  destruct (@validate_loop_writes (binary_signals xrio_data)
              (fst (fst (validate_loop fs db (analog_signals xrio_data) m
                           "analog" cfg [])))
              (snd (fst (validate_loop fs db (analog_signals xrio_data) m
                           "analog" cfg [])))
              m "binary" cfg rs1 O1) as [O2 [I2 E2]].
  split; [exact O2|]. split; [eapply incl_tran; eassumption|].
  intros k e H. apply E2 in H. destruct H as [H|[Hn Hr]].
  - apply E1 in H. destruct H as [H|[Hn Hr]]; [left; exact H|].
    right. split; [apply in_or_app; left; exact Hn | exact Hr].
  - right. split; [apply in_or_app; right; exact Hn | exact Hr].
Qed.

Lemma validate_only_adds_auto_entries_witness :
  store_ok (snd (fst (validate Samples.no_files Samples.two_cases_db
                        Samples.inventory (Some Samples.il1_config)))) /\
  incl (Dict.keys (_entries Samples.two_cases_db))
    (Dict.keys (_entries (snd (fst (validate Samples.no_files
                                      Samples.two_cases_db Samples.inventory
                                      (Some Samples.il1_config)))))) /\
  (forall k e,
     In (k, e) (_entries (snd (fst (validate Samples.no_files
                                      Samples.two_cases_db Samples.inventory
                                      (Some Samples.il1_config))))) ->
     In (k, e) (_entries Samples.two_cases_db) \/
     (In (relay_name e)
        (analog_signals Samples.inventory ++ binary_signals Samples.inventory)%list /\
      relay_model e = (if truthy (relay_model_of Samples.inventory)
                       then relay_model_of Samples.inventory else "UNKNOWN") /\
      auto_detected e = true /\ validated e = false)).
Proof.
  apply (@validate_only_adds_auto_entries Samples.no_files Samples.two_cases_db
           Samples.inventory (Some Samples.il1_config)).
  split.
  - simpl. repeat constructor; simpl; intuition discriminate.
  - simpl. repeat constructor.
Defined.

End ValidatorExtra.

(** ** The COMTRADE parser: further properties *)

Module ComtradeExtra.
Import Py Models Comtrade PyFacts ComtradeFacts PyExtra.

(** *** Data rows *)

Lemma dat_loop_length fl self lines : forall data rows,
  dat_loop fl self lines data = Returns rows ->
  length rows <= length data + length lines.
Proof.
  induction lines as [|line lines IH]; intros data rows; cbn [dat_loop].
  - intros H. inversion H. subst. cbn [length]. apply Nat.le_add_r.
  - destruct (parse_dat_line fl self line) as [[row|]| |]; cbn [bind];
      try discriminate; intros H; apply IH in H.
    + rewrite length_app in H. cbn [length] in *.
      eapply Nat.le_trans; [exact H|].
      rewrite <- Nat.add_assoc. apply Nat.le_refl.
    + cbn [length]. eapply Nat.le_trans; [exact H|].
      apply Nat.add_le_mono_l. apply Nat.le_succ_diag_r.
Qed.

(** X15. With channel counts that are not negative, [parse_dat_ascii]
    returns on every text of the data file; every row it emits carries
    exactly [num_analog] analog values and [num_digital] digital values
    (short rows are padded), and it emits at most one row per line. *)
Theorem parse_dat_ascii_rows_full :
  forall (fl : string -> option PrimFloat.float) (fs : filesystem)
         (self : ComtradeParser) (dat_path text : string),
    fs dat_path = Some text ->
    counts_nonneg self ->
    exists rows,
      parse_dat_ascii fl fs self dat_path = Returns rows /\
      Forall (full_row self) rows /\
      length rows <= length (readlines text).
Proof.
  intros fl fs self dat_path text Hf Hc.
  destruct (@parse_dat_ascii_full fl fs self dat_path text Hf Hc)
    as [rows [E F]].
  exists rows. repeat split; try assumption.
  unfold parse_dat_ascii in E. rewrite Hf in E.
  apply dat_loop_length in E. cbn [length] in E. lia.
Qed.

Lemma parse_dat_ascii_rows_full_witness :
  exists rows,
    parse_dat_ascii Samples.float_table Samples.files
      {| _config := Some Samples.il1_config |} "plain.dat" = Returns rows /\
    Forall (full_row {| _config := Some Samples.il1_config |}) rows /\
    length rows <= length (readlines (Samples.text_of_lines ["1,0,1.0"; "2,1000"])).
Proof.
  apply (@parse_dat_ascii_rows_full Samples.float_table Samples.files
           {| _config := Some Samples.il1_config |} "plain.dat"
           (Samples.text_of_lines ["1,0,1.0"; "2,1000"])).
  - reflexivity.
  - split; vm_compute; discriminate.
Defined.

(** *** What a parsed configuration satisfies *)

(** Case analysis on the steps of a computation that returned. *)
Ltac inv_bind H :=
  repeat match type of H with
         | bind ?m _ = Returns _ =>
             let E := fresh "E" in
             destruct m eqn:E; cbn [bind] in H; try discriminate H
         end.

Lemma channel_loop_spec parse lines todo :
  forall i line_idx acc chs line_idx',
    channel_loop parse lines todo i line_idx acc = Returns (chs, line_idx') ->
    length chs = length acc + Nat.min todo (length lines - line_idx) /\
    line_idx' = line_idx + Nat.min todo (length lines - line_idx) /\
    forall P : ComtradeChannel -> Prop,
      Forall P acc ->
      (forall l d ch, parse l d = Returns ch -> P ch) ->
      Forall P chs.
Proof.
  induction todo as [|todo IH]; intros i line_idx acc chs line_idx';
    cbn [channel_loop].
  - intros H. inversion H. subst. cbn [Nat.min].
    rewrite !Nat.add_0_r. auto.
  - destruct (Nat.leb_spec (length lines) line_idx) as [L|L].
    + intros H. inversion H. subst.
      replace (length lines - line_idx') with 0 by lia.
      rewrite Nat.min_0_r, !Nat.add_0_r. auto.
    + intros H. inv_bind H. apply IH in H. destruct H as [H1 [H2 H3]].
      rewrite length_app in H1. cbn [length] in H1.
      repeat split; try lia.
      intros P Ha Hp. apply H3; [|exact Hp].
      apply Forall_app. split; [exact Ha|].
      constructor; [eapply Hp; eassumption | constructor].
Qed.

Lemma _parse_analog_channel_kind fl line d ch :
  _parse_analog_channel fl line d = Returns ch -> signal_type ch = ANALOG.
Proof.
  unfold _parse_analog_channel. intros H. cbv zeta in H. inv_bind H.
  inversion H. reflexivity.
Qed.

Lemma _parse_digital_channel_kind line d ch :
  _parse_digital_channel line d = Returns ch -> signal_type ch = BINARY.
Proof.
  unfold _parse_digital_channel. intros H. cbv zeta in H. inv_bind H.
  inversion H. reflexivity.
Qed.

Lemma mem_In x l : mem x l = true -> In x l.
Proof.
  unfold mem. intros H. apply existsb_exists in H.
  destruct H as [y [Hy E]]. apply String.eqb_eq in E. subst. exact Hy.
Qed.

Lemma format_choice s :
  In (if mem s data_formats then s else "ASCII") data_formats.
Proof.
  destruct (mem s data_formats) eqn:M; [apply mem_In, M | simpl; tauto].
Qed.

Lemma parse_cfg_lines_inv fl path lines cfg :
  parse_cfg_lines fl path lines = Returns cfg ->
  exists a d,
    channel_loop (_parse_analog_channel fl) lines
      (Z.to_nat (num_analog cfg)) 0%Z 2 [] = Returns a /\
    analog_channels cfg = fst a /\
    channel_loop _parse_digital_channel lines
      (Z.to_nat (num_digital cfg)) 0%Z (snd a) [] = Returns d /\
    digital_channels cfg = fst d /\
    In (data_format cfg) data_formats /\
    file_path cfg = path.
Proof.
  unfold parse_cfg_lines. intros H. cbv zeta in H. inv_bind H.
  inversion H. subst cfg. clear H.
  cbn [num_analog num_digital analog_channels digital_channels data_format
       file_path].
  match goal with
  | Ea : channel_loop (_parse_analog_channel fl) _ _ _ _ _ = Returns ?a,
    Ed : channel_loop _parse_digital_channel _ _ _ _ _ = Returns ?d |- _ =>
      exists a, d; repeat split; try assumption
  end.
  match goal with
  | E : (if ?c then _ else Returns (data_format _, _)) = Returns ?df |- _ =>
      destruct c; [inv_bind E|]; inversion E; subst; cbn [fst]
  end.
  - apply format_choice.
  - simpl. tauto.
Qed.

(** X16. What every configuration returned by [parse_cfg] satisfies: it
    is recorded in the parser and carries the path it was read from; its
    data format is one of [ASCII], [BINARY], [BINARY32], [FLOAT32]; the
    analog channels are as many as declared, or as many as there are
    lines after the second when the file is shorter, and likewise the
    digital channels on the lines that remain; the analog channels are of
    kind analog and the digital ones of kind binary. *)
Theorem parse_cfg_invariants :
  forall (fl : string -> option PrimFloat.float) (fs : filesystem)
         (self self' : ComtradeParser) (cfg_path text : string)
         (cfg : ComtradeConfig),
    fs cfg_path = Some text ->
    parse_cfg fl fs self cfg_path = Returns (self', cfg) ->
    _config self' = Some cfg /\
    file_path cfg = cfg_path /\
    In (data_format cfg) ["ASCII"; "BINARY"; "BINARY32"; "FLOAT32"] /\
    length (analog_channels cfg)
    = Nat.min (Z.to_nat (num_analog cfg)) (length (readlines text) - 2) /\
    length (digital_channels cfg)
    = Nat.min (Z.to_nat (num_digital cfg))
        (length (readlines text) - 2 - length (analog_channels cfg)) /\
    Forall (fun ch => signal_type ch = ANALOG) (analog_channels cfg) /\
    Forall (fun ch => signal_type ch = BINARY) (digital_channels cfg).
Proof.
  intros fl fs self self' cfg_path text cfg Hf H.
  unfold parse_cfg in H. rewrite Hf in H.
  destruct (length (map strip (readlines text)) <? 2); [discriminate|].
  inv_bind H. inversion H. subst. clear H.
  apply parse_cfg_lines_inv in E.
  destruct E as [[achs aidx] [[dchs didx] [Ea [Aa [Ed [Ad [Hfmt Hp]]]]]]].
  cbn [fst snd] in *.
  apply channel_loop_spec in Ea. destruct Ea as [La [Ia Pa]].
  apply channel_loop_spec in Ed. destruct Ed as [Ld [_ Pd]].
  rewrite length_map in La, Ld, Ia. cbn [length] in La, Ld.
  rewrite Aa, Ad. repeat split; try assumption; try lia.
  - apply Pa; [constructor|]. intros l d ch. apply _parse_analog_channel_kind.
  - apply Pd; [constructor|]. intros l d ch. apply _parse_digital_channel_kind.
Qed.

Lemma parse_cfg_invariants_witness :
  exists self' cfg,
    parse_cfg Samples.float_table Samples.files ComtradeParser_new "plain.cfg"
    = Returns (self', cfg) /\
    _config self' = Some cfg /\
    file_path cfg = "plain.cfg" /\
    In (data_format cfg) ["ASCII"; "BINARY"; "BINARY32"; "FLOAT32"] /\
    length (analog_channels cfg)
    = Nat.min (Z.to_nat (num_analog cfg))
        (length (readlines Samples.plain_cfg) - 2) /\
    length (digital_channels cfg)
    = Nat.min (Z.to_nat (num_digital cfg))
        (length (readlines Samples.plain_cfg) - 2
         - length (analog_channels cfg)) /\
    Forall (fun ch => signal_type ch = ANALOG) (analog_channels cfg) /\
    Forall (fun ch => signal_type ch = BINARY) (digital_channels cfg).
Proof.
  do 2 eexists. split; [vm_compute; reflexivity|].
  apply (@parse_cfg_invariants Samples.float_table Samples.files
           ComtradeParser_new _ "plain.cfg" Samples.plain_cfg _ eq_refl).
  vm_compute. reflexivity.
Defined.

(** *** The companion of a [.cfg] or [.dat] file *)

Lemma take_drop k s : (take k s ++ drop k s)%string = s.
Proof.
  revert s. induction k as [|k IH]; intros [|c r]; simpl; try reflexivity.
  now rewrite IH.
Qed.

Lemma splitext_join is_sep p base ext :
  splitext is_sep p = (base, ext) -> p = (base ++ ext)%string.
Proof.
  unfold splitext. intros H.
  assert (E : p = (p ++ "")%string).
  { clear H. induction p as [|c r IH]; simpl; congruence. }
  destruct (rfind is_sep p <? rfind is_dot p)%Z.
  - match type of H with
    | (if ?c then _ else _) = _ => destruct c
    end; inversion H; subst; [now rewrite take_drop | exact E].
  - inversion H; subst. exact E.
Qed.

(** X17. [find_cfg_dat_pair] on any platform and any file system.  When
    the extension of the path is [.cfg] in any letter case, the path is
    returned unchanged as the configuration file, and the data file is
    the same path with the extension replaced by [.dat] or [.DAT]; when
    it is [.dat] in any letter case, the roles are exchanged, with
    [.cfg] or [.CFG].  The lower-case companion is preferred, and the
    companion returned exists as soon as one of the two spellings
    exists.  With every other extension the call raises [ValueError]. *)
Theorem find_cfg_dat_pair_companion :
  forall (is_sep : ascii -> bool) (path_exists : string -> bool)
         (file_path : string),
    let (base, ext) := splitext is_sep file_path in
    file_path = (base ++ ext)%string /\
    match find_cfg_dat_pair is_sep path_exists file_path with
    | Returns (cfg_path, dat_path) =>
        (lower ext = ".cfg" /\ cfg_path = file_path /\
         (dat_path = (base ++ ".dat")%string \/
          dat_path = (base ++ ".DAT")%string
          /\ path_exists (base ++ ".dat")%string = false) /\
         (path_exists (base ++ ".dat")%string = true \/
          path_exists (base ++ ".DAT")%string = true ->
          path_exists dat_path = true))
        \/
        (lower ext = ".dat" /\ dat_path = file_path /\
         (cfg_path = (base ++ ".cfg")%string \/
          cfg_path = (base ++ ".CFG")%string
          /\ path_exists (base ++ ".cfg")%string = false) /\
         (path_exists (base ++ ".cfg")%string = true \/
          path_exists (base ++ ".CFG")%string = true ->
          path_exists cfg_path = true))
    | Raises e =>
        e = ValueError /\ lower ext <> ".cfg" /\ lower ext <> ".dat"
    | Untyped => False
    end.
Proof.
  intros is_sep path_exists file_path.
  destruct (splitext is_sep file_path) as [base ext] eqn:S.
  split; [apply (splitext_join _ _ S)|].
  unfold find_cfg_dat_pair. rewrite S.
  destruct (String.eqb_spec (lower ext) ".cfg") as [C|C].
  - left. split; [exact C|]. split; [reflexivity|].
    destruct (path_exists (base ++ ".dat")%string) eqn:X; cbn [negb].
    + split; [left; reflexivity | intros _; exact X].
    + split; [right; split; reflexivity|].
      intros [H|H]; [discriminate H | exact H].
  - destruct (String.eqb_spec (lower ext) ".dat") as [D|D].
    + right. split; [exact D|]. split; [reflexivity|].
      destruct (path_exists (base ++ ".cfg")%string) eqn:X; cbn [negb].
      * split; [left; reflexivity | intros _; exact X].
      * split; [right; split; reflexivity|].
        intros [H|H]; [discriminate H | exact H].
    + repeat split; assumption.
Qed.

(** On a POSIX file system that holds only [rec/fault.DAT], the
    companion of [rec/fault.CFG] is that file; a dot in a directory name
    starts no extension. *)
Example find_cfg_dat_pair_samples :
  find_cfg_dat_pair Samples.slash Samples.only_upper_dat "rec/fault.CFG"
  = Returns ("rec/fault.CFG", "rec/fault.DAT") /\
  find_cfg_dat_pair Samples.slash Samples.only_upper_dat "rec.cfg/fault"
  = Raises ValueError /\
  find_cfg_dat_pair Samples.slash Samples.only_upper_dat "rec/.cfg"
  = Raises ValueError.
Proof. repeat split. Qed.

End ComtradeExtra.

(** * More of [core/xrio_parser.py] *)

Module XrioExtra.
Import Py Models Xrio PyExtra.

Lemma classify_subject name :
  replace_char "-" " " (replace_char "_" " " (upper name))
  = smap classify_char name.
Proof.
  unfold replace_char, upper. rewrite !smap_smap. reflexivity.
Qed.

Lemma classify_smap f name :
  (forall c, classify_char (f c) = classify_char c) ->
  classify_signal_function (smap f name) = classify_signal_function name.
Proof.
  intros H. unfold classify_signal_function.
  rewrite !classify_subject, smap_smap.
  rewrite (smap_ext (fun c => classify_char (f c)) classify_char name H).
  reflexivity.
Qed.

Lemma _is_metadata_smap f name :
  (forall c, metadata_char (f c) = metadata_char c) ->
  _is_metadata (smap f name) = _is_metadata name.
Proof.
  intros H. unfold _is_metadata.
  assert (T : truthy (smap f name) = truthy name) by (destruct name; reflexivity).
  rewrite T. destruct (truthy name); [|reflexivity]. cbn [negb].
  unfold replace_char, upper. rewrite !smap_smap.
  rewrite (smap_ext (fun c => if Ascii.eqb (upper_char (f c)) "_"
                               then " "%char else upper_char (f c))
             (fun c => if Ascii.eqb (upper_char c) "_"
                       then " "%char else upper_char c) name H).
  reflexivity.
Qed.

Lemma first_function_in table upper_name func :
  first_function table upper_name = Some func -> In func (map fst table).
Proof.
  induction table as [|[f kws] r IH]; simpl; [discriminate|].
  destruct (contains_any upper_name kws).
  - intros H. inversion H. auto.
  - auto.
Qed.

Ltac by_cases_on_char :=
  let c := fresh "c" in
  intros c; destruct c as [[] [] [] [] [] [] [] []]; reflexivity.

(** X18. How the XRIO parser reads a signal name.  The protection
    function assigned by [classify_signal_function] does not depend on
    whether the words of the name are separated by underscores, hyphens
    or spaces, and it is never [OVERLOAD] nor [GENERAL]; the metadata
    test [_is_metadata] does not depend on underscores against spaces.
    For a name in ASCII neither depends on the letter case. *)
Theorem signal_name_reading :
  forall name : string,
    (classify_signal_function (replace_char "_" " " name)
     = classify_signal_function name /\
     classify_signal_function (replace_char "-" " " name)
     = classify_signal_function name /\
     classify_signal_function (replace_char "_" "-" name)
     = classify_signal_function name /\
     _is_metadata (replace_char "_" " " name) = _is_metadata name) /\
    (classify_signal_function name <> OVERLOAD /\
     classify_signal_function name <> GENERAL) /\
    (isascii name = true ->
     classify_signal_function (lower name) = classify_signal_function name /\
     classify_signal_function (upper name) = classify_signal_function name /\
     _is_metadata (lower name) = _is_metadata name /\
     _is_metadata (upper name) = _is_metadata name).
Proof.
  intros name. split; [|split].
  - unfold replace_char.
    repeat split;
      first [apply classify_smap | apply _is_metadata_smap]; by_cases_on_char.
  - unfold classify_signal_function.
    destruct (first_function FUNCTION_KEYWORDS _) as [func|] eqn:E.
    + apply first_function_in in E. simpl in E.
      split; intros ->; intuition discriminate.
    + repeat match goal with
             | |- context [if ?c then _ else _] => destruct c
             end; split; discriminate.
  - intros _. unfold lower, upper.
    repeat split;
      first [apply classify_smap | apply _is_metadata_smap]; by_cases_on_char.
Qed.

Lemma signal_name_reading_witness :
  classify_signal_function (lower "Trip_Zone-1")
  = classify_signal_function "Trip_Zone-1" /\
  classify_signal_function (upper "Trip_Zone-1")
  = classify_signal_function "Trip_Zone-1" /\
  _is_metadata (lower "Trip_Zone-1") = _is_metadata "Trip_Zone-1" /\
  _is_metadata (upper "Trip_Zone-1") = _is_metadata "Trip_Zone-1".
Proof.
  apply (proj2 (proj2 (@signal_name_reading "Trip_Zone-1"))). reflexivity.
Defined.

(** *** Namespaces *)

Lemma split_not_nil sep s : split sep s <> [].
Proof.
  destruct s as [|c r]; simpl; [discriminate|].
  destruct (Ascii.eqb c sep); [discriminate|].
  destruct (split sep r); discriminate.
Qed.

Lemma split_parts_clean sep s part :
  In part (split sep s) -> contains part (String sep "") = false.
Proof.
  revert part. induction s as [|c r IH]; intros part; cbn [split].
  - intros [<-|[]]. reflexivity.
  - destruct (Ascii.eqb c sep) eqn:E.
    + intros [<-|H]; [reflexivity | auto].
    + destruct (split sep r) as [|p ps] eqn:S; [destruct (@split_not_nil sep r S)|].
      intros [<-|H].
      * rewrite contains_char, E. apply IH. left. reflexivity.
      * apply IH. right. exact H.
Qed.

Lemma split_clean sep s :
  contains s (String sep "") = false -> split sep s = [s].
Proof.
  induction s as [|c r IH]; [reflexivity|].
  rewrite contains_char. intros H. apply Bool.orb_false_iff in H.
  destruct H as [E H]. cbn [split]. rewrite E, (IH H). reflexivity.
Qed.

Lemma split_at sep a b :
  contains a (String sep "") = false ->
  split sep (a ++ String sep b) = a :: split sep b /\
  contains (a ++ String sep b) (String sep "") = true.
Proof.
  induction a as [|c r IH].
  - intros _. cbn [append split]. rewrite contains_char, Ascii.eqb_refl. auto.
  - rewrite contains_char. intros H. apply Bool.orb_false_iff in H.
    destruct H as [E H]. destruct (IH H) as [S C].
    cbn [append split]. rewrite E, S, contains_char, C, Bool.orb_true_r. auto.
Qed.

(** X19. [_clean_tag] removes the namespace that lxml writes in front of
    a tag: from [{ns}local] it keeps [local], and a tag without
    namespace is returned as it is; the tag of a comment or a processing
    instruction, which is not a string, gives the empty string.  The
    result holds no closing brace, so that cleaning twice changes
    nothing. *)
Theorem _clean_tag_namespace :
  forall ns local : string,
    contains ns "}" = false ->
    contains local "}" = false ->
    _clean_tag (Some ("{" ++ ns ++ "}" ++ local)) = local /\
    _clean_tag (Some local) = local /\
    _clean_tag None = "" /\
    forall tag : option string,
      contains (_clean_tag tag) "}" = false /\
      _clean_tag (Some (_clean_tag tag)) = _clean_tag tag.
Proof.
  intros ns local Hns Hlocal.
  assert (Clean : forall tag, contains (_clean_tag tag) "}" = false).
  { intros [t|]; [|reflexivity]. unfold _clean_tag.
    destruct (contains t "}") eqn:C; [|exact C].
    destruct (nth_in_or_default 1 (split "}" t) "") as [H|H].
    - apply (split_parts_clean _ _ _ H).
    - rewrite H. reflexivity. }
  assert (Same : forall t, contains t "}" = false -> _clean_tag (Some t) = t).
  { intros t C. unfold _clean_tag. rewrite C. reflexivity. }
  split; [|split; [|split]].
  - assert (Hb : contains ("{" ++ ns) "}" = false).
    { cbn [append]. rewrite contains_char. exact Hns. }
    destruct (split_at "}" ("{" ++ ns) local Hb) as [S C].
    unfold _clean_tag. cbn [append] in *. rewrite C, S.
    rewrite (split_clean _ _ Hlocal). reflexivity.
  - apply Same, Hlocal.
  - reflexivity.
  - intros tag. split; [apply Clean | apply Same, Clean].
Qed.

Lemma _clean_tag_namespace_witness :
  _clean_tag (Some ("{" ++ "http://www.omicron.at" ++ "}" ++ "Block"))
  = "Block" /\
  _clean_tag (Some "Block") = "Block" /\
  _clean_tag None = "" /\
  forall tag : option string,
    contains (_clean_tag tag) "}" = false /\
    _clean_tag (Some (_clean_tag tag)) = _clean_tag tag.
Proof.
  apply (@_clean_tag_namespace "http://www.omicron.at" "Block");
    reflexivity.
Defined.

(** *** The signals of one disturbance-report block *)

Lemma channel_signal_short params_map block_name i :
  length (channel_signal params_map block_name i) <= 1.
Proof.
  unfold channel_signal. destruct (Dict.get params_map _); simpl; lia.
Qed.

Lemma channel_signal_source params_map block_name i sig :
  In sig (channel_signal params_map block_name i) ->
  channel sig = i /\ block sig = block_name /\
  exists p,
    dr_name sig = val p /\ dr_description sig = desc p /\
    (Dict.get params_map ("NAME" ++ str_nat i) = Some p \/
     Dict.get params_map ("NAME" ++ str_nat i) = None /\
     Dict.get params_map ("NAME" ++ str_nat_02d i) = Some p).
Proof.
  unfold channel_signal, Dict.has.
  destruct (Dict.get params_map ("NAME" ++ str_nat i)) as [p|] eqn:E1;
    cbv beta iota zeta delta [negb].
  - rewrite E1. intros [<-|[]]. cbn. eauto 8.
  - destruct (Dict.get params_map ("NAME" ++ str_nat_02d i)) as [p|] eqn:E2;
      [|intros []].
    intros [<-|[]]. cbn. eauto 8.
Qed.

Lemma flat_map_seq_sorted (A : Type) (f : nat -> list A) (g : A -> nat) :
  (forall i x, In x (f i) -> g x = i) ->
  (forall i, length (f i) <= 1) ->
  forall len start,
    StronglySorted lt (map g (flat_map f (seq start len))) /\
    length (flat_map f (seq start len)) <= len /\
    Forall (fun x => start <= g x < start + len) (flat_map f (seq start len)).
Proof.
  intros Hg Hshort. induction len as [|len IH]; intros start.
  - simpl. repeat split; constructor.
  - cbn [seq flat_map]. destruct (IH (S start)) as [Hs [Hl Hb]].
    pose proof (Hshort start) as H1. pose proof (Hg start) as H2.
    destruct (f start) as [|x [|y r]]; cbn [length] in H1; [| |lia].
    + cbn [app]. repeat split; [exact Hs | lia |].
      eapply Forall_impl; [|exact Hb]. cbn beta. intros a Ha. lia.
    + cbn [app map length]. assert (Hx : g x = start) by (apply H2; left; reflexivity).
      repeat split.
      * constructor; [exact Hs|]. apply Forall_map.
        eapply Forall_impl; [|exact Hb]. cbn beta. intros a Ha. lia.
      * lia.
      * constructor; [lia|].
        eapply Forall_impl; [|exact Hb]. cbn beta. intros a Ha. lia.
Qed.

(** X20. The signals that one disturbance-report block yields come in
    strictly increasing channel order, so that no channel occurs twice
    and a block yields at most 96 signals.  The name and the description
    of a signal are those of the parameter [NAME<n>] with the plain
    channel number when the block has it, and of the zero-padded
    [NAME0<n>] only when it has not. *)
Theorem block_signals_in_channel_order :
  forall (params_map : Dict.t param) (block_name : string),
    let signals := block_signals params_map block_name in
    StronglySorted lt (map channel signals) /\
    NoDup (map channel signals) /\
    length signals <= 96 /\
    forall sig,
      In sig signals ->
      exists p,
        dr_name sig = val p /\ dr_description sig = desc p /\
        (Dict.get params_map ("NAME" ++ str_nat (channel sig)) = Some p \/
         Dict.get params_map ("NAME" ++ str_nat (channel sig)) = None /\
         Dict.get params_map ("NAME" ++ str_nat_02d (channel sig)) = Some p).
Proof.
  intros params_map block_name signals. subst signals. unfold block_signals.
  destruct (@flat_map_seq_sorted _ (channel_signal params_map block_name)
              channel
              (fun i x H => proj1 (channel_signal_source _ _ _ _ H))
              (channel_signal_short params_map block_name) 96 1)
    as [Hs [Hl _]].
  split; [exact Hs|]. split; [|split; [exact Hl|]].
  - clear Hl. induction Hs as [|a l Hs IH Ha]; constructor; [|exact IH].
    intros Hin. rewrite Forall_forall in Ha. specialize (Ha a Hin). lia.
  - intros sig Hin. apply in_flat_map in Hin. destruct Hin as [i [_ Hi]].
    destruct (channel_signal_source _ _ _ _ Hi) as [Hc [_ Hp]].
    rewrite Hc. exact Hp.
Qed.

(** *** Binary signals and block names *)

Lemma fold_left_invariant (A B : Type) (f : A -> B -> A) (I : A -> Prop)
  (l : list B) :
  (forall a b, In b l -> I a -> I (f a b)) ->
  forall a, I a -> I (fold_left f l a).
Proof.
  induction l as [|b l IH]; intros Hstep a Ha; [exact Ha|].
  cbn [fold_left]. apply IH.
  - intros a' b' Hin. apply Hstep. right. exact Hin.
  - apply Hstep; [left; reflexivity | exact Ha].
Qed.

Lemma mem_true_iff x l : mem x l = true <-> In x l.
Proof.
  unfold mem. rewrite existsb_exists. split.
  - intros [y [Hy E]]. apply String.eqb_eq in E. subst. exact Hy.
  - intros H. exists x. split; [exact H | apply String.eqb_refl].
Qed.

Lemma truthy_not_empty s : truthy s = true <-> s <> "".
Proof. destruct s; simpl; split; congruence. Qed.

Lemma _parse_binary_element_obedient : obedient _parse_binary_element.
Proof. intros el idx blk. repeat split. Qed.

Lemma _parse_binary_from_generic_obedient :
  obedient _parse_binary_from_generic.
Proof. intros el idx blk. repeat split. Qed.

Lemma append_signal_numbered P parse block_name st child :
  obedient parse -> P block_name ->
  numbered P st -> numbered P (append_signal parse block_name st child).
Proof.
  intros Hp Hb [Hi [Hn Hk]]. unfold append_signal.
  destruct (Hp child (snd st) block_name) as [Pi [Pb Pf]].
  destruct (truthy (bs_name _) && negb (_is_metadata (bs_name _))) eqn:E;
    [|repeat split; assumption].
  apply andb_true_iff in E. destruct E as [Et Em].
  apply truthy_not_empty in Et. apply negb_true_iff in Em.
  unfold numbered. cbn [fst snd].
  rewrite length_app, Nat.add_1_r, seq_S, !map_app, Hi. cbn [length map].
  repeat split.
  - rewrite Pi, Hn. reflexivity.
  - rewrite Hn. lia.
  - apply Forall_app. split; [exact Hk|]. constructor; [|constructor].
    rewrite Pb. repeat split; assumption.
Qed.

Lemma binary_block_numbered P st el :
  (match_b_rbdr (_clean_tag (tag_of el)) = true -> P (_clean_tag (tag_of el))) ->
  numbered P st -> numbered P (binary_block st el).
Proof.
  intros Hb Hst. unfold binary_block.
  destruct (match_b_rbdr (_clean_tag (tag_of el))) eqn:M; [|exact Hst].
  specialize (Hb eq_refl).
  set (block_name := _clean_tag (tag_of el)) in *.
  assert (H1 : numbered P
                 (fst (fold_left (specific_tag block_name) (iter el)
                         (st, false)))).
  { apply (@fold_left_invariant _ _ (specific_tag block_name)
             (fun sf => numbered P (fst sf))); [|exact Hst].
    intros sf child _ Hsf. unfold specific_tag.
    destruct (mem _ _); [|exact Hsf]. cbn [fst].
    apply append_signal_numbered;
      [apply _parse_binary_element_obedient | exact Hb | exact Hsf]. }
  destruct (fold_left (specific_tag block_name) (iter el) (st, false))
    as [st1 found].
  cbn [fst] in H1. destruct found; [exact H1|].
  assert (H2 : numbered P (fold_left (broad_tag block_name) (iter el) st1)).
  { apply fold_left_invariant; [|exact H1].
    intros a child _ Ha. unfold broad_tag.
    destruct (contains_any _ _); [|exact Ha].
    apply append_signal_numbered;
      [apply _parse_binary_element_obedient | exact Hb | exact Ha]. }
  destruct (negb (existsb _ _)); [|exact H2].
  apply fold_left_invariant; [|exact H2].
  intros a child _ Ha. unfold direct_child.
  destruct (contains_any _ _); [exact Ha|].
  apply append_signal_numbered;
    [apply _parse_binary_from_generic_obedient | exact Hb | exact Ha].
Qed.

Lemma extraction_numbered r :
  numbered (fun b => match_b_rbdr b = true /\
                     exists el, In el (iter r) /\ _clean_tag (tag_of el) = b)
    (fold_left binary_block (iter r) ([], 1%Z)).
Proof.
  apply fold_left_invariant.
  - intros st el Hin Hst. apply binary_block_numbered; [|exact Hst].
    intros M. split; [exact M|]. exists el. auto.
  - repeat split. constructor.
Qed.

(** X21. The binary signals that [_extract_binary_signals] returns are
    numbered 1, 2, 3, ... in the order of the list, whichever of the
    three strategies found them.  Each has a name that is not empty and
    is not metadata, the protection function that
    [classify_signal_function] gives to that name, and as its block the
    tag of an element of the document that matches [B<digits>RBDR].
    Without a document the list is empty. *)
Theorem binary_signals_numbered :
  forall root : option element,
    let signals := _extract_binary_signals root in
    map bs_index signals = map Z.of_nat (seq 1 (length signals)) /\
    (root = None -> signals = []) /\
    forall sig,
      In sig signals ->
      bs_name sig <> "" /\
      _is_metadata (bs_name sig) = false /\
      bs_function sig = classify_signal_function (bs_name sig) /\
      match_b_rbdr (xrio_block sig) = true /\
      exists r el,
        root = Some r /\ In el (iter r) /\
        _clean_tag (tag_of el) = xrio_block sig.
Proof.
  intros [r|]; cbn zeta.
  - destruct (extraction_numbered r) as [Hi [_ Hk]]. cbn [_extract_binary_signals].
    split; [exact Hi|]. split; [discriminate|].
    intros sig Hin. rewrite Forall_forall in Hk.
    destruct (Hk sig Hin) as [[Hn [Hm Hf]] [Hb [el [He Ht]]]].
    repeat split; try assumption. exists r, el. auto.
  - simpl. split; [reflexivity|]. split; [reflexivity|]. intros sig [].
Qed.

Lemma string_eqb_cons a s b t :
  String.eqb (String a s) (String b t) = Ascii.eqb a b && String.eqb s t.
Proof. cbn [String.eqb]. destruct (Ascii.eqb a b); reflexivity. Qed.

Lemma match_b_rbdr_block_tag s :
  match_b_rbdr s = true -> match_block_tag s = true.
Proof.
  destruct s as [|c r]; [discriminate|]. cbn [match_b_rbdr match_block_tag].
  intros H. apply andb_true_iff in H. destruct H as [Hc H].
  apply andb_true_iff in H. destruct H as [Ht He].
  unfold is_a_or_b at 1. rewrite Hc, orb_true_r. cbn [andb].
  destruct (drop (String.length (take_digits r)) r)
    as [|r1 [|ab [|d [|r2 rest]]]];
    cbn [take upper smap] in Ht; cbn [drop] in He;
    rewrite ?string_eqb_cons in Ht;
    repeat (apply andb_true_iff in Ht; destruct Ht as [? Ht]);
    try discriminate Ht.
  cbv beta iota. rewrite !andb_true_iff. unfold is_a_or_b.
  repeat split; try assumption.
  match goal with
  | K : (upper_char ab =? "B")%char = true |- _ => rewrite K
  end.
  apply orb_true_r.
Qed.

Lemma add_block_names_spec l :
  forall names,
    NoDup names ->
    NoDup (fold_left add_block_name l names) /\
    forall n,
      In n (fold_left add_block_name l names) <->
      In n names \/
      exists el, In el l /\ _clean_tag (tag_of el) = n /\
                 match_block_tag n = true.
Proof.
  induction l as [|el l IH]; intros names Hnd; cbn [fold_left].
  - split; [exact Hnd|]. intros n. split; [auto|].
    intros [H|[el [[] _]]]. exact H.
  - assert (Hstep :
      NoDup (add_block_name names el) /\
      forall n, In n (add_block_name names el) <->
                In n names \/
                (_clean_tag (tag_of el) = n /\ match_block_tag n = true)).
    { unfold add_block_name.
      destruct (match_block_tag (_clean_tag (tag_of el))) eqn:M.
      - destruct (mem (_clean_tag (tag_of el)) names) eqn:E; cbn [negb].
        + split; [exact Hnd|]. intros n. split; [auto|].
          intros [H|[<- _]]; [exact H | apply mem_true_iff, E].
        + split.
          * apply NoDup_app; [exact Hnd | repeat constructor; intros [] |].
            intros a Ha [<-|[]]. apply mem_true_iff in Ha. congruence.
          * intros n. rewrite in_app_iff. simpl. split.
            -- intros [H|[<-|[]]]; auto.
            -- intros [H|[<- _]]; auto.
      - split; [exact Hnd|]. intros n. split; [auto|].
        intros [H|[<- H]]; [exact H | congruence]. }
    destruct Hstep as [Hnd' Hin']. destruct (IH _ Hnd') as [R1 R2].
    split; [exact R1|]. intros n. rewrite R2, Hin'. split.
    + intros [[H|[E M]]|[el' [H1 H2]]]; auto.
      * right. exists el. split; [left; reflexivity | auto].
      * right. exists el'. split; [right; exact H1 | exact H2].
    + intros [H|[el' [[<-|H1] [E M]]]]; auto.
      right. exists el'. auto.
Qed.

(** X22. [get_block_names] lists each block name once; a name is listed
    exactly when it is the tag, without namespace, of an element of the
    document and matches [A<digits>RADR], [B<digits>RBDR] or one of the
    two mixed forms, in any letter case.  Every block from which
    [_extract_binary_signals] took a signal is listed. *)
Theorem get_block_names_complete :
  forall root : option element,
    NoDup (get_block_names root) /\
    (forall n,
       In n (get_block_names root) <->
       exists r el,
         root = Some r /\ In el (iter r) /\
         _clean_tag (tag_of el) = n /\ match_block_tag n = true) /\
    forall sig,
      In sig (_extract_binary_signals root) ->
      In (xrio_block sig) (get_block_names root).
Proof.
  intros [r|].
  - cbn [get_block_names _extract_binary_signals].
    destruct (@add_block_names_spec (iter r) [] (NoDup_nil _)) as [Hnd Hin].
    split; [exact Hnd|]. split.
    + intros n. rewrite Hin. split.
      * intros [[]|[el H]]. exists r, el. auto.
      * intros [r' [el [E H]]]. inversion E. subst r'. right. exists el. exact H.
    + intros sig Hs. destruct (extraction_numbered r) as [_ [_ Hk]].
      rewrite Forall_forall in Hk.
      destruct (Hk sig Hs) as [_ [Hb [el [He Ht]]]].
      apply Hin. right. exists el. split; [exact He|]. split; [exact Ht|].
      apply match_b_rbdr_block_tag, Hb.
  - simpl. split; [constructor|]. split.
    + intros n. split; [intros [] | intros [r [el [E _]]]; discriminate E].
    + intros sig [].
Qed.

(** The sample document: the first block yields its two channels that
    are no metadata, the second its generic child and its comment, the
    empty repetition of the first block nothing. *)
Example binary_document_signals :
  map (fun sig => (bs_index sig, bs_name sig, bs_state sig, xrio_block sig,
                   bs_function sig))
    (_extract_binary_signals (Some Samples.binary_document))
  = [(1%Z, "TRIP_A", 0%Z, "B1RBDR", UNKNOWN);
     (2%Z, "51_PICKUP", 1%Z, "B1RBDR", OVERCURRENT);
     (3%Z, "CB_OPEN", 0%Z, "b2rbdr", UNKNOWN);
     (4%Z, "note", 0%Z, "b2rbdr", UNKNOWN)] /\
  get_block_names (Some Samples.binary_document)
  = ["B1RBDR"; "b2rbdr"; "A1RADR"].
Proof. split; reflexivity. Qed.

End XrioExtra.

(** * The results of the cascade *)

Module ValidatorShape.
Import Py Models AliasDb Validator PyExtra.

Lemma heuristic_loop_in candidates n phase sig_ind signal_type best :
  heuristic_loop candidates n phase sig_ind signal_type = Some best ->
  In best candidates.
Proof.
  induction candidates as [|std r IH]; cbn [heuristic_loop]; [discriminate|].
  destruct (contains n (_normalize_name std) || contains (_normalize_name std) n).
  - intros H. inversion H. left. reflexivity.
  - destruct (_ && _).
    + intros H. inversion H. left. reflexivity.
    + intros H. right. apply IH, H.
Qed.

Lemma _heuristic_match_in xrio_name signal_type best :
  _heuristic_match xrio_name signal_type = Some best ->
  In best (if String.eqb signal_type "analog"
           then Comtrade.STANDARD_ANALOG_SIGNALS
           else Comtrade.STANDARD_DIGITAL_SIGNALS).
Proof. unfold _heuristic_match. apply heuristic_loop_in. Qed.

Lemma catalogue_exact best :
  In best _standard_names -> exact_match best = true.
Proof.
  unfold _standard_names, Comtrade.get_all_standard_signal_names.
  intros H. simpl in H.
  repeat (destruct H as [<-|H]; [reflexivity|]). destruct H.
Qed.

Lemma kind_in_catalogue signal_type best :
  In best (if String.eqb signal_type "analog"
           then Comtrade.STANDARD_ANALOG_SIGNALS
           else Comtrade.STANDARD_DIGITAL_SIGNALS) ->
  In best _standard_names.
Proof.
  unfold _standard_names, Comtrade.get_all_standard_signal_names.
  intros H. apply in_or_app. destruct (String.eqb signal_type "analog"); auto.
Qed.

(** X23. The heuristic tier proposes catalogue names only: a name that
    [_heuristic_match] returns is a standard analog signal when the
    signal is analog and a standard digital signal otherwise, and it
    would itself pass the exact test of the first tier. *)
Theorem heuristic_match_in_catalogue :
  forall xrio_name signal_type best : string,
    _heuristic_match xrio_name signal_type = Some best ->
    In best (if String.eqb signal_type "analog"
             then Comtrade.STANDARD_ANALOG_SIGNALS
             else Comtrade.STANDARD_DIGITAL_SIGNALS) /\
    exact_match best = true.
Proof.
  intros xrio_name signal_type best H. apply _heuristic_match_in in H.
  split; [exact H|]. apply catalogue_exact, (kind_in_catalogue _ _ H).
Qed.

Lemma heuristic_match_in_catalogue_witness :
  In "IA" (if String.eqb "analog" "analog"
           then Comtrade.STANDARD_ANALOG_SIGNALS
           else Comtrade.STANDARD_DIGITAL_SIGNALS) /\
  exact_match "IA" = true.
Proof.
  apply (@heuristic_match_in_catalogue "Phase_Current_A" "analog" "IA").
  reflexivity.
Defined.

(** X24. A name whose normal form is empty (only separators, or a
    manufacturer prefix alone) matches everything: [_fuzzy_match] holds
    between it and any name, in both orders, and [_heuristic_match]
    gives it the first name of the catalogue, [IA] for an analog signal
    and [TRIP] for any other. *)
Theorem empty_normal_form_matches_all :
  forall name : string,
    _normalize_name name = "" ->
    (forall other, _fuzzy_match name other = true /\
                   _fuzzy_match other name = true) /\
    _heuristic_match name "analog" = Some "IA" /\
    (forall signal_type,
       signal_type <> "analog" ->
       _heuristic_match name signal_type = Some "TRIP").
Proof.
  intros name H. split; [|split].
  - intros other. unfold _fuzzy_match. rewrite H. split.
    + destruct (String.eqb "" (_normalize_name other)); [reflexivity|].
      rewrite contains_empty. reflexivity.
    + destruct (String.eqb (_normalize_name other) ""); [reflexivity|].
      rewrite contains_empty, orb_true_r. reflexivity.
  - unfold _heuristic_match. rewrite H. reflexivity.
  - intros signal_type Hne. unfold _heuristic_match. rewrite H.
    apply String.eqb_neq in Hne. rewrite Hne.
    unfold Comtrade.STANDARD_DIGITAL_SIGNALS. cbn [heuristic_loop].
    rewrite contains_empty, orb_true_r. reflexivity.
Qed.

Lemma empty_normal_form_matches_all_witness :
  (forall other, _fuzzy_match "REL_" other = true /\
                 _fuzzy_match other "REL_" = true) /\
  _heuristic_match "REL_" "analog" = Some "IA" /\
  (forall signal_type,
     signal_type <> "analog" ->
     _heuristic_match "REL_" signal_type = Some "TRIP").
Proof.
  apply (@empty_normal_form_matches_all "REL_"). reflexivity.
Defined.

Lemma _validate_signal_shape fs db nm m ty cfg r :
  snd (_validate_signal fs db nm m ty cfg) = Returns r ->
  alias_entry r = None /\ result_shape cfg r.
Proof.
  unfold _validate_signal, result_shape.
  destruct (exact_match nm) eqn:E1; cbn [snd].
  { destruct (snd (_auto_add_alias _ _ _ _ _ _ _)); cbn [bind];
      intros E; inversion E; subst r.
    split; [reflexivity|]. left. cbn. auto. }
  destruct (alias_hit db m nm) as [a|] eqn:E2; cbn [snd].
  { intros E; inversion E; subst r.
    split; [reflexivity|]. right. left. cbn. repeat split.
    unfold alias_hit in E2. destruct (find_standard_for db m nm) as [a'|];
      [|discriminate].
    destruct (truthy a') eqn:T; [|discriminate]. inversion E2. subst a'.
    intros ->. discriminate T. }
  destruct (config_hit cfg nm ty) as [ch|] eqn:E3; cbn [snd].
  { destruct (snd (_auto_add_alias _ _ _ _ _ _ _)); cbn [bind];
      intros E; inversion E; subst r.
    split; [reflexivity|]. right. right. left. cbn. repeat split.
    unfold config_hit in E3. destruct cfg as [c|]; [|discriminate].
    apply find_some in E3. destruct E3 as [Hin Hf].
    exists c, ch. repeat split; try assumption.
    apply in_or_app. destruct (String.eqb ty "analog"); auto. }
  destruct (_heuristic_match nm ty) as [b|] eqn:E4; cbn [snd].
  { intros E; inversion E; subst r.
    split; [reflexivity|]. right. right. right. left. cbn. repeat split.
    apply (@kind_in_catalogue ty), (@_heuristic_match_in nm ty b E4). }
  intros E; inversion E; subst r.
  split; [reflexivity|]. right. right. right. right. cbn. auto.
Qed.

Lemma Forall2_right (A B : Type) (P : B -> Prop) (l : list A) (rs : list B) :
  Forall2 (fun _ r => P r) l rs -> Forall P rs.
Proof. induction 1; constructor; assumption. Qed.

(** X25. [validate] returns whenever the alias store can be saved, and
    every result that it returns has one of five forms: an exact match
    with confidence 1.0, whose standard name is the signal name; an alias
    with confidence 0.95 and a standard name that is not empty; a fuzzy
    match with confidence 0.7 on the name of a channel of the loaded
    configuration, which is then present; a fuzzy match with confidence
    0.5 on a name of the standard catalogue; or a new signal with
    confidence 0.0 and no standard name.  No result carries an alias
    entry. *)
Theorem validate_result_shapes :
  forall (fs : disk) (db : AliasDatabase) (xrio_data : XRIOData)
         (cfg : option ComtradeConfig),
    (can_save db = true ->
     exists rs, snd (validate fs db xrio_data cfg) = Returns rs) /\
    (forall rs : list ValidationResult,
       snd (validate fs db xrio_data cfg) = Returns rs ->
       Forall (fun r => alias_entry r = None /\ result_shape cfg r) rs).
Proof.
  intros fs db xrio_data cfg.
  split; [apply ValidatorExtra.validate_returns|].
  intros rs H.
  apply (@Forall2_right string _ _
           (analog_signals xrio_data ++ binary_signals xrio_data)%list).
  apply (@ValidatorExtra.validate_results
           (fun _ r => alias_entry r = None /\ result_shape cfg r) cfg
           (fun fs db nm m ty r => @_validate_signal_shape fs db nm m ty cfg r)
           fs db xrio_data rs H).
Qed.

Lemma validate_result_shapes_witness :
  exists rs,
    snd (validate Samples.no_files Samples.empty_db Samples.inventory
           (Some Samples.il1_config)) = Returns rs /\
    Forall (fun r => alias_entry r = None /\
                     result_shape (Some Samples.il1_config) r) rs.
Proof.
  destruct (@validate_result_shapes Samples.no_files Samples.empty_db
              Samples.inventory (Some Samples.il1_config)) as [R P].
  destruct (R eq_refl) as [rs E].
  exists rs. split; [exact E | exact (P rs E)].
Defined.

End ValidatorShape.

(** * The keys of the alias store *)

Module AliasKeys.
Import Py Models AliasDb DictFacts PyExtra.

(** A key [model::name] is read back in one way when the name holds no
    colon. *)
Lemma key_parts m1 : forall m2 n1 n2,
  contains n1 ":" = false -> contains n2 ":" = false ->
  (m1 ++ "::" ++ n1)%string = (m2 ++ "::" ++ n2)%string ->
  m1 = m2 /\ n1 = n2.
Proof.
  assert (Clash : forall n a b,
            contains n ":" = false -> n <> (a ++ String ":" b)%string).
  { intros n a b H ->. rewrite contains_app_char in H. discriminate H. }
  induction m1 as [|c m1 IH]; intros m2 n1 n2 H1 H2 E.
  - destruct m2 as [|c2 [|c3 m2]]; cbn [append] in E.
    + inversion E. auto.
    + inversion E. destruct (@Clash n1 "" n2 H1). assumption.
    + inversion E. destruct (@Clash n1 m2 (String ":" n2) H1). assumption.
  - destruct m2 as [|c2 m2]; cbn [append] in E.
    + destruct m1 as [|c3 m1]; cbn [append] in E; inversion E.
      * destruct (@Clash n2 "" n1 H2). auto.
      * destruct (@Clash n2 m1 (String ":" n1) H2). auto.
    + inversion E. destruct (IH m2 n1 n2 H1 H2) as [-> ->]; auto.
Qed.

(** With a colon in a name two signals can share a key: the model [a]
    with the name [b::c] and the model [a::b] with the name [c]. *)
Lemma key_collision e1 e2 b :
  relay_model e2 = relay_model e1 ++ "::" ++ b ->
  relay_name e1 = b ++ "::" ++ relay_name e2 ->
  key e1 = key e2.
Proof.
  unfold key. intros -> ->.
  induction (relay_model e1) as [|x a IH]; cbn [append];
    [reflexivity | f_equal; exact IH].
Qed.

(** X26. Signals whose names hold no colon do not share a key: two
    entries that differ in the relay model or in the relay name have
    different keys, and after both are added each is found under its own
    model and name, whatever the store held before. *)
Theorem distinct_signals_keep_apart :
  forall (fs : disk) (db : AliasDatabase) (e1 e2 : AliasEntry),
    contains (relay_name e1) ":" = false ->
    contains (relay_name e2) ":" = false ->
    relay_model e1 <> relay_model e2 \/ relay_name e1 <> relay_name e2 ->
    key e1 <> key e2 /\
    let after1 := fst (add fs db e1) in
    let after2 := fst (add (fst after1) (snd after1) e2) in
    get (snd after2) (relay_model e1) (relay_name e1) = Some e1 /\
    get (snd after2) (relay_model e2) (relay_name e2) = Some e2.
Proof.
  intros fs db e1 e2 H1 H2 Hne.
  assert (K : key e1 <> key e2).
  { unfold key. intros E. apply key_parts in E; [|assumption..].
    destruct E as [Em En]. destruct Hne; contradiction. }
  split; [exact K|]. cbv zeta.
  unfold get, add, with_entries. cbn [fst snd _entries _db_path].
  fold (key e1). fold (key e2). split.
  - rewrite get_set_other by (intros E; apply K; symmetry; exact E).
    apply get_set_same.
  - apply get_set_same.
Qed.

Lemma distinct_signals_keep_apart_witness :
  key (Samples.entry "M" "IA" "IA") <> key (Samples.entry "M" "IB" "IB") /\
  let after1 :=
    fst (add Samples.no_files Samples.one_entry_db
           (Samples.entry "M" "IA" "IA")) in
  let after2 :=
    fst (add (fst after1) (snd after1) (Samples.entry "M" "IB" "IB")) in
  get (snd after2) "M" "IA" = Some (Samples.entry "M" "IA" "IA") /\
  get (snd after2) "M" "IB" = Some (Samples.entry "M" "IB" "IB").
Proof.
  apply (@distinct_signals_keep_apart Samples.no_files Samples.one_entry_db
           (Samples.entry "M" "IA" "IA") (Samples.entry "M" "IB" "IB")).
  - reflexivity.
  - reflexivity.
  - right. simpl. discriminate.
Defined.

End AliasKeys.
